(** * omapfolder-server: event controllers

    A shallow embedding of [src/controllers/events.js] (with the schemas of
    [models/oevent.js], [models/linkedEvent.js], [models/user.js] and the id
    validators of [controllers/validateIds.js]) and the properties of its
    specification that were checked against it.

    Conventions.
    - A MongoDB [ObjectID] is kept apart from its hexadecimal string form:
      the controllers compare ids sometimes after [.toString()] and
      sometimes not, and JavaScript's [===] and [Array.prototype.includes]
      never identify an ObjectID object with a string.
    - A string that names a document in a query or an update is cast to
      an ObjectID ([castObjectID]): the twenty-four digits are read without
      regard to case, twelve characters as twelve bytes. Where a controller
      compares string forms itself, the model compares strings.
    - A collection is a list of documents in natural (insertion) order.
    - A promise chain is read sequentially: each controller is a function
      from the store and the request to a response and a new store.
    - Strings are sequences of bytes. A string field whose schema path has
      [trim: true] goes through the setter when a document is built; in a
      query filter or an update the mapper applies the setter in some of
      its releases only, so there it is a parameter of its own.
    - The event-level fields no controller inspects are carried as the
      JSON values of the request. *)

From Stdlib Require Import String Ascii List Bool Arith ZArith QArith Qround Lia.
From Stdlib Require Import DecimalString.
Import ListNotations.
Close Scope Q_scope.
Open Scope string_scope.
Open Scope list_scope.

(** ** Identifiers and JSON payloads *)

Inductive ObjectID : Type := OID (hex : string).

(** [ObjectID.prototype.toString]: the 24 character hexadecimal form. *)
Definition toString (o : ObjectID) : string :=
  match o with OID h => h end.

Definition ObjectID_eqb (a b : ObjectID) : bool :=
  String.eqb (toString a) (toString b).

(** Request bodies and the schema fields no controller inspects. *)
#[local] Unset Elimination Schemes.
Inductive json : Type :=
| JNull
| JBool (b : bool)
| JNum (z : Z)
| JStr (s : string)
| JArr (items : list json)
| JObj (members : list (string * json)).
#[local] Set Elimination Schemes.

(** [role] of the user schema, plus the ['anonymous'] role the
    authentication layer gives a request without credentials. *)
Inductive Role : Type := RAdmin | RStandard | RGuest | RAnonymous.

(** [visibility] enum of the runner sub-document. *)
Inductive Visibility : Type := VPublic | VAll | VClub | VPrivate.

Definition Role_eqb (a b : Role) : bool :=
  match a, b with
  | RAdmin, RAdmin | RStandard, RStandard
  | RGuest, RGuest | RAnonymous, RAnonymous => true
  | _, _ => false
  end.

Definition Visibility_eqb (a b : Visibility) : bool :=
  match a, b with
  | VPublic, VPublic | VAll, VAll | VClub, VClub | VPrivate, VPrivate => true
  | _, _ => false
  end.

(** [array.filter(x => x)] over an array whose entries are either an
    object or [false]. *)
Fixpoint filterTruthy {A : Type} (l : list (option A)) : list A :=
  match l with
  | [] => []
  | Some x :: l' => x :: filterTruthy l'
  | None :: l' => filterTruthy l'
  end.

(** [strings.includes(s)] on an array of strings. *)
Definition includes (l : list string) (s : string) : bool :=
  existsb (String.eqb s) l.

(** ** Documents

    [getEvent] and [getEventList] work on the result of
    [find(...).populate('runners.user', ...)]: each runner carries its user
    document. The detail view populates the user's clubs in turn
    ([populate: { path: 'memberOf', select: '_id shortName' }]), so there
    [memberOf] holds club documents; the listing view selects [memberOf]
    without populating it, so there it holds the clubs' ids. *)

Module Club.
Record t : Type := mk {
  _id : ObjectID;
  shortName : string
}.
End Club.

Module User.
(** [C] is the type of the entries of [memberOf]. *)
Record t (C : Type) : Type := mk {
  _id : ObjectID;
  displayName : string;
  memberOf : list C;
  (** further selected profile fields (fullName, regNumber, ...) *)
  profile : list (string * json)
}.
Arguments mk {C}.
Arguments _id {C}.
Arguments displayName {C}.
Arguments memberOf {C}.
Arguments profile {C}.
End User.

Module MapRecord.
Record t : Type := mk {
  title : string;
  course : option string;
  route : option string;
  overlay : option string;
  isGeocoded : bool;
  geo : option json
}.
End MapRecord.

Module Comment.
Record t : Type := mk {
  author : ObjectID;
  text : string
}.
End Comment.

Module Runner.
(** [U] is [ObjectID] in a stored event and a user document once
    populated. *)
Record t (U : Type) : Type := mk {
  user : U;
  visibility : Visibility;
  (** courseTitle, courseLength, ..., time, place, tags *)
  details : list (string * json);
  maps : list MapRecord.t;
  comments : list Comment.t
}.
Arguments mk {U}.
Arguments user {U}.
Arguments visibility {U}.
Arguments details {U}.
Arguments maps {U}.
Arguments comments {U}.
End Runner.

Module Event.
Record t (U : Type) : Type := mk {
  _id : ObjectID;
  owner : ObjectID;
  date : string;
  name : string;
  orisId : option string;
  organisedBy : list ObjectID;
  linkedTo : list ObjectID;
  (** mapName, locPlace, locRegions, locCountry, locLat, locLong,
      locCornerSW, locCornerNE, types, tags, website, results *)
  fields : list (string * json);
  runners : list (Runner.t U);
  active : bool
}.
Arguments mk {U}.
Arguments _id {U}.
Arguments owner {U}.
Arguments date {U}.
Arguments name {U}.
Arguments orisId {U}.
Arguments organisedBy {U}.
Arguments linkedTo {U}.
Arguments fields {U}.
Arguments runners {U}.
Arguments active {U}.

(** [doc.runners = rs] *)
Definition set_runners {U V : Type} (rs : list (Runner.t V)) (e : t U) : t V :=
  mk (_id e) (owner e) (date e) (name e) (orisId e) (organisedBy e)
     (linkedTo e) (fields e) rs (active e).
End Event.

Module LinkedEvent.
Record t : Type := mk {
  _id : ObjectID;
  displayName : string;
  includes : list ObjectID
}.
End LinkedEvent.

(** [req.user] as the authentication layer leaves it, its clubs
    populated ([club._id] is read off each). *)
Module ReqUser.
Record t : Type := mk {
  role : Role;
  _id : ObjectID;
  memberOf : list Club.t
}.
End ReqUser.

(** [obj[key]] on a document's loose fields. *)
Fixpoint getField (key : string) (o : list (string * json)) : option json :=
  match o with
  | [] => None
  | (k, v) :: o' => if String.eqb k key then Some v else getField key o'
  end.

Abbreviation StoredRunner := (Runner.t ObjectID).
Abbreviation StoredEvent := (Event.t ObjectID).
Abbreviation DetailRunner := (Runner.t (User.t Club.t)).
Abbreviation DetailEvent := (Event.t (User.t Club.t)).
Abbreviation ListedRunner := (Runner.t (User.t ObjectID)).
Abbreviation ListedEvent := (Event.t (User.t ObjectID)).

(** [a === b] where [a] may be [null] and [b] is a string. *)
Definition strictEq (a : option string) (b : string) : bool :=
  match a with
  | Some x => String.eqb x b
  | None => false
  end.

(** [requestorClubs.includes(s)]. [requestorClubs] is [null] for the
    anonymous role only, and the call sits under the test for the standard
    and guest roles. *)
Definition clubsInclude (requestorClubs : option (list string)) (s : string) : bool :=
  match requestorClubs with
  | Some l => includes l s
  | None => false
  end.

(** ** [getEvent]: full details of one event, visible runners only *)

Module GetEvent.

Section Detail.

(** [clubId.toString()] where [clubId] is an entry of the populated
    [runner.user.memberOf], a club document: how a document renders as a
    string belongs to the object-document mapper. *)
Variable documentToString : Club.t -> string.

(** events.js 1102-1104 *)
Definition requestorId (u : ReqUser.t) : option string :=
  if Role_eqb (ReqUser.role u) RAnonymous then None
  else Some (toString (ReqUser._id u)).

(** events.js 1105-1107 *)
Definition requestorClubs (u : ReqUser.t) : option (list string) :=
  if Role_eqb (ReqUser.role u) RAnonymous then None
  else Some (map (fun club => toString (Club._id club)) (ReqUser.memberOf u)).

(** events.js 1135-1148: the [canSee] flag of one runner. *)
Definition canSee (u : ReqUser.t) (runner : DetailRunner) : bool :=
  let requestorRole := ReqUser.role u in
  let canSee := false in
  let canSee := if Role_eqb requestorRole RAdmin then true else canSee in
  let canSee :=
    if Visibility_eqb (Runner.visibility runner) VPublic then true else canSee in
  if Role_eqb requestorRole RStandard || Role_eqb requestorRole RGuest then
    let canSee :=
      if Visibility_eqb (Runner.visibility runner) VAll then true else canSee in
    let canSee :=
      if strictEq (requestorId u) (toString (User._id (Runner.user runner)))
      then true else canSee in
    if Visibility_eqb (Runner.visibility runner) VClub then
      let commonClubs :=
        filter (fun clubId =>
                  clubsInclude (requestorClubs u) (documentToString clubId))
               (User.memberOf (Runner.user runner)) in
      if (0 <? length commonClubs)%nat then true else canSee
    else canSee
  else canSee.

(** events.js 1134-1151 *)
Definition selectedRunners (u : ReqUser.t) (foundEvent : DetailEvent)
  : list (option DetailRunner) :=
  map (fun runner => if canSee u runner then Some runner else None)
      (Event.runners foundEvent).

(** events.js 1132-1153: the document sent with status 200. *)
Definition filteredEvent (u : ReqUser.t) (foundEvent : DetailEvent)
  : DetailEvent :=
  if (0 <? length (Event.runners foundEvent))%nat
  then Event.set_runners (filterTruthy (selectedRunners u foundEvent)) foundEvent
  else foundEvent.

End Detail.

End GetEvent.

(** ** [getEventList]: summaries of the matching events *)

Module RunnerSummary.
Record t : Type := mk {
  user : ObjectID;
  displayName : string;
  courseTitle : option json;
  numberMaps : nat
}.
End RunnerSummary.

Module EventSummary.
Record t : Type := mk {
  _id : ObjectID;
  orisId : option string;
  date : string;
  name : string;
  mapName : option json;
  locPlace : option json;
  locCountry : option json;
  locLat : option json;
  locLong : option json;
  locCornerSW : option json;
  locCornerNE : option json;
  organisedBy : list ObjectID;
  linkedTo : list ObjectID;
  totalRunners : nat;
  types : option json;
  tags : option json;
  (** absent when the stored event has no runner at all *)
  runners : option (list RunnerSummary.t)
}.
End EventSummary.

Module GetEventList.

(** events.js 961-963 *)
Definition requestorId (u : ReqUser.t) : option string :=
  if Role_eqb (ReqUser.role u) RAnonymous then None
  else Some (toString (ReqUser._id u)).

(** events.js 964-966 *)
Definition requestorClubs (u : ReqUser.t) : option (list string) :=
  if Role_eqb (ReqUser.role u) RAnonymous then None
  else Some (map (fun club => toString (Club._id club)) (ReqUser.memberOf u)).

(** events.js 1032-1045 *)
Definition canSee (u : ReqUser.t) (runner : ListedRunner) : bool :=
  let requestorRole := ReqUser.role u in
  let canSee := false in
  let canSee := if Role_eqb requestorRole RAdmin then true else canSee in
  let canSee :=
    if Visibility_eqb (Runner.visibility runner) VPublic then true else canSee in
  if Role_eqb requestorRole RStandard || Role_eqb requestorRole RGuest then
    let canSee :=
      if Visibility_eqb (Runner.visibility runner) VAll then true else canSee in
    let canSee :=
      if strictEq (requestorId u) (toString (User._id (Runner.user runner)))
      then true else canSee in
    if Visibility_eqb (Runner.visibility runner) VClub then
      let commonClubs :=
        filter (fun clubId => clubsInclude (requestorClubs u) (toString clubId))
               (User.memberOf (Runner.user runner)) in
      if (0 <? length commonClubs)%nat then true else canSee
    else canSee
  else canSee.

(** events.js 1047-1052: the reduced record of a visible runner. The
    course title is read off the populated user document. *)
Definition runnerSummary (runner : ListedRunner) : RunnerSummary.t :=
  RunnerSummary.mk
    (User._id (Runner.user runner))
    (User.displayName (Runner.user runner))
    (getField "courseTitle" (User.profile (Runner.user runner)))
    (length (Runner.maps runner)).

(** events.js 1031-1055 *)
Definition selectedRunners (u : ReqUser.t) (foundEvent : ListedEvent)
  : list (option RunnerSummary.t) :=
  map (fun runner => if canSee u runner then Some (runnerSummary runner) else None)
      (Event.runners foundEvent).

(** events.js 1011-1058 *)
Definition eventDetails (u : ReqUser.t) (foundEvent : ListedEvent)
  : EventSummary.t :=
  EventSummary.mk
    (Event._id foundEvent)
    (Event.orisId foundEvent)
    (Event.date foundEvent)
    (Event.name foundEvent)
    (getField "mapName" (Event.fields foundEvent))
    (getField "locPlace" (Event.fields foundEvent))
    (getField "locCountry" (Event.fields foundEvent))
    (getField "locLat" (Event.fields foundEvent))
    (getField "locLong" (Event.fields foundEvent))
    (getField "locCornerSW" (Event.fields foundEvent))
    (getField "locCornerNE" (Event.fields foundEvent))
    (Event.organisedBy foundEvent)
    (Event.linkedTo foundEvent)
    (length (Event.runners foundEvent))
    (getField "types" (Event.fields foundEvent))
    (getField "tags" (Event.fields foundEvent))
    (if (0 <? length (Event.runners foundEvent))%nat
     then Some (filterTruthy (selectedRunners u foundEvent))
     else None).

(** events.js 1011-1059 *)
Definition eventsSummary (u : ReqUser.t) (events : list ListedEvent)
  : list EventSummary.t :=
  map (eventDetails u) events.

End GetEventList.

(** The nested [if]s of the two [canSee], as one boolean expression over
    the string form [render] of a club entry. *)
Definition clauses {C : Type} (render : C -> string) (u : ReqUser.t)
                   (r : Runner.t (User.t C)) : bool :=
  Role_eqb (ReqUser.role u) RAdmin
  || Visibility_eqb (Runner.visibility r) VPublic
  || ((Role_eqb (ReqUser.role u) RStandard || Role_eqb (ReqUser.role u) RGuest)
      && (Visibility_eqb (Runner.visibility r) VAll
          || strictEq (GetEvent.requestorId u)
                      (toString (User._id (Runner.user r)))
          || (Visibility_eqb (Runner.visibility r) VClub
              && (0 <? length
                    (filter (fun clubId =>
                               clubsInclude (GetEvent.requestorClubs u)
                                            (render clubId))
                            (User.memberOf (Runner.user r))))%nat))).

(** ** The rule table of the specification (section 4.2)

    Written from the specification's words, to be compared with [canSee].
    A viewer is a role, an identity and a set of club ids; the anonymous
    viewer has no identity and no club. A runner enters with its
    visibility, its user's id and its user's club ids. *)

Module Viewer.
Record t : Type := mk {
  role : Role;
  id : option string;
  clubIds : list string
}.
End Viewer.

Definition viewerOf (u : ReqUser.t) : Viewer.t :=
  Viewer.mk (ReqUser.role u)
            (GetEvent.requestorId u)
            (match GetEvent.requestorClubs u with Some l => l | None => [] end).

Definition adminClause (v : Viewer.t) : Prop :=
  Viewer.role v = RAdmin.

Definition publicClause (visibility : Visibility) : Prop :=
  visibility = VPublic.

Definition allClause (v : Viewer.t) (visibility : Visibility) : Prop :=
  (Viewer.role v = RStandard \/ Viewer.role v = RGuest)
  /\ visibility = VAll.

Definition selfClause (v : Viewer.t) (runnerUserId : ObjectID) : Prop :=
  Viewer.id v = Some (toString runnerUserId).

Definition clubClause (v : Viewer.t) (visibility : Visibility)
                      (runnerClubIds : list string) : Prop :=
  visibility = VClub
  /\ exists c, In c (Viewer.clubIds v) /\ In c runnerClubIds.

Definition ruleTable (v : Viewer.t) (visibility : Visibility)
                     (runnerUserId : ObjectID) (runnerClubIds : list string)
  : Prop :=
  adminClause v \/ publicClause visibility \/ allClause v visibility
  \/ selfClause v runnerUserId \/ clubClause v visibility runnerClubIds.

(** The rule table on a runner of the detail view: the club ids are the
    ids of the populated clubs. *)
Definition detailRule (v : Viewer.t) (r : DetailRunner) : Prop :=
  ruleTable v (Runner.visibility r) (User._id (Runner.user r))
            (map (fun club => toString (Club._id club))
                 (User.memberOf (Runner.user r))).

(** The rule table on a runner of the listing view. *)
Definition listedRule (v : Viewer.t) (r : ListedRunner) : Prop :=
  ruleTable v (Runner.visibility r) (User._id (Runner.user r))
            (map toString (User.memberOf (Runner.user r))).

(** Two runner lists that differ only in entries the viewer cannot see:
    hidden entries may be present on either side, everything else agrees
    position by position. *)
Inductive differOnlyInHidden {R : Type} (canSee : R -> bool)
  : list R -> list R -> Prop :=
| doh_nil : differOnlyInHidden canSee [] []
| doh_same r l1 l2 :
    differOnlyInHidden canSee l1 l2 ->
    differOnlyInHidden canSee (r :: l1) (r :: l2)
| doh_left h l1 l2 :
    canSee h = false ->
    differOnlyInHidden canSee l1 l2 -> differOnlyInHidden canSee (h :: l1) l2
| doh_right h l1 l2 :
    canSee h = false ->
    differOnlyInHidden canSee l1 l2 -> differOnlyInHidden canSee l1 (h :: l2).

(** Two stored events that differ only in runners invisible to the viewer. *)
Definition sameButHiddenRunners {U : Type} (canSee : Runner.t U -> bool)
                                (e1 e2 : Event.t U) : Prop :=
  Event._id e1 = Event._id e2
  /\ Event.owner e1 = Event.owner e2
  /\ Event.date e1 = Event.date e2
  /\ Event.name e1 = Event.name e2
  /\ Event.orisId e1 = Event.orisId e2
  /\ Event.organisedBy e1 = Event.organisedBy e2
  /\ Event.linkedTo e1 = Event.linkedTo e2
  /\ Event.fields e1 = Event.fields e2
  /\ Event.active e1 = Event.active e2
  /\ differOnlyInHidden canSee (Event.runners e1) (Event.runners e2).

(** ** Sample documents for the read paths *)

Definition aliceId : ObjectID := OID "5c0000000000000000000a11".
Definition bobId : ObjectID := OID "5c0000000000000000000b0b".
Definition carolId : ObjectID := OID "5c0000000000000000000ca0".
Definition erinId : ObjectID := OID "5c0000000000000000000e41".
Definition clubX : ObjectID := OID "5c00000000000000000000c1".
Definition eventA : ObjectID := OID "5c00000000000000000000e1".
Definition eventB : ObjectID := OID "5c00000000000000000000e2".
Definition linkL : ObjectID := OID "5c00000000000000000000f1".

Definition clubXDocument : Club.t := Club.mk clubX "OKX".

(** Alice, a standard user and a member of club X, is the viewer. *)
Definition alice : ReqUser.t := ReqUser.mk RStandard aliceId [clubXDocument].

(** Bob runs with visibility ['public'], Carol with ['private'], Erin with
    ['club']; Bob and Erin are members of club X. [clubs] is their
    [memberOf] as the view at hand holds it. *)
Definition bobRuns {C : Type} (clubs : list C) : Runner.t (User.t C) :=
  Runner.mk (User.mk bobId "Bob" clubs []) VPublic
            [("courseTitle", JStr "H21")] [] [].

Definition carolRuns {C : Type} : Runner.t (User.t C) :=
  Runner.mk (User.mk carolId "Carol" [] []) VPrivate
            [("courseTitle", JStr "D21")] [] [].

Definition erinRuns {C : Type} (clubs : list C) : Runner.t (User.t C) :=
  Runner.mk (User.mk erinId "Erin" clubs []) VClub
            [("courseTitle", JStr "D35")] [] [].

Definition springCup {U : Type} (rs : list (Runner.t U)) : Event.t U :=
  Event.mk eventA bobId "2019-04-06" "Spring Cup" None [] [] [] rs true.

(** A rendering of a club document in the manner of an object inspector. *)
Definition inspectClub (club : Club.t) : string :=
  "{ _id: " ++ toString (Club._id club)
  ++ ", shortName: '" ++ Club.shortName club ++ "' }".

(** A rendering that gives the string form of the document's id. *)
Definition idOfClub (club : Club.t) : string :=
  toString (Club._id club).

(** The event-level part of a summary: every field but [totalRunners] and
    [runners]. *)
Definition eventLevelFields (s : EventSummary.t) :=
  (EventSummary._id s, EventSummary.orisId s, EventSummary.date s,
   EventSummary.name s, EventSummary.mapName s, EventSummary.locPlace s,
   EventSummary.locCountry s, EventSummary.locLat s, EventSummary.locLong s,
   EventSummary.locCornerSW s, EventSummary.locCornerNE s,
   EventSummary.organisedBy s, EventSummary.linkedTo s,
   EventSummary.types s, EventSummary.tags s).

(** The runner entries a summary lists (none when the field is absent). *)
Definition listedRunners (s : EventSummary.t) : list RunnerSummary.t :=
  match EventSummary.runners s with
  | Some out => out
  | None => []
  end.

(** ** [postMap]: length of the recorded track

    [getQRData] and [calculateDistance] live in [utils/parseQR.js], which
    is not embedded here: the great-circle distance (in
    metres) is a parameter, applied to [trackCoords[i]], which is
    [undefined] past the end of the array. JavaScript numbers are read as
    rationals. *)

Section TrackDistance.

Variable waypoint : Type.
Variable calculateDistance : option waypoint -> option waypoint -> Q.

(** events.js 529-531: [for (let i = 0; i < trackCoords.length - 2; i += 1)
    trackDistance += calculateDistance(trackCoords[i], trackCoords[i + 1])],
    with [steps] iterations left to run from index [i]. *)
Fixpoint trackLoop (trackCoords : list waypoint) (steps i : nat)
                   (trackDistance : Q) : Q :=
  match steps with
  | O => trackDistance
  | S steps' =>
      trackLoop trackCoords steps' (S i)
        (trackDistance
         + calculateDistance (nth_error trackCoords i)
                             (nth_error trackCoords (S i)))%Q
  end.

(** events.js 524-531. [sessions] is the waypoint list of the first route
    of the first session when the image carries one. *)
Definition trackDistance (sessions : option (list waypoint)) : Q :=
  match sessions with
  | None => 0%Q
  | Some trackCoords =>
      trackLoop trackCoords (length trackCoords - 2) 0
        (calculateDistance (nth_error trackCoords 0) (nth_error trackCoords 1))
  end.

(** events.js 588: [Math.floor(trackDistance) / 1000]. *)
Definition trackDistanceK (sessions : option (list waypoint)) : Q :=
  (inject_Z (Qfloor (trackDistance sessions)) / 1000)%Q.

(** The specification's distance: the sum over [i] in [0, n-2] of the
    distance from [w[i]] to [w[i+1]]; nothing for fewer than two points. *)
Fixpoint pairwiseSum (w : list waypoint) : Q :=
  match w with
  | a :: ((b :: _) as rest) =>
      (calculateDistance (Some a) (Some b) + pairwiseSum rest)%Q
  | _ => 0%Q
  end.

Definition specDistanceK (w : list waypoint) : Q :=
  (inject_Z (Qfloor (pairwiseSum w)) / 1000)%Q.

End TrackDistance.

Arguments trackLoop {waypoint}.
Arguments trackDistance {waypoint}.
Arguments trackDistanceK {waypoint}.
Arguments pairwiseSum {waypoint}.
Arguments specDistanceK {waypoint}.

(** ** The store and the requests of the write paths *)

Module Store.
Record t : Type := mk {
  events : list StoredEvent;
  linkedEvents : list LinkedEvent.t;
  (** ids of the documents of the club and user collections *)
  clubs : list ObjectID;
  users : list ObjectID
}.
End Store.

(** [req.body] of [createEvent] and [updateEvent]. A field is [None] when
    the key is absent; [organisedBy] and [linkedTo] are [Some] when the
    value is an array ([x && Array.isArray(x)]). *)
Module EventBody.
Record t : Type := mk {
  date : option string;
  name : option string;
  orisId : option string;
  owner : option string;
  organisedBy : option (list string);
  linkedTo : option (list string);
  (** every other key of the body *)
  other : list (string * json)
}.
End EventBody.

(** [req.body] of [createEventLink] and [updateEventLink]. *)
Module LinkBody.
Record t : Type := mk {
  displayName : option string;
  includes : option (list string)
}.
End LinkBody.

(** The [{ error: ... }] bodies, by their message. *)
Inductive Failure : Type :=
| GuestAccountsNotAllowed
| MustProvideNameAndDate
| MustProvideName
| DateFormatRequired
| AlreadyExists
| InvalidID
| CouldNotBeFound
| NoEventFound
| NoValidFieldsToUpdate
| NoValidEventIDsFound
| NotAllowed
| RunnerNotPresent
| DeletedCountNotOne
| StoreError.

(** [res.status(code).send(body)] *)
Inductive Response (A : Type) : Type :=
| Sent (status : nat) (body : A)
| Refused (status : nat) (error : Failure).
Arguments Sent {A}.
Arguments Refused {A}.

(** A value of an id array: a string (after [.toString()]) or an ObjectID
    object. *)
Inductive idValue : Type :=
| IdStr (s : string)
| IdObj (o : ObjectID).

(** The ObjectID a query casts an id value to. The strings that reach a
    query this way are string forms of ObjectIDs (of validated ids, or of
    a document's references), which cast back to the ObjectID. *)
Definition castId (v : idValue) : ObjectID :=
  match v with
  | IdStr s => OID s
  | IdObj o => o
  end.

(** [strings.includes(v)] on a plain array of strings: a string is found
    by its characters, an ObjectID object is never one of the strings. *)
Definition stringsInclude (l : list string) (v : idValue) : bool :=
  match v with
  | IdStr s => includes l s
  | IdObj _ => false
  end.

(** [objects.includes(s)] on a plain array of ObjectID objects: a string is
    never one of the objects. *)
Definition objectsInclude (l : list ObjectID) (s : string) : bool := false.

(** A list of references as [updateEvent] and [updateEventLink] hold it in
    [newLinkedEvents] / [newIncludes]: a plain array of strings when the
    request supplies the list, the document's own array of ObjectIDs when
    it does not. *)
Inductive RefList : Type :=
| PlainStrings (l : list string)
| DocumentArray (l : list ObjectID).

(** [x] is truthy: a non-empty string. *)
Definition truthy (x : option string) : option string :=
  match x with
  | Some s => if String.eqb s "" then None else Some s
  | None => None
  end.

(** *** Date pattern

    [/[1|2][0-9]{3}-((0[13578]|1[02])-(0[1-9]|[12][0-9]|3[01])|
      (0[469]|11)-(0[1-9]|[12][0-9]|30)|02-(0[1-9]|[12][0-9]))/]. *)

Definition isDigit (c : ascii) : bool :=
  (48 <=? nat_of_ascii c)%nat && (nat_of_ascii c <=? 57)%nat.

Definition oneOf (cs : string) (c : ascii) : bool :=
  existsb (Ascii.eqb c) (list_ascii_of_string cs).

(** [(0[1-9]|[12][0-9]|3[01])], or with [30] or nothing for the thirties. *)
Definition dayUpTo (thirties : string) (d0 d1 : ascii) : bool :=
  (Ascii.eqb d0 "0" && oneOf "123456789" d1)
  || (oneOf "12" d0 && isDigit d1)
  || (Ascii.eqb d0 "3" && oneOf thirties d1).

(** The ten characters of the pattern at the head of the string. *)
Definition dateAtHead (s : string) : bool :=
  match s with
  | String y0 (String y1 (String y2 (String y3 (String h1
      (String m0 (String m1 (String h2 (String d0 (String d1 _))))))))) =>
      oneOf "1|2" y0 && isDigit y1 && isDigit y2 && isDigit y3
      && Ascii.eqb h1 "-"
      && (((Ascii.eqb m0 "0" && oneOf "13578" m1
            || Ascii.eqb m0 "1" && oneOf "02" m1)
           && Ascii.eqb h2 "-" && dayUpTo "01" d0 d1)
          || ((Ascii.eqb m0 "0" && oneOf "469" m1
               || Ascii.eqb m0 "1" && Ascii.eqb m1 "1")
              && Ascii.eqb h2 "-" && dayUpTo "0" d0 d1)
          || (Ascii.eqb m0 "0" && Ascii.eqb m1 "2"
              && Ascii.eqb h2 "-" && dayUpTo "" d0 d1))
  | _ => false
  end.

(** [s.match(pattern)]: the pattern is not anchored. *)
Fixpoint matchesDate (s : string) : bool :=
  dateAtHead s
  || match s with
     | EmptyString => false
     | String _ s' => matchesDate s'
     end.

(** *** Ids *)

Definition isHexDigit (c : ascii) : bool :=
  oneOf "0123456789abcdefABCDEF" c.

(** [ObjectID.isValid(s)] on a string: twelve characters, or twenty-four
    hexadecimal digits. *)
Definition ObjectID_isValid (s : string) : bool :=
  (String.length s =? 12)%nat
  || ((String.length s =? 24)%nat && forallb isHexDigit (list_ascii_of_string s)).

(** The sixteen digits [toString] prints an ObjectID with. *)
Definition hexDigit (n : nat) : ascii :=
  nth n (list_ascii_of_string "0123456789abcdef") "0"%char.

(** A hexadecimal digit in lower case. *)
Definition lowerHexDigit (c : ascii) : ascii :=
  if oneOf "ABCDEF" c then ascii_of_nat (nat_of_ascii c + 32) else c.

(** Twenty-four hexadecimal digits, as [toString] prints them. *)
Fixpoint lowerHex (s : string) : string :=
  match s with
  | EmptyString => EmptyString
  | String c s' => String (lowerHexDigit c) (lowerHex s')
  end.

(** Twelve bytes, as [toString] prints them. *)
Fixpoint hexOfBytes (s : string) : string :=
  match s with
  | EmptyString => EmptyString
  | String c s' =>
      String (hexDigit (nat_of_ascii c / 16))
             (String (hexDigit (nat_of_ascii c mod 16)) (hexOfBytes s'))
  end.

(** [new ObjectID(s)] on a string that [ObjectID.isValid] accepts, which
    is what the mapper casts the string to where a query or an update
    expects an id: twelve characters are the twelve bytes of the id,
    twenty-four hexadecimal digits are read without regard to case. *)
Definition castObjectID (s : string) : ObjectID :=
  if (String.length s =? 12)%nat then OID (hexOfBytes s) else OID (lowerHex s).

(** [{ _id: c }] in a query: the document whose id the string casts to. *)
Definition namedBy (c : string) (k : ObjectID) : bool :=
  ObjectID_eqb k (castObjectID c).

(** [validateIds.js]: the ids of the documents that the candidates name
    ([Model.find({ _id: candidate })], then the document's own [_id]), in
    the candidates' order; a candidate that is no valid id or names no
    document contributes nothing. *)
Definition validateIds (collection : list ObjectID) (candidates : list string)
  : list ObjectID :=
  filterTruthy
    (map (fun c =>
            if ObjectID_isValid c
            then find (namedBy c) collection
            else None)
         candidates).

Definition validateClubIds (s : Store.t) (candidates : list string) :=
  validateIds (Store.clubs s) candidates.

Definition validateEventIds (s : Store.t) (candidates : list string) :=
  validateIds (map Event._id (Store.events s)) candidates.

Definition validateLinkedEventIds (s : Store.t) (candidates : list string) :=
  validateIds (map LinkedEvent._id (Store.linkedEvents s)) candidates.

(** [validateUserId] *)
Definition validateUserId (s : Store.t) (candidate : string) : bool :=
  ObjectID_isValid candidate
  && existsb (namedBy candidate) (Store.users s).

(** *** Store operations *)

(** [$addToSet] of one id on an array of ids. *)
Definition addToSet (x : ObjectID) (l : list ObjectID) : list ObjectID :=
  if existsb (ObjectID_eqb x) l then l else l ++ [x].

(** [$pull] of one id from an array of ids. *)
Definition pull (x : ObjectID) (l : list ObjectID) : list ObjectID :=
  filter (fun y => negb (ObjectID_eqb x y)) l.

(** [{ _id: { $in: ids } }] *)
Definition idIn (ids : list idValue) (id : ObjectID) : bool :=
  existsb (fun v => ObjectID_eqb (castId v) id) ids.

(** [Model.updateMany(filter, change)] *)
Definition updateMany {A : Type} (matches : A -> bool) (change : A -> A)
                      (collection : list A) : list A :=
  map (fun d => if matches d then change d else d) collection.

(** [Model.findByIdAndUpdate(id, change)]: the first document with the id. *)
Fixpoint updateFirst {A : Type} (matches : A -> bool) (change : A -> A)
                     (collection : list A) : list A :=
  match collection with
  | [] => []
  | d :: rest =>
      if matches d then change d :: rest
      else d :: updateFirst matches change rest
  end.

(** [Model.deleteOne(filter)] *)
Fixpoint deleteFirst {A : Type} (matches : A -> bool) (collection : list A)
  : list A :=
  match collection with
  | [] => []
  | d :: rest =>
      if matches d then rest else d :: deleteFirst matches rest
  end.

(** [{ _id: id }], the filter of [findById] and [findByIdAndUpdate]. *)
Definition hasEventId (id : string) (e : StoredEvent) : bool :=
  namedBy id (Event._id e).

Definition hasLinkId (id : string) (l : LinkedEvent.t) : bool :=
  namedBy id (LinkedEvent._id l).

(** [Event.findById(id)] *)
Definition findEventById (id : string) (s : Store.t) : option StoredEvent :=
  find (hasEventId id) (Store.events s).

(** [LinkedEvent.findById(id)] *)
Definition findLinkById (id : string) (s : Store.t) : option LinkedEvent.t :=
  find (hasLinkId id) (Store.linkedEvents s).

(** [Event.findOne({ date, name })], on the name as the query carries
    it. *)
Definition findEventByDateName (date name : string) (s : Store.t)
  : option StoredEvent :=
  find (fun e => String.eqb (Event.date e) date
                 && String.eqb (Event.name e) name)
       (Store.events s).

(** [LinkedEvent.findOne({ displayName })] *)
Definition findLinkByName (displayName : string) (s : Store.t)
  : option LinkedEvent.t :=
  find (fun l => String.eqb (LinkedEvent.displayName l) displayName)
       (Store.linkedEvents s).

Definition setLinkIncludes (ids : list ObjectID) (l : LinkedEvent.t) :=
  LinkedEvent.mk (LinkedEvent._id l) (LinkedEvent.displayName l) ids.

Definition setLinkName (n : string) (l : LinkedEvent.t) :=
  LinkedEvent.mk (LinkedEvent._id l) n (LinkedEvent.includes l).

Definition setEventLinkedTo (ids : list ObjectID) (e : StoredEvent) : StoredEvent :=
  Event.mk (Event._id e) (Event.owner e) (Event.date e) (Event.name e)
           (Event.orisId e) (Event.organisedBy e) ids (Event.fields e)
           (Event.runners e) (Event.active e).

(** [{ $addToSet: { includes: id } }] and [{ $pull: { includes: id } }] *)
Definition addInclude (id : ObjectID) (l : LinkedEvent.t) :=
  setLinkIncludes (addToSet id (LinkedEvent.includes l)) l.

Definition pullInclude (id : ObjectID) (l : LinkedEvent.t) :=
  setLinkIncludes (pull id (LinkedEvent.includes l)) l.

(** [{ $addToSet: { linkedTo: id } }] and [{ $pull: { linkedTo: id } }] *)
Definition addLinkedTo (id : ObjectID) (e : StoredEvent) :=
  setEventLinkedTo (addToSet id (Event.linkedTo e)) e.

Definition pullLinkedTo (id : ObjectID) (e : StoredEvent) :=
  setEventLinkedTo (pull id (Event.linkedTo e)) e.

Definition setEvents (es : list StoredEvent) (s : Store.t) : Store.t :=
  Store.mk es (Store.linkedEvents s) (Store.clubs s) (Store.users s).

Definition setLinkedEvents (ls : list LinkedEvent.t) (s : Store.t) : Store.t :=
  Store.mk (Store.events s) ls (Store.clubs s) (Store.users s).

(** [obj[key] = value] on loose fields. *)
Fixpoint setField (key : string) (value : json) (o : list (string * json))
  : list (string * json) :=
  match o with
  | [] => [(key, value)]
  | (k, v) :: o' =>
      if String.eqb k key then (k, value) :: o'
      else (k, v) :: setField key value o'
  end.

Definition setFields (changes o : list (string * json)) : list (string * json) :=
  fold_left (fun acc kv => setField (fst kv) (snd kv) acc) changes o.

(** The keys of [other] that a list of valid fields lets through. *)
Definition onlyValidFields (validFields : list string)
                           (other : list (string * json)) :=
  filter (fun kv => includes validFields (fst kv)) other.

(** [fieldsToUpdate] of [updateEvent]: the keys that are set. *)
Module EventPatch.
Record t : Type := mk {
  date : option string;
  name : option string;
  owner : option ObjectID;
  organisedBy : option (list ObjectID);
  linkedTo : option (list ObjectID);
  fields : list (string * json)
}.
End EventPatch.

(** [new Date()] as [deleteEvent] reads it. *)
Module DateTime.
Record t : Type := mk {
  getDate : nat;
  getMonth : nat;
  getFullYear : nat;
  getHours : nat;
  getMinutes : nat
}.
End DateTime.

Definition orEmpty {A : Type} (x : option (list A)) : list A :=
  match x with
  | Some l => l
  | None => []
  end.

Definition orElse {A : Type} (x : option A) (d : A) : A :=
  match x with
  | Some v => v
  | None => d
  end.

Definition isSome {A : Type} (x : option A) : bool :=
  match x with
  | Some _ => true
  | None => false
  end.

(** [{ $set: fieldsToUpdate }] on an event. *)
Definition applySet (p : EventPatch.t) (e : StoredEvent) : StoredEvent :=
  Event.mk (Event._id e)
           (orElse (EventPatch.owner p) (Event.owner e))
           (orElse (EventPatch.date p) (Event.date e))
           (orElse (EventPatch.name p) (Event.name e))
           (Event.orisId e)
           (orElse (EventPatch.organisedBy p) (Event.organisedBy e))
           (orElse (EventPatch.linkedTo p) (Event.linkedTo e))
           (setFields (EventPatch.fields p) (Event.fields e))
           (Event.runners e)
           (Event.active e).

(** [Object.keys(fieldsToUpdate).length] *)
Definition numberOfFields (p : EventPatch.t) : nat :=
  (if isSome (EventPatch.date p) then 1 else 0)
  + (if isSome (EventPatch.name p) then 1 else 0)
  + (if isSome (EventPatch.owner p) then 1 else 0)
  + (if isSome (EventPatch.organisedBy p) then 1 else 0)
  + (if isSome (EventPatch.linkedTo p) then 1 else 0)
  + length (EventPatch.fields p).

Definition decimal (n : nat) : string :=
  NilZero.string_of_uint (Nat.to_uint n).

(** [s.slice(-2)] *)
Definition lastTwo (s : string) : string :=
  substring (String.length s - 2) 2 s.

(** events.js 1492-1497 *)
Definition deletedAt (now : DateTime.t) : string :=
  "deleted:"
  ++ lastTwo ("0" ++ decimal (DateTime.getDate now))
  ++ lastTwo ("0" ++ decimal (DateTime.getMonth now + 1))
  ++ decimal (DateTime.getFullYear now)
  ++ "@"
  ++ lastTwo ("0" ++ decimal (DateTime.getHours now))
  ++ lastTwo ("0" ++ decimal (DateTime.getMinutes now)).

(** [{ $set: { active: false, name: newName, orisId: newOrisId } }] *)
Definition setDeleted (newName : string) (newOrisId : option string)
                      (e : StoredEvent) : StoredEvent :=
  Event.mk (Event._id e) (Event.owner e) (Event.date e) newName newOrisId
           (Event.organisedBy e) (Event.linkedTo e) (Event.fields e)
           (Event.runners e) false.

(** The unique index on [orisId] (for string values). *)
Definition orisIdTaken (orisId : option string) (s : Store.t) : bool :=
  match orisId with
  | Some x =>
      existsb (fun e => match Event.orisId e with
                        | Some y => String.eqb x y
                        | None => false
                        end)
              (Store.events s)
  | None => false
  end.

(** [newRefs.filter(id => !currentRefs.includes(id))], with [currentRefs] a
    plain array of strings. *)
Definition addedIds (current : list string) (new : RefList) : list idValue :=
  match new with
  | PlainStrings l =>
      map IdStr (filter (fun id => negb (stringsInclude current (IdStr id))) l)
  | DocumentArray l =>
      map IdObj (filter (fun id => negb (stringsInclude current (IdObj id))) l)
  end.

(** The specification's delta (section 4.1), on sets of ids. *)
Definition specAdded (previousRefs newRefs : list ObjectID) : list ObjectID :=
  filter (fun id => negb (existsb (ObjectID_eqb id) previousRefs)) newRefs.

Definition specRemoved (previousRefs newRefs : list ObjectID) : list ObjectID :=
  filter (fun id => negb (existsb (ObjectID_eqb id) newRefs)) previousRefs.

Definition createEvent_validFields : list string :=
  ["mapName"; "locPlace"; "locRegions"; "locCountry"; "locLat"; "locLong";
   "types"; "tags"; "website"; "results"].

Definition updateEvent_validFields : list string :=
  ["mapName"; "locPlace"; "locRegions"; "locCountry"; "locLat"; "locLong";
   "types"; "tags"; "website"; "results"].

(** *** The controllers *)

Section Controllers.

(** [array.includes(s)] on an array of a document (its [linkedTo] or
    [includes]), looked up with a string: the array class belongs to the
    object-document mapper. *)
Variable docArrayIncludes : list ObjectID -> string -> bool.

(** The schema validators that [save] runs on a new event (country code,
    URLs, coordinate ranges, discipline labels). *)
Variable validates : StoredEvent -> bool.

(** The schema's [trim] setter on [name] and [orisId], as the mapper
    applies it when it builds a document ([new Event(...)]). *)
Variable trim : string -> string.

(** The same setter on a string in a query filter or in an update: the
    mapper applies it there in some of its releases and leaves the string
    as it is in others. *)
Variable trimInQuery : string -> string.

(** [currentRefs.filter(id => !newRefs.includes(id))] *)
Definition removedIds (current : list string) (new : RefList) : list idValue :=
  map IdStr
      (filter (fun id =>
                 negb (match new with
                       | PlainStrings l => includes l id
                       | DocumentArray l => docArrayIncludes l id
                       end))
              current).

(** events.js 26-103. [newId] is the [_id] the new document receives;
    the name and the ORIS id are stored as the setter leaves them; [save]
    fails when the schema validators refuse the document or a unique index
    ([_id], [orisId]) is violated. *)
Definition createEvent (newId : ObjectID) (user : ReqUser.t)
                       (body : EventBody.t) (s : Store.t)
  : Response StoredEvent * Store.t :=
  let creatorRole := ReqUser.role user in
  let creatorId := ReqUser._id user in
  if Role_eqb creatorRole RGuest then (Refused 401 GuestAccountsNotAllowed, s)
  else
    match truthy (EventBody.date body), truthy (EventBody.name body) with
    | Some eventDate, Some eventName =>
        if negb (matchesDate eventDate) then (Refused 400 DateFormatRequired, s)
        else
          match findEventByDateName eventDate (trimInQuery eventName) s with
          | Some existingEvent => (Refused 400 AlreadyExists, s)
          | None =>
              let clubIds :=
                option_map (validateClubIds s) (EventBody.organisedBy body) in
              let linkedEventIds :=
                option_map (validateLinkedEventIds s) (EventBody.linkedTo body) in
              let newEvent :=
                Event.mk newId creatorId eventDate (trim eventName)
                         (option_map trim (EventBody.orisId body))
                         (orEmpty clubIds) (orEmpty linkedEventIds)
                         (onlyValidFields createEvent_validFields
                                          (EventBody.other body))
                         [] true in
              if validates newEvent
                 && negb (orisIdTaken (Event.orisId newEvent) s)
                 && negb (existsb (fun e => ObjectID_eqb (Event._id e) newId)
                                  (Store.events s))
              then
                (Sent 200 newEvent,
                 Store.mk
                   (Store.events s ++ [newEvent])
                   (updateMany
                      (fun l => idIn (map IdObj (orEmpty linkedEventIds))
                                     (LinkedEvent._id l))
                      (addInclude newId)
                      (Store.linkedEvents s))
                   (Store.clubs s) (Store.users s))
              else (Refused 400 StoreError, s)
          end
    | _, _ => (Refused 400 MustProvideNameAndDate, s)
    end.

(** events.js 106-154 *)
Definition createEventLink (newId : ObjectID) (user : ReqUser.t)
                           (body : LinkBody.t) (s : Store.t)
  : Response LinkedEvent.t * Store.t :=
  let creatorRole := ReqUser.role user in
  if Role_eqb creatorRole RGuest then (Refused 401 GuestAccountsNotAllowed, s)
  else
    match truthy (LinkBody.displayName body) with
    | None => (Refused 400 MustProvideName, s)
    | Some eventLinkName =>
        match findLinkByName eventLinkName s with
        | Some existingLinkedEvent => (Refused 400 AlreadyExists, s)
        | None =>
            match option_map (validateEventIds s) (LinkBody.includes body) with
            | None => (Refused 400 NoValidEventIDsFound, s)
            | Some eventIds =>
                let newLinkedEvent :=
                  LinkedEvent.mk newId eventLinkName eventIds in
                if existsb (fun l => ObjectID_eqb (LinkedEvent._id l) newId)
                           (Store.linkedEvents s)
                then (Refused 400 StoreError, s)
                else
                  (Sent 200 newLinkedEvent,
                   Store.mk
                     (updateMany
                        (fun e => idIn (map IdObj eventIds) (Event._id e))
                        (addLinkedTo newId)
                        (Store.events s))
                     (Store.linkedEvents s ++ [newLinkedEvent])
                     (Store.clubs s) (Store.users s))
            end
        end
    end.

(** events.js 1196-1198 *)
Definition updateEvent_runnerIds (eventToUpdate : StoredEvent) : list ObjectID :=
  map Runner.user (Event.runners eventToUpdate).

(** events.js 1200-1202 *)
Definition updateEvent_currentLinkedEvents (eventToUpdate : StoredEvent)
  : list string :=
  map toString (Event.linkedTo eventToUpdate).

(** events.js 1204-1206 *)
Definition updateEvent_allowedToUpdate (user : ReqUser.t)
                                       (eventToUpdate : StoredEvent) : bool :=
  let requestorRole := ReqUser.role user in
  let requestorId := toString (ReqUser._id user) in
  Role_eqb requestorRole RAdmin
  || (Role_eqb requestorRole RStandard
      && String.eqb requestorId (toString (Event.owner eventToUpdate)))
  || (Role_eqb requestorRole RStandard
      && objectsInclude (updateEvent_runnerIds eventToUpdate) requestorId).

(** events.js 1253-1255 *)
Definition updateEvent_newLinkedEvents (linkedEventIds : option (list ObjectID))
                                       (eventToUpdate : StoredEvent) : RefList :=
  match linkedEventIds with
  | Some ids => PlainStrings (map toString ids)
  | None => DocumentArray (Event.linkedTo eventToUpdate)
  end.

(** events.js 1257-1258 *)
Definition updateEvent_addedLinkedEventIds
           (linkedEventIds : option (list ObjectID))
           (eventToUpdate : StoredEvent) : list idValue :=
  addedIds (updateEvent_currentLinkedEvents eventToUpdate)
           (updateEvent_newLinkedEvents linkedEventIds eventToUpdate).

(** events.js 1259-1260 *)
Definition updateEvent_removedLinkedEventIds
           (linkedEventIds : option (list ObjectID))
           (eventToUpdate : StoredEvent) : list idValue :=
  removedIds (updateEvent_currentLinkedEvents eventToUpdate)
             (updateEvent_newLinkedEvents linkedEventIds eventToUpdate).

(** events.js 1209-1262: [fieldsToUpdate], the name and the owner as the
    update casts them. *)
Definition updateEvent_fieldsToUpdate (user : ReqUser.t) (body : EventBody.t)
                                      (s : Store.t) : EventPatch.t :=
  let clubIds := option_map (validateClubIds s) (EventBody.organisedBy body) in
  let linkedEventIds :=
    option_map (validateLinkedEventIds s) (EventBody.linkedTo body) in
  let ownerId :=
    match truthy (EventBody.owner body) with
    | Some owner =>
        if Role_eqb (ReqUser.role user) RAdmin && validateUserId s owner
        then Some (castObjectID owner) else None
    | None => None
    end in
  EventPatch.mk (EventBody.date body)
                (option_map trimInQuery (EventBody.name body)) ownerId
                clubIds linkedEventIds
                (onlyValidFields updateEvent_validFields (EventBody.other body)).

(** events.js 1165-1306 *)
Definition updateEvent (user : ReqUser.t) (eventid : string)
                       (body : EventBody.t) (s : Store.t)
  : Response StoredEvent * Store.t :=
  let requestorRole := ReqUser.role user in
  if Role_eqb requestorRole RGuest then (Refused 401 GuestAccountsNotAllowed, s)
  else if negb (ObjectID_isValid eventid) then (Refused 400 InvalidID, s)
  else if match truthy (EventBody.date body) with
          | Some d => negb (matchesDate d)
          | None => false
          end
  then (Refused 400 DateFormatRequired, s)
  else if match EventBody.date body, EventBody.name body with
          | Some d, Some n =>
              match findEventByDateName d (trimInQuery n) s with
              | Some existingEvent =>
                  negb (String.eqb (toString (Event._id existingEvent)) eventid)
              | None => false
              end
          | _, _ => false
          end
  then (Refused 400 AlreadyExists, s)
  else
    match findEventById eventid s with
    | None => (Refused 404 CouldNotBeFound, s)
    | Some eventToUpdate =>
        if updateEvent_allowedToUpdate user eventToUpdate then
          let fieldsToUpdate := updateEvent_fieldsToUpdate user body s in
          let linkedEventIds := EventPatch.linkedTo fieldsToUpdate in
          let addedLinkedEventIds :=
            updateEvent_addedLinkedEventIds linkedEventIds eventToUpdate in
          let removedLinkedEventIds :=
            updateEvent_removedLinkedEventIds linkedEventIds eventToUpdate in
          if (numberOfFields fieldsToUpdate =? 0)%nat
          then (Refused 400 NoValidFieldsToUpdate, s)
          else
            let updatedEvent := applySet fieldsToUpdate eventToUpdate in
            (Sent 200 updatedEvent,
             Store.mk
               (updateFirst (hasEventId eventid) (applySet fieldsToUpdate)
                            (Store.events s))
               (updateMany
                  (fun l => idIn removedLinkedEventIds (LinkedEvent._id l))
                  (pullInclude (Event._id updatedEvent))
                  (updateMany
                     (fun l => idIn addedLinkedEventIds (LinkedEvent._id l))
                     (addInclude (Event._id updatedEvent))
                     (Store.linkedEvents s)))
               (Store.clubs s) (Store.users s))
        else (Refused 401 NotAllowed, s)
    end.

(** events.js 1410 *)
Definition updateEventLink_currentIncludes (linkedEventToUpdate : LinkedEvent.t)
  : list string :=
  map toString (LinkedEvent.includes linkedEventToUpdate).

(** events.js 1421-1423 *)
Definition updateEventLink_newIncludes (eventIds : option (list ObjectID))
                                       (linkedEventToUpdate : LinkedEvent.t)
  : RefList :=
  match eventIds with
  | Some ids => PlainStrings (map toString ids)
  | None => DocumentArray (LinkedEvent.includes linkedEventToUpdate)
  end.

(** events.js 1425 *)
Definition updateEventLink_addedEventIds (eventIds : option (list ObjectID))
           (linkedEventToUpdate : LinkedEvent.t) : list idValue :=
  addedIds (updateEventLink_currentIncludes linkedEventToUpdate)
           (updateEventLink_newIncludes eventIds linkedEventToUpdate).

(** events.js 1426 *)
Definition updateEventLink_removedEventIds (eventIds : option (list ObjectID))
           (linkedEventToUpdate : LinkedEvent.t) : list idValue :=
  removedIds (updateEventLink_currentIncludes linkedEventToUpdate)
             (updateEventLink_newIncludes eventIds linkedEventToUpdate).

(** events.js 1393-1453. The unique index on [displayName] refuses a name
    another link holds. *)
Definition updateEventLink (user : ReqUser.t) (eventlinkid : string)
                           (body : LinkBody.t) (s : Store.t)
  : Response LinkedEvent.t * Store.t :=
  let requestorRole := ReqUser.role user in
  if Role_eqb requestorRole RGuest then (Refused 401 GuestAccountsNotAllowed, s)
  else if negb (ObjectID_isValid eventlinkid) then (Refused 400 InvalidID, s)
  else
    match findLinkById eventlinkid s with
    | None => (Refused 404 CouldNotBeFound, s)
    | Some linkedEventToUpdate =>
        let newName :=
          match truthy (LinkBody.displayName body) with
          | Some n =>
              if String.eqb n (LinkedEvent.displayName linkedEventToUpdate)
              then None else Some n
          | None => None
          end in
        let eventIds :=
          option_map (validateEventIds s) (LinkBody.includes body) in
        let addedEventIds :=
          updateEventLink_addedEventIds eventIds linkedEventToUpdate in
        let removedEventIds :=
          updateEventLink_removedEventIds eventIds linkedEventToUpdate in
        let numberOfFieldsToUpdate :=
          (if isSome newName then 1 else 0) + (if isSome eventIds then 1 else 0) in
        if (numberOfFieldsToUpdate =? 0)%nat
        then (Refused 400 NoValidFieldsToUpdate, s)
        else if match newName with
                | Some n => isSome (findLinkByName n s)
                | None => false
                end
        then (Refused 400 StoreError, s)
        else
          let updatedLinkedEvent :=
            LinkedEvent.mk
              (LinkedEvent._id linkedEventToUpdate)
              (orElse newName (LinkedEvent.displayName linkedEventToUpdate))
              (orElse eventIds (LinkedEvent.includes linkedEventToUpdate)) in
          (Sent 200 updatedLinkedEvent,
           Store.mk
             (updateMany
                (fun e => idIn removedEventIds (Event._id e))
                (pullLinkedTo (LinkedEvent._id updatedLinkedEvent))
                (updateMany
                   (fun e => idIn addedEventIds (Event._id e))
                   (addLinkedTo (LinkedEvent._id updatedLinkedEvent))
                   (Store.events s)))
             (updateFirst (hasLinkId eventlinkid)
                          (fun _ => updatedLinkedEvent)
                          (Store.linkedEvents s))
             (Store.clubs s) (Store.users s))
    end.

(** events.js 1480-1481 *)
Definition deleteEvent_hasPermissionToDelete (user : ReqUser.t)
           (eventToDelete : StoredEvent) : bool :=
  let requestorRole := ReqUser.role user in
  let requestorId := toString (ReqUser._id user) in
  Role_eqb requestorRole RAdmin
  || (Role_eqb requestorRole RStandard
      && String.eqb requestorId (toString (Event.owner eventToDelete))).

(** events.js 1482-1485 *)
Definition deleteEvent_noOtherRunners (user : ReqUser.t)
           (eventToDelete : StoredEvent) : bool :=
  let requestorId := toString (ReqUser._id user) in
  (length (Event.runners eventToDelete) =? 0)%nat
  || (length (filter (fun runner =>
                        negb (String.eqb (toString (Runner.user runner))
                                         requestorId))
                     (Event.runners eventToDelete)) =? 0)%nat.

(** The unique index on [orisId] during an update of the event [eventid]:
    a document other than the one written holds the value. *)
Definition orisIdHeldElsewhere (eventid : string) (orisId : option string)
                               (s : Store.t) : bool :=
  orisIdTaken orisId
              (setEvents (filter (fun e => negb (hasEventId eventid e))
                                 (Store.events s))
                         s).

(** events.js 1464-1524. The update fails, and the [catch] answers 400,
    when the unique index refuses the tagged ORIS id. The tagged name and
    ORIS id are written as they are built: each starts with the stored
    value, which the setter has been through already in a release that
    applies it to updates, and ends in a digit of the tag, so that the
    setter has nothing to remove at either end. *)
Definition deleteEvent (now : DateTime.t) (user : ReqUser.t) (eventid : string)
                       (s : Store.t) : Response StoredEvent * Store.t :=
  if negb (ObjectID_isValid eventid) then (Refused 400 InvalidID, s)
  else
    match findEventById eventid s with
    | None => (Refused 404 CouldNotBeFound, s)
    | Some eventToDelete =>
        let allowedToDelete :=
          deleteEvent_hasPermissionToDelete user eventToDelete
          && deleteEvent_noOtherRunners user eventToDelete in
        if allowedToDelete then
          let newName := (Event.name eventToDelete ++ " " ++ deletedAt now)%string in
          let newOrisId :=
            match truthy (Event.orisId eventToDelete) with
            | Some orisId => Some (orisId ++ " " ++ deletedAt now)%string
            | None => None
            end in
          if orisIdHeldElsewhere eventid newOrisId s
          then (Refused 400 StoreError, s)
          else
            let deletedEvent := setDeleted newName newOrisId eventToDelete in
            let deletedEventId := Event._id deletedEvent in
            (Sent 200 deletedEvent,
             Store.mk
               (updateFirst (hasEventId eventid) (setDeleted newName newOrisId)
                            (Store.events s))
               (updateMany (fun _ => true) (pullInclude deletedEventId)
                           (Store.linkedEvents s))
               (Store.clubs s) (Store.users s))
        else (Refused 401 NotAllowed, s)
    end.

(** events.js 1531-1567 *)
Definition deleteEventLink (user : ReqUser.t) (eventlinkid : string)
                           (s : Store.t) : Response LinkedEvent.t * Store.t :=
  let requestorRole := ReqUser.role user in
  if negb (ObjectID_isValid eventlinkid) then (Refused 400 InvalidID, s)
  else if Role_eqb requestorRole RAdmin then
    match findLinkById eventlinkid s with
    | None => (Refused 404 CouldNotBeFound, s)
    | Some linkedEventToDelete =>
        (Sent 200 linkedEventToDelete,
         Store.mk
           (updateMany
              (fun e => idIn (map IdObj (LinkedEvent.includes linkedEventToDelete))
                             (Event._id e))
              (pullLinkedTo (LinkedEvent._id linkedEventToDelete))
              (Store.events s))
           (deleteFirst (hasLinkId eventlinkid) (Store.linkedEvents s))
           (Store.clubs s) (Store.users s))
    end
  else (Refused 401 NotAllowed, s).

End Controllers.

(** *** The read paths on the store *)

(** One entry of [eventSearchCriteria]. *)
Inductive Criterion : Type :=
| CActive (b : bool)
| CRegex (source : string)
| CId (id : string)
| CRunner (id : string)
| CRange (range : string).

Definition validStringFilters : list string :=
  ["date"; "name"; "orisId"; "mapName"; "locName"; "locPlace"; "locRegions";
   "locCountry"; "types"; "tags"; "website"; "results"].

Definition validIdFilters : list string :=
  ["owner"; "organisedBy"; "linkedTo"; "runners"].

(** [eventSearchCriteria[key] = c] *)
Fixpoint setCriterion (key : string) (c : Criterion)
                      (o : list (string * Criterion)) : list (string * Criterion) :=
  match o with
  | [] => [(key, c)]
  | (k, v) :: o' =>
      if String.eqb k key then (k, c) :: o'
      else (k, v) :: setCriterion key c o'
  end.

(** [req.query[key]] *)
Fixpoint queryValue (key : string) (query : list (string * string))
  : option string :=
  match query with
  | [] => None
  | (k, v) :: q' => if String.eqb k key then Some v else queryValue key q'
  end.

(** events.js 972-987: the body of the [forEach] over the query's keys. *)
Definition addFilter (eventSearchCriteria : list (string * Criterion))
                     (kv : string * string) : list (string * Criterion) :=
  let key := fst kv in
  let value := snd kv in
  let eventSearchCriteria :=
    if includes validStringFilters key
    then setCriterion key (CRegex value) eventSearchCriteria
    else eventSearchCriteria in
  if includes validIdFilters key then
    if ObjectID_isValid value then
      if String.eqb key "runners"
      then setCriterion "runners" (CRunner value) eventSearchCriteria
      else setCriterion key (CId value) eventSearchCriteria
    else eventSearchCriteria
  else eventSearchCriteria.

(** events.js 967-1001 *)
Definition eventSearchCriteria (query : list (string * string))
  : list (string * Criterion) :=
  let criteria := fold_left addFilter query [("active", CActive true)] in
  let criteria :=
    match truthy (queryValue "locLat" query) with
    | Some range => setCriterion "locLat" (CRange range) criteria
    | None => criteria
    end in
  match truthy (queryValue "locLong" query) with
  | Some range => setCriterion "locLong" (CRange range) criteria
  | None => criteria
  end.

Section ReadControllers.

(** [populate(...)]: the stored event with its references resolved against
    the user and club collections, as the detail view and as the listing
    view ask for it. *)
Variable populateDetail : StoredEvent -> DetailEvent.
Variable populateListed : StoredEvent -> ListedEvent.

(** [clubId.toString()] on a populated club document. *)
Variable documentToString : Club.t -> string.

(** Whether an event meets a criterion on a field other than [active]
    (regular expression, id, runner or range). *)
Variable fieldMatches : string -> Criterion -> StoredEvent -> bool.

(** [new RegExp(source)] succeeds. *)
Variable regExpValid : string -> bool.

Definition criterionHolds (e : StoredEvent) (kc : string * Criterion) : bool :=
  match snd kc with
  | CActive b => Bool.eqb (Event.active e) b
  | c => fieldMatches (fst kc) c e
  end.

(** [Event.find(criteria)] *)
Definition findEvents (criteria : list (string * Criterion)) (s : Store.t)
  : list StoredEvent :=
  filter (fun e => forallb (criterionHolds e) criteria) (Store.events s).

(** events.js 974-976: [new RegExp(req.query[key])] throws for one of the
    string filters. *)
Definition getEventList_throws (query : list (string * string)) : bool :=
  existsb (fun kv => includes validStringFilters (fst kv)
                     && negb (regExpValid (snd kv)))
          query.

(** events.js 957-1067. [None]: [new RegExp] throws while the criteria
    are built, before the promise chain and its [catch] exist, and the
    exception leaves the controller. *)
Definition getEventList (user : ReqUser.t) (query : list (string * string))
                        (s : Store.t)
  : option (Response (list EventSummary.t)) :=
  if getEventList_throws query then None
  else
    let events := findEvents (eventSearchCriteria query) s in
    Some (Sent 200 (GetEventList.eventsSummary user (map populateListed events))).

(** events.js 1098-1161 *)
Definition getEvent (user : ReqUser.t) (eventid : string) (s : Store.t)
  : Response DetailEvent :=
  if negb (ObjectID_isValid eventid) then Refused 400 InvalidID
  else
    match find (fun e => hasEventId eventid e && Bool.eqb (Event.active e) true)
               (Store.events s) with
    | None => Refused 404 NoEventFound
    | Some foundEvent =>
        Sent 200 (GetEvent.filteredEvent documentToString user
                                        (populateDetail foundEvent))
    end.

End ReadControllers.

(** ** [updateEventRunner]

    The positional [$set] stores the object built from the request in
    place of the matched array element, so the result need not fit the
    runner schema: this controller is modelled on documents as MongoDB
    holds them, a runner being an object. Schema defaults that the mapper
    may add when it casts the object are left out; none of them recovers a
    previous value. *)

Module RawEvent.
Record t : Type := mk {
  _id : ObjectID;
  (** every event-level field *)
  fields : list (string * json);
  runners : list (list (string * json))
}.
End RawEvent.

(** [runner.user.toString()]; [None] when the entry has no user. *)
Definition runnerUser (runner : list (string * json)) : option string :=
  match getField "user" runner with
  | Some (JStr hex) => Some hex
  | _ => None
  end.

Definition updateEventRunner_validFields : list string :=
  ["visibility"; "courseTitle"; "courseLength"; "courseClimb";
   "courseControls"; "fullResults"; "time"; "place"; "timeBehind";
   "fieldSize"; "distanceRun"; "tags"; "maps"].

Definition isUser (userid : string) (runner : list (string * json)) : bool :=
  match runnerUser runner with
  | Some hex => String.eqb hex userid
  | None => false
  end.

(** events.js 1371-1374: [{ $set: { 'runners.$': fieldsToUpdateRunner } }]
    on the event matched by [{ _id: eventid, 'runners.user': userid }]. *)
Definition setMatchedRunner (userid : string)
           (fieldsToUpdateRunner : list (string * json)) (e : RawEvent.t)
  : RawEvent.t :=
  RawEvent.mk (RawEvent._id e) (RawEvent.fields e)
              (updateFirst (isUser userid) (fun _ => fieldsToUpdateRunner)
                           (RawEvent.runners e)).

Definition hasRawId (id : string) (e : RawEvent.t) : bool :=
  namedBy id (RawEvent._id e).

(** events.js 1309-1390 *)
Definition updateEventRunner (user : ReqUser.t) (eventid userid : string)
           (body : list (string * json)) (events : list RawEvent.t)
  : Response RawEvent.t * list RawEvent.t :=
  let requestorRole := ReqUser.role user in
  let requestorId := toString (ReqUser._id user) in
  if Role_eqb requestorRole RGuest
  then (Refused 401 GuestAccountsNotAllowed, events)
  else if negb (ObjectID_isValid eventid) then (Refused 400 InvalidID, events)
  else if negb (ObjectID_isValid userid) then (Refused 400 InvalidID, events)
  else
    match find (hasRawId eventid) events with
    | None => (Refused 404 CouldNotBeFound, events)
    | Some eventToUpdateRunnerAt =>
        if negb (forallb (fun r => isSome (runnerUser r))
                         (RawEvent.runners eventToUpdateRunnerAt))
        then (Refused 400 StoreError, events)
        else
          let runnerIds :=
            filterTruthy (map runnerUser
                              (RawEvent.runners eventToUpdateRunnerAt)) in
          if negb (includes runnerIds userid)
          then (Refused 400 RunnerNotPresent, events)
          else
            let allowedToUpdate :=
              Role_eqb requestorRole RAdmin
              || (Role_eqb requestorRole RStandard
                  && String.eqb requestorId userid) in
            if allowedToUpdate then
              let fieldsToUpdateRunner :=
                onlyValidFields updateEventRunner_validFields body in
              let numberOfFieldsToUpdate := length fieldsToUpdateRunner in
              if (numberOfFieldsToUpdate =? 0)%nat
              then (Refused 400 NoValidFieldsToUpdate, events)
              else
                let updatedEvent :=
                  setMatchedRunner userid fieldsToUpdateRunner
                                   eventToUpdateRunnerAt in
                (Sent 200 updatedEvent,
                 updateFirst (hasRawId eventid)
                             (setMatchedRunner userid fieldsToUpdateRunner)
                             events)
            else (Refused 401 NotAllowed, events)
    end.

(** ** Sample documents for the write paths *)

(** The mapper's array lookup when it compares an ObjectID with a string by
    its hexadecimal form. *)
Definition includesByValue (l : list ObjectID) (s : string) : bool :=
  existsb (fun o => String.eqb (toString o) s) l.

Definition acceptAll (e : StoredEvent) : bool := true.

(** A setter that leaves every string as it is, and one that removes the
    blanks around it. *)
Definition noTrim (s : string) : string := s.

Fixpoint trimLeft (s : string) : string :=
  match s with
  | String " " s' => trimLeft s'
  | _ => s
  end.

Fixpoint trimRight (s : string) : string :=
  match s with
  | EmptyString => EmptyString
  | String c s' =>
      match trimRight s' with
      | EmptyString => if Ascii.eqb c " " then EmptyString else String c EmptyString
      | rest => String c rest
      end
  end.

Definition trimBlanks (s : string) : string := trimRight (trimLeft s).

(** Every source compiles to a regular expression. *)
Definition anyRegExp (source : string) : bool := true.

Definition daveId : ObjectID := OID "5c0000000000000000000da0".
Definition rootId : ObjectID := OID "5c00000000000000000000ad".

Definition bob : ReqUser.t := ReqUser.mk RStandard bobId [].
Definition carol : ReqUser.t := ReqUser.mk RStandard carolId [].
Definition dave : ReqUser.t := ReqUser.mk RGuest daveId [].
Definition root : ReqUser.t := ReqUser.mk RAdmin rootId [].

Definition noBody : EventBody.t :=
  EventBody.mk None None None None None None [].

Definition rename (n : string) : EventBody.t :=
  EventBody.mk None (Some n) None None None None [].

Definition newEventBody (date name : string) (linkedTo : option (list string))
  : EventBody.t :=
  EventBody.mk (Some date) (Some name) None None None linkedTo [].

Definition someTime : DateTime.t := DateTime.mk 2 10 2026 9 5.

(** An event owned by Dave, whose account is a guest account, without
    runners. *)
Definition davesEvent : StoredEvent :=
  Event.mk eventA daveId "2019-04-06" "Spring Cup" None [] [] [] [] true.

Definition davesStore : Store.t :=
  Store.mk [davesEvent] [] [] [aliceId; bobId; carolId; daveId; rootId].

(** An event owned by Bob in which Carol runs. *)
Definition carolAtBobs : StoredRunner := Runner.mk carolId VAll [] [] [].

Definition bobsEvent : StoredEvent :=
  Event.mk eventB bobId "2019-05-01" "May Day Sprint" (Some "4321") [] []
           [] [carolAtBobs] true.

Definition bobsStore : Store.t :=
  Store.mk [bobsEvent] [] [] [aliceId; bobId; carolId; daveId; rootId].

Definition emptyStore : Store.t :=
  Store.mk [] [] [] [aliceId; bobId; carolId; daveId; rootId].

(** ** Notions used to state the properties *)

(** The checks of [updateEvent] that precede the authorization test
    (events.js 1174-1189): a well-formed id, an acceptable date when one is
    supplied, and no other event with the requested date and name. *)
Definition updateEvent_passesValidation (trimInQuery : string -> string)
                                        (eventid : string) (body : EventBody.t)
                                        (s : Store.t) : bool :=
  ObjectID_isValid eventid
  && negb (match truthy (EventBody.date body) with
           | Some d => negb (matchesDate d)
           | None => false
           end)
  && negb (match EventBody.date body, EventBody.name body with
           | Some d, Some n =>
               match findEventByDateName d (trimInQuery n) s with
               | Some existingEvent =>
                   negb (String.eqb (toString (Event._id existingEvent)) eventid)
               | None => false
               end
           | _, _ => false
           end).

(** A response that is an authorization error. *)
Definition isAuthorizationError {A : Type} (r : Response A) : bool :=
  match r with
  | Refused 401 _ => true
  | _ => false
  end.

(** The requester as the claim about [updateEvent] describes the permitted
    ones: an admin, the owner, or the user of one of the runners. *)
Definition mayUpdateAsClaimed (user : ReqUser.t) (e : StoredEvent) : Prop :=
  ReqUser.role user = RAdmin
  \/ ReqUser._id user = Event.owner e
  \/ In (ReqUser._id user) (map Runner.user (Event.runners e)).



(** The ORIS id [deleteEvent] writes: the stored one with the deletion
    tag, or [null] when the event has none. *)
Definition taggedOrisId (now : DateTime.t) (e : StoredEvent) : option string :=
  match truthy (Event.orisId e) with
  | Some orisId => Some (orisId ++ " " ++ deletedAt now)%string
  | None => None
  end.

(** Some stored event has this date and this name. *)
Definition pairExists (date name : string) (s : Store.t) : Prop :=
  exists e, In e (Store.events s) /\ Event.date e = date /\ Event.name e = name.

(** Some active stored event has this date and this name. *)
Definition activePairExists (date name : string) (s : Store.t) : Prop :=
  exists e, In e (Store.events s) /\ Event.active e = true
            /\ Event.date e = date /\ Event.name e = name.

(** The store once root has deleted Dave's event. *)
Definition afterDelete : Store.t :=
  snd (deleteEvent someTime root "5c00000000000000000000e1" davesStore).

Definition populateBare {U : Type} (e : StoredEvent) : Event.t U :=
  Event.set_runners [] e.

Definition matchAny (key : string) (c : Criterion) (e : StoredEvent) : bool :=
  true.

(** Alice's entry at an event, with a map and a comment, and her request
    to change the course title. *)
Definition alicesEntry : list (string * json) :=
  [("user", JStr "5c0000000000000000000a11");
   ("visibility", JStr "club");
   ("courseTitle", JStr "H21");
   ("time", JStr "45:10");
   ("maps", JArr [JObj [("title", JStr "map"); ("course", JStr "a.jpg")]]);
   ("comments", JArr [JObj [("author", JStr "5c0000000000000000000b0b");
                            ("text", JStr "well run")]])].

Definition bobsEntry : list (string * json) :=
  [("user", JStr "5c0000000000000000000b0b"); ("visibility", JStr "all")].

Definition rawEvent : RawEvent.t :=
  RawEvent.mk eventA [("name", JStr "Spring Cup"); ("date", JStr "2019-04-06")]
              [bobsEntry; alicesEntry].

Definition titleChange : list (string * json) :=
  [("courseTitle", JStr "H35")].

(** Bob creates the Spring Cup, links it into the series "Easter", and
    deletes it. *)
Definition bobsCup : Store.t :=
  snd (createEvent acceptAll noTrim noTrim eventA bob
         (newEventBody "2019-04-06" "Spring Cup" None) emptyStore).

Definition linkedStore : Store.t :=
  snd (createEventLink linkL bob
         (LinkBody.mk (Some "Easter") (Some ["5c00000000000000000000e1"]))
         bobsCup).

Definition deletedStore : Store.t :=
  snd (deleteEvent someTime bob "5c00000000000000000000e1" linkedStore).

(** Two events of Bob's, the second created with the ORIS id the first
    gets once it is deleted at [someTime]. *)
Definition clashStore : Store.t :=
  snd (createEvent acceptAll noTrim noTrim eventB bob
         (EventBody.mk (Some "2019-05-01") (Some "May Day Sprint")
                       (Some "77 deleted:02112026@0905") None None None [])
         (snd (createEvent acceptAll noTrim noTrim eventA bob
                 (EventBody.mk (Some "2019-04-06") (Some "Spring Cup")
                               (Some "77") None None None [])
                 emptyStore))).

(** A mapper whose array lookup never finds a string among ObjectIDs. *)
Definition includesNever (l : list ObjectID) (s : string) : bool := false.

(** ** Sequences of operations on events and linked events *)

Inductive Operation : Type :=
| CreateEvent (newId : ObjectID) (user : ReqUser.t) (body : EventBody.t)
| CreateEventLink (newId : ObjectID) (user : ReqUser.t) (body : LinkBody.t)
| UpdateEvent (user : ReqUser.t) (eventid : string) (body : EventBody.t)
| UpdateEventLink (user : ReqUser.t) (eventlinkid : string) (body : LinkBody.t)
| DeleteEvent (now : DateTime.t) (user : ReqUser.t) (eventid : string)
| DeleteEventLink (user : ReqUser.t) (eventlinkid : string).

Section Runs.

Variable docArrayIncludes : list ObjectID -> string -> bool.
Variable validates : StoredEvent -> bool.
Variable trim : string -> string.
Variable trimInQuery : string -> string.

(** The store once the request has been answered (unchanged when the
    request is refused). *)
Definition perform (s : Store.t) (op : Operation) : Store.t :=
  match op with
  | CreateEvent newId user body =>
      snd (createEvent validates trim trimInQuery newId user body s)
  | CreateEventLink newId user body => snd (createEventLink newId user body s)
  | UpdateEvent user eventid body =>
      snd (updateEvent docArrayIncludes trimInQuery user eventid body s)
  | UpdateEventLink user eventlinkid body =>
      snd (updateEventLink docArrayIncludes user eventlinkid body s)
  | DeleteEvent now user eventid => snd (deleteEvent now user eventid s)
  | DeleteEventLink user eventlinkid => snd (deleteEventLink user eventlinkid s)
  end.

Definition run (ops : list Operation) (s : Store.t) : Store.t :=
  fold_left perform ops s.

End Runs.

(** An update that supplies its reference list ([linkedTo] for an event,
    [includes] for a linked event); creations and deletions count too. *)
Definition suppliesReferences (op : Operation) : bool :=
  match op with
  | UpdateEvent _ _ body => isSome (EventBody.linkedTo body)
  | UpdateEventLink _ _ body => isSome (LinkBody.includes body)
  | _ => true
  end.

(** The invariant as the specification states it. *)
Definition symmetric (s : Store.t) : Prop :=
  forall e l, In e (Store.events s) -> In l (Store.linkedEvents s) ->
    (In (Event._id e) (LinkedEvent.includes l)
     <-> In (LinkedEvent._id l) (Event.linkedTo e)).

Definition noDangling (s : Store.t) : Prop :=
  (forall e i, In e (Store.events s) -> In i (Event.linkedTo e) ->
     exists l, In l (Store.linkedEvents s) /\ LinkedEvent._id l = i)
  /\ (forall l i, In l (Store.linkedEvents s) -> In i (LinkedEvent.includes l) ->
        exists e, In e (Store.events s) /\ Event._id e = i).

Definition noDuplicates (s : Store.t) : Prop :=
  (forall e, In e (Store.events s) -> NoDup (Event.linkedTo e))
  /\ (forall l, In l (Store.linkedEvents s) -> NoDup (LinkedEvent.includes l)).

Definition consistentAsClaimed (s : Store.t) : Prop :=
  symmetric s /\ noDangling s /\ noDuplicates s.

(** The invariant the controllers keep: it speaks of active events. *)
Definition uniqueIds (s : Store.t) : Prop :=
  NoDup (map Event._id (Store.events s))
  /\ NoDup (map LinkedEvent._id (Store.linkedEvents s)).

Definition activeSymmetric (s : Store.t) : Prop :=
  forall e l, In e (Store.events s) -> Event.active e = true ->
    In l (Store.linkedEvents s) ->
    (In (Event._id e) (LinkedEvent.includes l)
     <-> In (LinkedEvent._id l) (Event.linkedTo e)).

Definition activeLinksResolve (s : Store.t) : Prop :=
  forall e i, In e (Store.events s) -> Event.active e = true ->
    In i (Event.linkedTo e) ->
    exists l, In l (Store.linkedEvents s) /\ LinkedEvent._id l = i.

Definition includesResolve (s : Store.t) : Prop :=
  forall l i, In l (Store.linkedEvents s) -> In i (LinkedEvent.includes l) ->
    exists e, In e (Store.events s) /\ Event._id e = i.

Definition consistent (s : Store.t) : Prop :=
  uniqueIds s /\ activeSymmetric s /\ activeLinksResolve s /\ includesResolve s.

(** Bob's season: the Spring Cup, the series "Easter" made of it, the May
    Day Sprint, the series changed to hold the sprint only, and the sprint
    deleted. *)
Definition bobsSeason : list Operation :=
  [CreateEvent eventA bob (newEventBody "2019-04-06" "Spring Cup" None);
   CreateEventLink linkL bob
     (LinkBody.mk (Some "Easter") (Some ["5c00000000000000000000e1"]));
   CreateEvent eventB bob (newEventBody "2019-05-01" "May Day Sprint" None);
   UpdateEventLink bob "5c00000000000000000000f1"
     (LinkBody.mk None (Some ["5c00000000000000000000e2"]));
   DeleteEvent someTime bob "5c00000000000000000000e2"].

(** The Spring Cup created, linked into "Easter" and deleted. *)
Definition cupLinkedAndDeleted : list Operation :=
  [CreateEvent eventA bob (newEventBody "2019-04-06" "Spring Cup" None);
   CreateEventLink linkL bob
     (LinkBody.mk (Some "Easter") (Some ["5c00000000000000000000e1"]));
   DeleteEvent someTime bob "5c00000000000000000000e1"].

(** An empty series, then an event created with the series named twice. *)
Definition seriesNamedTwice : list Operation :=
  [CreateEventLink linkL bob (LinkBody.mk (Some "Easter") (Some []));
   CreateEvent eventA bob
     (newEventBody "2019-04-06" "Spring Cup"
        (Some ["5c00000000000000000000f1"; "5c00000000000000000000f1"]))].

(** * The other controllers of [events.js]

    [addEventRunner], the map controllers, [getEventLinks] and the
    request-independent steps of the ORIS controllers. The calls to the
    ORIS service and the handling of the uploaded image file are outside
    this development, and so are the timestamps ([createdAt], [updatedAt])
    that the mapper maintains on every document. *)

(** [res.status(code).send(...)], each controller with the type of its own
    error messages. *)
Inductive Reply (A E : Type) : Type :=
| Replied (status : nat) (body : A)
| Failed (status : nat) (error : E).
Arguments Replied {A E}.
Arguments Failed {A E}.

(** JavaScript truthiness of a JSON value. *)
Definition jsTruthy (j : json) : bool :=
  match j with
  | JNull => false
  | JBool b => b
  | JNum z => negb (z =? 0)%Z
  | JStr s => negb (String.eqb s "")
  | JArr _ => true
  | JObj _ => true
  end.

(** ** [addEventRunner]

    Modelled, like [updateEventRunner], on documents as MongoDB holds them.
    The update goes through the model, which casts the object built from
    the request to the runner sub-schema before [$addToSet] appends it: the
    user becomes an ObjectID, whose string form is the requester's id; the
    other paths are cast and trimmed, a key the schema lacks ([distanceRun])
    is dropped, and the entry receives the schema's defaults and an [_id]
    of its own, so that no stored entry equals it. A value that cannot be
    cast to the type of its path fails the update, which the [catch]
    answers. *)

Inductive AddRunnerError : Type :=
| AddRunner_GuestAccountsNotAllowed
| AddRunner_InvalidID
| AddRunner_EventCouldNotBeFound
| AddRunner_RunnerAlreadyPresent
| AddRunner_Thrown
| AddRunner_StoreError.

Definition addEventRunner_validFields : list string :=
  ["visibility"; "courseTitle"; "courseLength"; "courseClimb";
   "courseControls"; "fullResults"; "time"; "place"; "timeBehind";
   "fieldSize"; "distanceRun"; "tags"].

(** events.js 181-201: [{ user: requestorId }] and the valid keys of the
    body. *)
Definition addEventRunner_fieldsToCreateRunner
           (requestorId : string) (body : list (string * json))
  : list (string * json) :=
  ("user", JStr requestorId) :: onlyValidFields addEventRunner_validFields body.

Module AddEventRunner.

Section Reply.

(** [clubId.toString()] on a populated club document, as in [getEvent]. *)
Variable documentToString : Club.t -> string.

(** events.js 217-232: the third copy of the visibility test. The
    requester's id and clubs are read without regard to the role. *)
Definition canSee (u : ReqUser.t) (runner : DetailRunner) : bool :=
  let requestorRole := ReqUser.role u in
  let requestorId := toString (ReqUser._id u) in
  let requestorClubs :=
    map (fun club => toString (Club._id club)) (ReqUser.memberOf u) in
  let canSee := false in
  let canSee := if Role_eqb requestorRole RAdmin then true else canSee in
  let canSee :=
    if Visibility_eqb (Runner.visibility runner) VPublic then true else canSee in
  if Role_eqb requestorRole RStandard || Role_eqb requestorRole RGuest then
    let canSee :=
      if Visibility_eqb (Runner.visibility runner) VAll then true else canSee in
    let canSee :=
      if String.eqb requestorId (toString (User._id (Runner.user runner)))
      then true else canSee in
    if Visibility_eqb (Runner.visibility runner) VClub then
      let commonClubs :=
        filter (fun clubId => includes requestorClubs (documentToString clubId))
               (User.memberOf (Runner.user runner)) in
      if (0 <? length commonClubs)%nat then true else canSee
    else canSee
  else canSee.

(** events.js 214-236 *)
Definition filteredEvent (u : ReqUser.t) (updatedEvent : DetailEvent)
  : DetailEvent :=
  if (0 <? length (Event.runners updatedEvent))%nat
  then Event.set_runners
         (filterTruthy
            (map (fun runner => if canSee u runner then Some runner else None)
                 (Event.runners updatedEvent)))
         updatedEvent
  else updatedEvent.

End Reply.

End AddEventRunner.

Section AddEventRunnerController.

Variable documentToString : Club.t -> string.

(** [populate(...)] of the updated document (events.js 204-213). *)
Variable populate : RawEvent.t -> DetailEvent.

(** The paths other than [user] of the entry that the cast to the runner
    sub-schema makes of an object; none when a value cannot be cast to the
    type of its path. *)
Variable castRunnerDetails
  : list (string * json) -> option (list (string * json)).

(** The entry the model makes of [fieldsToCreateRunner]. *)
Definition castRunner (fieldsToCreateRunner : list (string * json))
  : option (list (string * json)) :=
  match castRunnerDetails fieldsToCreateRunner with
  | Some details =>
      Some match getField "user" fieldsToCreateRunner with
           | Some user => ("user", user) :: details
           | None => details
           end
  | None => None
  end.

(** [{ $addToSet: { runners: fieldsToCreateRunner } }], once the object has
    been cast to the entry [runner]. *)
Definition addRunner (runner : list (string * json)) (e : RawEvent.t)
  : RawEvent.t :=
  RawEvent.mk (RawEvent._id e) (RawEvent.fields e)
              (RawEvent.runners e ++ [runner]).

(** events.js 157-253. A stored entry without a user makes
    [runner.user.toString()] throw, which the outer [catch] answers. *)
Definition addEventRunner (user : ReqUser.t) (eventid : string)
                          (body : list (string * json))
                          (events : list RawEvent.t)
  : Reply DetailEvent AddRunnerError * list RawEvent.t :=
  let requestorRole := ReqUser.role user in
  let requestorId := toString (ReqUser._id user) in
  if Role_eqb requestorRole RGuest
  then (Failed 401 AddRunner_GuestAccountsNotAllowed, events)
  else if negb (ObjectID_isValid eventid)
  then (Failed 400 AddRunner_InvalidID, events)
  else
    match find (hasRawId eventid) events with
    | None => (Failed 404 AddRunner_EventCouldNotBeFound, events)
    | Some eventToAddRunnerTo =>
        if negb (forallb (fun r => isSome (runnerUser r))
                         (RawEvent.runners eventToAddRunnerTo))
        then (Failed 400 AddRunner_Thrown, events)
        else
          let runnerIds :=
            filterTruthy (map runnerUser
                              (RawEvent.runners eventToAddRunnerTo)) in
          if includes runnerIds requestorId
          then (Failed 400 AddRunner_RunnerAlreadyPresent, events)
          else
            let fieldsToCreateRunner :=
              addEventRunner_fieldsToCreateRunner requestorId body in
            match castRunner fieldsToCreateRunner with
            | None => (Failed 400 AddRunner_StoreError, events)
            | Some runner =>
                let updatedEvent := addRunner runner eventToAddRunnerTo in
                (Replied 200
                   (AddEventRunner.filteredEvent documentToString user
                                                 (populate updatedEvent)),
                 updateFirst (hasRawId eventid) (addRunner runner) events)
            end
    end.

End AddEventRunnerController.

(** ** The map controllers *)

(** [:maptype(course|route)] of the two map routes. *)
Inductive MapType : Type := Course | Route.

Inductive MapError : Type :=
| NoMapImageFileAttached
| NotAllowedToUploadMap
| NotAllowedToDeleteMap
| Map_InvalidID
| MapDoesNotExist
| RunnerDoesNotExist
| Map_Thrown.

(** What a middleware does: call [next()] or answer. *)
Inductive Middleware (E : Type) : Type :=
| Next
| Halt (status : nat) (error : E).
Arguments Next {E}.
Arguments Halt {E}.

(** events.js 455-463 *)
Definition validateMapUploadPermission (user : ReqUser.t) (userid : string)
  : Middleware MapError :=
  let allowedToUploadMap :=
    Role_eqb (ReqUser.role user) RAdmin
    || (Role_eqb (ReqUser.role user) RStandard
        && String.eqb (toString (ReqUser._id user)) userid) in
  if negb allowedToUploadMap then Halt 401 NotAllowedToUploadMap else Next.

(** [maptitle || 'map'] *)
Definition titleOf (maptitle : option string) : string :=
  orElse (truthy maptitle) "map".

(** [runner.user.toString() === userid] *)
Definition isRunner (userid : string) (runner : StoredRunner) : bool :=
  String.eqb (toString (Runner.user runner)) userid.

(** [newMap.title === title] *)
Definition hasTitle (title : string) (map : MapRecord.t) : bool :=
  String.eqb (MapRecord.title map) title.

(** [newMap[maptype] = location] *)
Definition setPath (maptype : MapType) (location : string) (map : MapRecord.t)
  : MapRecord.t :=
  match maptype with
  | Course =>
      MapRecord.mk (MapRecord.title map) (Some location) (MapRecord.route map)
                   (MapRecord.overlay map) (MapRecord.isGeocoded map)
                   (MapRecord.geo map)
  | Route =>
      MapRecord.mk (MapRecord.title map) (MapRecord.course map) (Some location)
                   (MapRecord.overlay map) (MapRecord.isGeocoded map)
                   (MapRecord.geo map)
  end.

(** [map[maptype]] *)
Definition pathOf (maptype : MapType) (map : MapRecord.t) : option string :=
  match maptype with
  | Course => MapRecord.course map
  | Route => MapRecord.route map
  end.

(** [newMap.isGeocoded = b; newMap.geo = g] *)
Definition setGeo (b : bool) (g : json) (map : MapRecord.t) : MapRecord.t :=
  MapRecord.mk (MapRecord.title map) (MapRecord.course map)
               (MapRecord.route map) (MapRecord.overlay map) b (Some g).

Definition setMaps (maps : list MapRecord.t) (runner : StoredRunner)
  : StoredRunner :=
  Runner.mk (Runner.user runner) (Runner.visibility runner)
            (Runner.details runner) maps (Runner.comments runner).

Definition setEventFields (fields : list (string * json)) (e : StoredEvent)
  : StoredEvent :=
  Event.mk (Event._id e) (Event.owner e) (Event.date e) (Event.name e)
           (Event.orisId e) (Event.organisedBy e) (Event.linkedTo e) fields
           (Event.runners e) (Event.active e).

(** The entries of an array all of whose entries are runners; [None] when
    one of them is not. *)
Fixpoint allRunners {A : Type} (l : list (option A)) : option (list A) :=
  match l with
  | [] => Some []
  | Some x :: l' => option_map (cons x) (allRunners l')
  | None :: _ => None
  end.

(** The decoder's result, by the fields [postMap] reads and the shape the
    event schema gives [geo]. *)
Module LatLong.
Record t : Type := mk {
  lat : json;
  long : json
}.
End LatLong.

Module Corners.
Record t : Type := mk {
  sw : LatLong.t;
  nw : LatLong.t;
  ne : LatLong.t;
  se : LatLong.t
}.
End Corners.

Module QRData.
Record t : Type := mk {
  isGeocoded : bool;
  mapCentre : LatLong.t;
  mapCorners : Corners.t;
  imageCorners : Corners.t;
  locationSizePixels : json
}.
End QRData.

Definition latLongJson (p : LatLong.t) : json :=
  JObj [("lat", LatLong.lat p); ("long", LatLong.long p)].

Definition cornersJson (c : Corners.t) : json :=
  JObj [("sw", latLongJson (Corners.sw c)); ("nw", latLongJson (Corners.nw c));
        ("ne", latLongJson (Corners.ne c)); ("se", latLongJson (Corners.se c))].

(** events.js 602-609: the [geo] object of a geocoded map. *)
Definition geoOf (qRData : QRData.t) (trackCoords trackDistanceK : json) : json :=
  JObj [("mapCentre", latLongJson (QRData.mapCentre qRData));
        ("mapCorners", cornersJson (QRData.mapCorners qRData));
        ("imageCorners", cornersJson (QRData.imageCorners qRData));
        ("locationSizePixels", QRData.locationSizePixels qRData);
        ("track", trackCoords);
        ("distanceRun", trackDistanceK)].

(** [!x || x.length === 0] on a field of the event. *)
Definition isEmptyCorner (x : option json) : bool :=
  match x with
  | None => true
  | Some j =>
      negb (jsTruthy j)
      || match j with
         | JArr [] => true
         | _ => false
         end
  end.

(** [!x || x === ''] on a field of the event. *)
Definition isEmptyCoordinate (x : option json) : bool :=
  match x with
  | None => true
  | Some j =>
      negb (jsTruthy j)
      || match j with
         | JStr s => String.eqb s ""
         | _ => false
         end
  end.

(** events.js 664-677: the event's own location, filled from a geocoded
    map where the event has none. *)
Definition postMap_location (qRData : QRData.t) (fields : list (string * json))
  : list (string * json) :=
  if QRData.isGeocoded qRData then
    let sw := Corners.sw (QRData.mapCorners qRData) in
    let ne := Corners.ne (QRData.mapCorners qRData) in
    let centre := QRData.mapCentre qRData in
    let newFields := fields in
    let newFields :=
      if isEmptyCorner (getField "locCornerSW" fields)
      then setField "locCornerSW" (JArr [LatLong.lat sw; LatLong.long sw])
                    newFields
      else newFields in
    let newFields :=
      if isEmptyCorner (getField "locCornerNE" fields)
      then setField "locCornerNE" (JArr [LatLong.lat ne; LatLong.long ne])
                    newFields
      else newFields in
    let newFields :=
      if isEmptyCoordinate (getField "locLat" fields)
      then setField "locLat" (LatLong.lat centre) newFields
      else newFields in
    if isEmptyCoordinate (getField "locLong" fields)
    then setField "locLong" (LatLong.long centre) newFields
    else newFields
  else fields.

Section MapControllers.

(** The schema's [trim] setter on [title], [course] and [route]. *)
Variable trim : string -> string.

(** The validators that [save] runs on the changed document. *)
Variable validates : StoredEvent -> bool.

(** [path.join('images', 'maps', eventid, req.file.path.split('/').pop())] *)
Variable newFileLocationOf : string -> string -> string.

(** Once [deleteMap] has answered that the map does not exist, the array
    it goes on to save holds the response object in place of a runner:
    what becomes of the store then is left to the framework and the
    mapper. *)
Variable afterMapDoesNotExist :
  Store.t -> StoredEvent -> list (option StoredRunner) -> Store.t.

(** events.js 594-611 *)
Definition postMap_newMap (maptype : MapType) (title location : string)
           (qRData : QRData.t) (geo : json) (map : MapRecord.t)
  : MapRecord.t :=
  if hasTitle title map then
    let newMap := setPath maptype (trim location) map in
    if QRData.isGeocoded qRData then setGeo true geo newMap else newMap
  else map.

(** events.js 615-630. The schema gives a new map [isGeocoded: false]. *)
Definition postMap_mapToAdd (maptype : MapType) (title location : string)
           (qRData : QRData.t) (geo : json) : MapRecord.t :=
  let mapToAdd :=
    setPath maptype (trim location)
            (MapRecord.mk (trim title) None None None false None) in
  if QRData.isGeocoded qRData then setGeo true geo mapToAdd else mapToAdd.

(** events.js 590-634: the callback of [foundEvent.runners.map]. *)
Definition postMap_newRunner (userid : string) (maptype : MapType)
           (title location : string) (qRData : QRData.t) (geo : json)
           (runner : StoredRunner) : StoredRunner :=
  if isRunner userid runner then
    let mapExists := existsb (hasTitle title) (Runner.maps runner) in
    let maps :=
      map (postMap_newMap maptype title location qRData geo)
          (Runner.maps runner) in
    if negb mapExists
    then setMaps (maps ++ [postMap_mapToAdd maptype title location qRData geo])
                 runner
    else setMaps maps runner
  else runner.

(** events.js 636-656. The mapper casts the user id to an ObjectID, wraps
    the single map object into an array and gives the entry the schema's
    default visibility ['all']. *)
Definition postMap_runnerToAdd (userid : string) (maptype : MapType)
           (title location : string) (qRData : QRData.t) (geo : json)
  : StoredRunner :=
  Runner.mk (castObjectID userid) VAll []
            [postMap_mapToAdd maptype title location qRData geo] [].

(** events.js 464-689, the image file taken as moved to its new location
    and its thumbnail and extract as written. [file] is [req.file.path];
    [trackCoords] and [trackDistanceK] are the values computed at 521-588. *)
Definition postMap (file : option string) (eventid userid : string)
           (maptype : MapType) (maptitle : option string) (qRData : QRData.t)
           (trackCoords trackDistanceK : json) (s : Store.t)
  : Reply StoredEvent MapError * Store.t :=
  match file with
  | None => (Failed 400 NoMapImageFileAttached, s)
  | Some filePath =>
      let title := titleOf maptitle in
      if negb (ObjectID_isValid eventid) || negb (ObjectID_isValid userid)
      then (Failed 400 Map_InvalidID, s)
      else
        let newFileLocation := newFileLocationOf eventid filePath in
        let geo := geoOf qRData trackCoords trackDistanceK in
        match findEventById eventid s with
        | None => (Failed 400 Map_Thrown, s)
        | Some foundEvent =>
            let runnerExists :=
              existsb (isRunner userid) (Event.runners foundEvent) in
            let newRunners :=
              map (postMap_newRunner userid maptype title newFileLocation
                                     qRData geo)
                  (Event.runners foundEvent) in
            let newRunners :=
              if negb runnerExists
              then newRunners
                   ++ [postMap_runnerToAdd userid maptype title newFileLocation
                                           qRData geo]
              else newRunners in
            let newEvent :=
              setEventFields
                (postMap_location qRData (Event.fields foundEvent))
                (Event.set_runners newRunners foundEvent) in
            if validates newEvent
            then (Replied 200 newEvent,
                  setEvents (updateFirst (hasEventId eventid)
                                         (fun _ => newEvent) (Store.events s))
                            s)
            else (Failed 400 Map_Thrown, s)
        end
  end.

(** events.js 695-696 *)
Definition deleteMap_allowedToDeleteMap (user : ReqUser.t) (userid : string)
  : bool :=
  Role_eqb (ReqUser.role user) RAdmin
  || (Role_eqb (ReqUser.role user) RStandard
      && String.eqb (toString (ReqUser._id user)) userid).

(** events.js 722-731 *)
Definition deleteMap_newMap (maptype : MapType) (title : string)
                            (map : MapRecord.t) : MapRecord.t :=
  if hasTitle title map
  then setGeo false (JObj []) (setPath maptype "" map)
  else map.

(** events.js 717-738: the callback of [foundEvent.runners.map]; [None] is
    the response object, returned in place of the runner when the runner
    has no map of that title. *)
Definition deleteMap_newRunner (userid : string) (maptype : MapType)
           (title : string) (runner : StoredRunner) : option StoredRunner :=
  if isRunner userid runner then
    let mapExists := existsb (hasTitle title) (Runner.maps runner) in
    if negb mapExists then None
    else Some (setMaps (map (deleteMap_newMap maptype title)
                            (Runner.maps runner))
                       runner)
  else Some runner.

(** events.js 693-753. The first answer sent is the response. *)
Definition deleteMap (user : ReqUser.t) (eventid userid : string)
           (maptype : MapType) (maptitle : option string) (s : Store.t)
  : Reply StoredEvent MapError * Store.t :=
  if negb (deleteMap_allowedToDeleteMap user userid)
  then (Failed 401 NotAllowedToDeleteMap, s)
  else
    let title := titleOf maptitle in
    if negb (ObjectID_isValid eventid) || negb (ObjectID_isValid userid)
    then (Failed 400 Map_InvalidID, s)
    else
      match findEventById eventid s with
      | None => (Failed 400 Map_Thrown, s)
      | Some foundEvent =>
          let runnerExists :=
            existsb (isRunner userid) (Event.runners foundEvent) in
          let newRunners :=
            map (deleteMap_newRunner userid maptype title)
                (Event.runners foundEvent) in
          match allRunners newRunners with
          | None =>
              (Failed 400 MapDoesNotExist,
               afterMapDoesNotExist s foundEvent newRunners)
          | Some runners =>
              if negb runnerExists then (Failed 400 RunnerDoesNotExist, s)
              else
                let newEvent := Event.set_runners runners foundEvent in
                if validates newEvent
                then (Replied 200 newEvent,
                      setEvents (updateFirst (hasEventId eventid)
                                             (fun _ => newEvent)
                                             (Store.events s))
                                s)
                else (Failed 400 Map_Thrown, s)
          end
      end.

End MapControllers.

(** ** [getEventLinks] *)

Module LinkCriteria.
Record t : Type := mk {
  (** [{ $regex: new RegExp(displayName) }] *)
  displayName : option string;
  (** [Some (Some id)] for an id, [Some None] for [null] *)
  includes : option (option string)
}.
End LinkCriteria.

(** events.js 1072-1083 *)
Definition eventLinkSearchCriteria (query : list (string * string))
  : LinkCriteria.t :=
  LinkCriteria.mk
    (truthy (queryValue "displayName" query))
    (match truthy (queryValue "includes" query) with
     | Some id => if ObjectID_isValid id then Some (Some id) else Some None
     | None => None
     end).

Section GetEventLinks.

(** [new RegExp(source)] succeeds. *)
Variable regExpValid : string -> bool.

(** The regular expression of that source finds a match in the string. *)
Variable regExpTest : string -> string -> bool.

(** [populate('includes', '_id name date')] and [select('-__v')] *)
Variable P : Type.
Variable populateIncludes : Store.t -> LinkedEvent.t -> P.

(** [LinkedEvent.find(criteria)]: an [includes] criterion with an id is
    met by the links whose array holds the ObjectID the string is cast to;
    [includes: null] is met by a document without the field, which the
    schema's array never is. *)
Definition linkMeets (criteria : LinkCriteria.t) (l : LinkedEvent.t) : bool :=
  match LinkCriteria.displayName criteria with
  | Some source => regExpTest source (LinkedEvent.displayName l)
  | None => true
  end
  && match LinkCriteria.includes criteria with
     | Some (Some id) => existsb (namedBy id) (LinkedEvent.includes l)
     | Some None => false
     | None => true
     end.

(** events.js 1070-1096. [None]: [new RegExp] throws and the exception
    leaves the controller. *)
Definition getEventLinks (query : list (string * string)) (s : Store.t)
  : option (Reply (list P) string) :=
  let criteria := eventLinkSearchCriteria query in
  if match LinkCriteria.displayName criteria with
     | Some source => negb (regExpValid source)
     | None => false
     end
  then None
  else
    Some (Replied 200
            (map (populateIncludes s)
                 (filter (linkMeets criteria) (Store.linkedEvents s)))).

End GetEventLinks.

(** [populate('includes', '_id name date')]: each id of [includes] gives
    way to the [_id], [name] and [date] of the event it names. The call
    carries no condition on [active]. *)
Module IncludedEvent.
Record t : Type := mk {
  _id : ObjectID;
  name : string;
  date : string
}.
End IncludedEvent.

Module PopulatedLink.
Record t : Type := mk {
  _id : ObjectID;
  displayName : string;
  includes : list IncludedEvent.t
}.
End PopulatedLink.

Definition includedEvent (s : Store.t) (id : ObjectID)
  : option IncludedEvent.t :=
  option_map (fun e => IncludedEvent.mk (Event._id e) (Event.name e)
                                        (Event.date e))
             (find (fun e => ObjectID_eqb (Event._id e) id) (Store.events s)).

Definition includesPopulated (s : Store.t) (l : LinkedEvent.t)
  : PopulatedLink.t :=
  PopulatedLink.mk (LinkedEvent._id l) (LinkedEvent.displayName l)
                   (filterTruthy (map (includedEvent s)
                                      (LinkedEvent.includes l))).

(** ** [orisCreateEvent]: from the ORIS record to the request body *)

(** The result of [object[key]]: an own property, a property inherited
    from [Object.prototype], or [undefined]. *)
Inductive Property : Type :=
| Own (value : string)
| Inherited (key : string)
| Undefined.

(** The names [Object.prototype] defines. *)
Definition objectPrototypeKeys : list string :=
  ["constructor"; "__defineGetter__"; "__defineSetter__"; "hasOwnProperty";
   "__lookupGetter__"; "__lookupSetter__"; "isPrototypeOf";
   "propertyIsEnumerable"; "toString"; "valueOf"; "__proto__";
   "toLocaleString"].

Fixpoint assoc (key : string) (table : list (string * string)) : option string :=
  match table with
  | [] => None
  | (k, v) :: table' => if String.eqb k key then Some v else assoc key table'
  end.

(** events.js 776-788 *)
Definition disciplineAndSportToType_table : list (string * string) :=
  [("SP", "Sprint"); ("KT", "Middle"); ("KL", "Long"); ("DT", "Ultra-Long");
   ("ST", "Relay"); ("NOB", "Night"); ("TeO", "TempO"); ("MS", "Mass start");
   ("MTBO", "MTBO"); ("LOB", "SkiO"); ("TRAIL", "TrailO")].

(** [disciplineAndSportToType[key]] *)
Definition disciplineAndSportToType (key : string) : Property :=
  match assoc key disciplineAndSportToType_table with
  | Some label => Own label
  | None => if includes objectPrototypeKeys key then Inherited key else Undefined
  end.

Definition propertyTruthy (p : Property) : bool :=
  match p with
  | Own value => negb (String.eqb value "")
  | Inherited _ => true
  | Undefined => false
  end.

(** events.js 789-793 *)
Definition typesToCreate (disciplineShortName sportNameCZ : string)
  : list Property :=
  let disciplineType := disciplineAndSportToType disciplineShortName in
  let sportType := disciplineAndSportToType sportNameCZ in
  let typesToCreate := [] in
  let typesToCreate :=
    if propertyTruthy disciplineType
    then typesToCreate ++ [disciplineType] else typesToCreate in
  if propertyTruthy sportType
  then typesToCreate ++ [disciplineType] else typesToCreate.

(** An entry of [eventData.Documents]. *)
Module OrisDocument.
Record t : Type := mk {
  SourceType_ID : string;
  Url : string
}.
End OrisDocument.

(** events.js 805-806 and 810-818: [req.body.results]. *)
Definition orisCreateEvent_results (ID : string)
           (Documents : list (string * OrisDocument.t)) : string :=
  let results := ("https://oris.orientacnisporty.cz/Vysledky?id=" ++ ID)%string in
  fold_left (fun results documentRef =>
               if String.eqb (OrisDocument.SourceType_ID (snd documentRef)) "4"
               then OrisDocument.Url (snd documentRef)
               else results)
            Documents results.

(** events.js 819-821: [req.body.tags], [None] when the key is not set. *)
Definition orisCreateEvent_tags (Level_ShortName Level_NameCZ : string)
  : option (list string) :=
  if negb (includes ["E"; "ET"; "S"; "OST"] Level_ShortName)
  then Some [Level_NameCZ] else None.

(** ** [orisGetUserEvents]: the address of the ORIS request *)

(** events.js 888-899 *)
Definition orisGetUserEvents_dateFilter (query : list (string * string))
  : string :=
  let dateFilter := "" in
  let dateFilter :=
    match truthy (queryValue "datefrom" query) with
    | Some datefrom =>
        if matchesDate datefrom
        then (dateFilter ++ "&datefrom=" ++ datefrom)%string
        else dateFilter
    | None => dateFilter
    end in
  match truthy (queryValue "dateto" query) with
  | Some dateto =>
      if matchesDate dateto
      then (dateFilter ++ "&dateto=" ++ dateto)%string
      else dateFilter
  | None => dateFilter
  end.

Definition ORIS_API_GETUSEREVENTENTRIES : string :=
  "https://oris.orientacnisporty.cz/API/?format=json&method=getUserEventEntries".

(** events.js 901-902: the address fetched. *)
Definition orisGetUserEvents_address (orisId : string)
                                     (query : list (string * string)) : string :=
  (ORIS_API_GETUSEREVENTENTRIES ++ "&userid=" ++ orisId
   ++ orisGetUserEvents_dateFilter query)%string.

(** ** Notions used to state the further properties *)

(** A candidate that [validateIds] keeps: a well-formed id, in any
    spelling, that names a document of the collection. *)
Definition knownCandidate (collection : list ObjectID) (c : string) : bool :=
  ObjectID_isValid c && existsb (namedBy c) collection.

(** A query entry that no branch of [getEventList]'s criteria reads: its
    key is no string filter, no coordinate range, and either no id filter
    or one with a malformed id. *)
Definition ignoredFilter (kv : string * string) : bool :=
  negb (includes validStringFilters (fst kv))
  && negb (includes validIdFilters (fst kv) && ObjectID_isValid (snd kv))
  && negb (String.eqb (fst kv) "locLat")
  && negb (String.eqb (fst kv) "locLong").

(** A criterion that a query may give rise to. *)
Definition fromQuery (query : list (string * string)) (k : string)
                     (c : Criterion) : Prop :=
  exists v,
    In (k, v) query
    /\ ((In k validStringFilters /\ c = CRegex v)
        \/ (In k validIdFilters /\ ObjectID_isValid v = true
            /\ (if String.eqb k "runners" then c = CRunner v else c = CId v))
        \/ ((k = "locLat" \/ k = "locLong") /\ v <> "" /\ c = CRange v)).

(** Two populated runner entries with the same user document, the same
    visibility and as many maps: they may differ in every course and
    result detail, in the maps themselves and in the comments. *)
Definition sameOutline (r r' : ListedRunner) : Prop :=
  Runner.user r = Runner.user r'
  /\ Runner.visibility r = Runner.visibility r'
  /\ length (Runner.maps r) = length (Runner.maps r').

(** Two populated events that differ at most in the contents of their
    runner entries. *)
Definition sameButEntryContents (e1 e2 : ListedEvent) : Prop :=
  Event._id e1 = Event._id e2
  /\ Event.date e1 = Event.date e2
  /\ Event.name e1 = Event.name e2
  /\ Event.orisId e1 = Event.orisId e2
  /\ Event.organisedBy e1 = Event.organisedBy e2
  /\ Event.linkedTo e1 = Event.linkedTo e2
  /\ Event.fields e1 = Event.fields e2
  /\ Forall2 sameOutline (Event.runners e1) (Event.runners e2).

(** The links whose [includes] holds the id that the string spells. *)
Definition linkIncludes (id : string) (l : LinkedEvent.t) : bool :=
  existsb (ObjectID_eqb (castObjectID id)) (LinkedEvent.includes l).

(** [map[other]], the path [maptype] does not name. *)
Definition otherPathOf (maptype : MapType) (map : MapRecord.t) : option string :=
  match maptype with
  | Course => MapRecord.route map
  | Route => MapRecord.course map
  end.

(** Two runner entries that agree on everything but their maps. *)
Definition sameEntryButMaps (r r' : StoredRunner) : Prop :=
  Runner.user r' = Runner.user r
  /\ Runner.visibility r' = Runner.visibility r
  /\ Runner.details r' = Runner.details r
  /\ Runner.comments r' = Runner.comments r.

(** Two events that agree on everything but their runner entries. *)
Definition sameEventButRunners (e e' : StoredEvent) : Prop :=
  Event._id e' = Event._id e
  /\ Event.owner e' = Event.owner e
  /\ Event.date e' = Event.date e
  /\ Event.name e' = Event.name e
  /\ Event.orisId e' = Event.orisId e
  /\ Event.organisedBy e' = Event.organisedBy e
  /\ Event.linkedTo e' = Event.linkedTo e
  /\ Event.fields e' = Event.fields e
  /\ Event.active e' = Event.active e.

(** A map before and after [deleteMap]: a map of the title has the path
    emptied and its geographic data dropped, and keeps its title, its other
    path and its overlay; a map of another title is as it was. *)
Definition clearedMap (maptype : MapType) (title : string)
                      (m m' : MapRecord.t) : Prop :=
  if hasTitle title m
  then MapRecord.title m' = MapRecord.title m
       /\ MapRecord.overlay m' = MapRecord.overlay m
       /\ otherPathOf maptype m' = otherPathOf maptype m
       /\ pathOf maptype m' = Some ""
       /\ MapRecord.isGeocoded m' = false
       /\ MapRecord.geo m' = Some (JObj [])
  else m' = m.

(** A runner entry before and after [deleteMap]. *)
Definition clearedRunner (userid : string) (maptype : MapType) (title : string)
                         (r r' : StoredRunner) : Prop :=
  if isRunner userid r
  then sameEntryButMaps r r'
       /\ Forall2 (clearedMap maptype title) (Runner.maps r) (Runner.maps r')
  else r' = r.

(** A map before and after [postMap]: a map of the title has the new path
    and, from a geocoded image, the new geographic data; it keeps its
    title, its other path and its overlay; a map of another title is as it
    was. *)
Definition uploadedMap (maptype : MapType) (title location : string)
                       (isGeocoded : bool) (geo : json)
                       (m m' : MapRecord.t) : Prop :=
  if hasTitle title m
  then MapRecord.title m' = MapRecord.title m
       /\ MapRecord.overlay m' = MapRecord.overlay m
       /\ otherPathOf maptype m' = otherPathOf maptype m
       /\ pathOf maptype m' = Some location
       /\ (if isGeocoded
           then MapRecord.isGeocoded m' = true /\ MapRecord.geo m' = Some geo
           else MapRecord.isGeocoded m' = MapRecord.isGeocoded m
                /\ MapRecord.geo m' = MapRecord.geo m)
  else m' = m.

(** A runner entry before and after [postMap]: the maps it had, each
    uploaded to or as it was, then at most one new map. *)
Definition uploadedRunner (userid : string) (maptype : MapType)
                          (title location : string)
                          (isGeocoded : bool) (geo : json)
                          (r r' : StoredRunner) : Prop :=
  if isRunner userid r
  then sameEntryButMaps r r'
       /\ exists maps added,
            Runner.maps r' = maps ++ added
            /\ Forall2 (uploadedMap maptype title location isGeocoded geo)
                       (Runner.maps r) maps
            /\ (length added <= 1)%nat
  else r' = r.

(** The map that an upload under [title] leaves at [location]. *)
Definition holdsUpload (trim : string -> string) (maptype : MapType)
                       (title location : string) (m : MapRecord.t) : Prop :=
  (MapRecord.title m = title \/ MapRecord.title m = trim title)
  /\ pathOf maptype m = Some (trim location).

(** ** Sample documents for the map controllers *)

Definition joinPath (eventid filePath : string) : string :=
  ("images/maps/" ++ eventid ++ "/" ++ filePath)%string.

Definition keepStore (s : Store.t) (e : StoredEvent)
                     (newRunners : list (option StoredRunner)) : Store.t := s.

Definition notGeocoded : QRData.t :=
  QRData.mk false (LatLong.mk JNull JNull)
    (Corners.mk (LatLong.mk JNull JNull) (LatLong.mk JNull JNull)
                (LatLong.mk JNull JNull) (LatLong.mk JNull JNull))
    (Corners.mk (LatLong.mk JNull JNull) (LatLong.mk JNull JNull)
                (LatLong.mk JNull JNull) (LatLong.mk JNull JNull))
    JNull.

Definition corner (lat long : Z) : LatLong.t :=
  LatLong.mk (JNum lat) (JNum long).

Definition geocoded : QRData.t :=
  QRData.mk true (corner 50 14)
    (Corners.mk (corner 49 13) (corner 51 13) (corner 51 15) (corner 49 15))
    (Corners.mk (corner 49 13) (corner 51 13) (corner 51 15) (corner 49 15))
    (JObj []).

(** Carol's entry at Bob's event with a course map. *)
Definition carolsMap : MapRecord.t :=
  MapRecord.mk "map" (Some "images/maps/e2/c.jpg") (Some "images/maps/e2/r.jpg")
               None true (Some (JObj [("track", JArr [])])).

Definition carolWithMap : StoredRunner :=
  Runner.mk carolId VAll [] [carolsMap] [].

Definition mappedEvent : StoredEvent :=
  Event.mk eventB bobId "2019-05-01" "May Day Sprint" (Some "4321") [] []
           [("locLat", JNum 0)] [carolWithMap] true.

Definition mappedStore : Store.t :=
  Store.mk [mappedEvent] [] [] [aliceId; bobId; carolId; daveId; rootId].

(** The Spring Cup deleted by root, then named in the list of a new
    series. *)
Definition relinkedStore : Store.t :=
  snd (createEventLink linkL bob
         (LinkBody.mk (Some "Easter") (Some ["5c00000000000000000000e1"]))
         afterDelete).

(** A cast of a runner entry's details: a visibility that is an object
    cannot be cast; otherwise the key the sub-schema lacks is dropped, the
    visibility takes its default when the object has none, and the other
    paths are kept as they are. *)
Definition castKnownPaths (fields : list (string * json))
  : option (list (string * json)) :=
  let kept := filter (fun kv => negb (String.eqb (fst kv) "user")
                                && negb (String.eqb (fst kv) "distanceRun"))
                     fields in
  match getField "visibility" kept with
  | Some (JObj _) => None
  | Some _ => Some kept
  | None => Some (kept ++ [("visibility", JStr "all")])
  end.

(** The event-level fields [postMap] may fill. *)
Definition locationKeys : list string :=
  ["locCornerSW"; "locCornerNE"; "locLat"; "locLong"].

(** Two events that agree on everything but their loose fields and their
    runner entries. *)
Definition sameEventButFieldsAndRunners (e e' : StoredEvent) : Prop :=
  Event._id e' = Event._id e
  /\ Event.owner e' = Event.owner e
  /\ Event.date e' = Event.date e
  /\ Event.name e' = Event.name e
  /\ Event.orisId e' = Event.orisId e
  /\ Event.organisedBy e' = Event.organisedBy e
  /\ Event.linkedTo e' = Event.linkedTo e
  /\ Event.active e' = Event.active e.

(** The documents of an ORIS record that hold results. *)
Definition holdsResults (documentRef : string * OrisDocument.t) : bool :=
  String.eqb (OrisDocument.SourceType_ID (snd documentRef)) "4".

(** [1] for a truthy value, [0] otherwise. *)
Definition oneIf (b : bool) : nat := if b then 1 else 0.

(** Two runner entries of the same user with as many maps. *)
Definition sameUserAndMapCount (r r' : StoredRunner) : Prop :=
  Runner.user r' = Runner.user r
  /\ length (Runner.maps r') = length (Runner.maps r).

(** * Properties *)

(** ** Basic facts *)

Lemma ObjectID_eqb_eq a b : ObjectID_eqb a b = true <-> a = b.
Proof.
  destruct a as [x], b as [y]; unfold ObjectID_eqb; simpl.
  rewrite String.eqb_eq. split; [intros -> | intros [= ->]]; reflexivity.
Qed.

Lemma ObjectID_eqb_refl a : ObjectID_eqb a a = true.
Proof. apply ObjectID_eqb_eq; reflexivity. Qed.

Lemma toString_inj a b : toString a = toString b -> a = b.
Proof. destruct a, b; simpl; intros ->; reflexivity. Qed.

Lemma namedBy_eq c k : namedBy c k = true <-> k = castObjectID c.
Proof. apply ObjectID_eqb_eq. Qed.

Lemma namedBy_cast c : namedBy c (castObjectID c) = true.
Proof. apply ObjectID_eqb_refl. Qed.

Lemma Role_eqb_eq a b : Role_eqb a b = true <-> a = b.
Proof. destruct a, b; simpl; split; congruence. Qed.

Lemma Visibility_eqb_eq a b : Visibility_eqb a b = true <-> a = b.
Proof. destruct a, b; simpl; split; congruence. Qed.

Lemma filterTruthy_map {A B : Type} (keep : A -> bool) (emit : A -> B) l :
  filterTruthy (map (fun x => if keep x then Some (emit x) else None) l)
  = map emit (filter keep l).
Proof.
  induction l as [|x l IH]; simpl; [reflexivity|].
  destruct (keep x); simpl; rewrite IH; reflexivity.
Qed.

Lemma includes_In l s : includes l s = true <-> In s l.
Proof.
  unfold includes. rewrite existsb_exists. split.
  - intros [x [Hin Heq]]. apply String.eqb_eq in Heq. subst; assumption.
  - intros Hin. exists s. split; [assumption | apply String.eqb_refl].
Qed.

(** ** Visibility projection *)

Lemma strictEq_true a b : strictEq a b = true <-> a = Some b.
Proof.
  destruct a as [x|]; simpl.
  - rewrite String.eqb_eq. split; [intros -> | intros [= ->]]; reflexivity.
  - split; discriminate.
Qed.

(** [commonClubs.length > 0], for club entries rendered by [render]. *)
Lemma commonClubs_nonempty {C : Type} (render : C -> string)
                           (cs : list string) (mem : list C) :
  (0 <? length (filter (fun clubId => includes cs (render clubId)) mem))%nat = true
  <-> exists c, In c cs /\ In c (map render mem).
Proof.
  rewrite Nat.ltb_lt. split.
  - intros Hlen.
    destruct (filter (fun clubId => includes cs (render clubId)) mem)
      as [|x rest] eqn:Hf; [simpl in Hlen; lia|].
    assert (Hx : In x (filter (fun clubId => includes cs (render clubId)) mem))
      by (rewrite Hf; left; reflexivity).
    apply filter_In in Hx. destruct Hx as [Hmem Hinc].
    exists (render x). split.
    + apply includes_In; assumption.
    + apply in_map; assumption.
  - intros [c [Hc Hm]]. apply in_map_iff in Hm. destruct Hm as [x [<- Hx]].
    assert (Hin : In x (filter (fun clubId => includes cs (render clubId)) mem)).
    { apply filter_In. split; [assumption | apply includes_In; assumption]. }
    destruct (filter _ mem); [destruct Hin | simpl; lia].
Qed.

Ltac by_cases_on_the_tests u r :=
  destruct (Role_eqb (ReqUser.role u) RAdmin),
    (Visibility_eqb (Runner.visibility r) VPublic),
    (Role_eqb (ReqUser.role u) RStandard),
    (Role_eqb (ReqUser.role u) RGuest),
    (Visibility_eqb (Runner.visibility r) VAll),
    (strictEq (GetEvent.requestorId u) (toString (User._id (Runner.user r)))),
    (Visibility_eqb (Runner.visibility r) VClub),
    (0 <? _)%nat; reflexivity.

Lemma detail_canSee_clauses documentToString u r :
  GetEvent.canSee documentToString u r = clauses documentToString u r.
Proof. unfold GetEvent.canSee, clauses. by_cases_on_the_tests u r. Qed.

Lemma listed_canSee_clauses u r :
  GetEventList.canSee u r = clauses toString u r.
Proof.
  unfold GetEventList.canSee, clauses.
  change (GetEventList.requestorId u) with (GetEvent.requestorId u).
  change (GetEventList.requestorClubs u) with (GetEvent.requestorClubs u).
  by_cases_on_the_tests u r.
Qed.

(** The tests of [canSee] are the rule table, taken on the runner's club
    entries as [render] turns them into strings. *)
Lemma clauses_ruleTable {C : Type} (render : C -> string) u
                        (r : Runner.t (User.t C)) :
  clauses render u r = true
  <-> ruleTable (viewerOf u) (Runner.visibility r) (User._id (Runner.user r))
                (map render (User.memberOf (Runner.user r))).
Proof.
  unfold clauses.
  rewrite !orb_true_iff, !andb_true_iff, !orb_true_iff, !andb_true_iff.
  rewrite !Role_eqb_eq, !Visibility_eqb_eq, strictEq_true.
  unfold ruleTable, adminClause, publicClause, allClause, selfClause,
    clubClause, viewerOf; simpl.
  unfold GetEvent.requestorId, GetEvent.requestorClubs.
  destruct (ReqUser.role u) eqn:Hrole; simpl;
    try rewrite commonClubs_nonempty;
    try (split; intros H; decompose [and or] H; clear H;
         try discriminate; auto 10; fail).
  (* anonymous: neither an identity nor a club *)
  split.
  - intros H; decompose [and or] H; clear H; try discriminate; auto.
  - intros [H|[H|[[[H|H] _]|[H|[_ [c [[] _]]]]]]]; try discriminate; auto.
Qed.

(** The flag computed by [getEventList] is the rule table. *)
Lemma listed_canSee_ruleTable u r :
  GetEventList.canSee u r = true <-> listedRule (viewerOf u) r.
Proof. rewrite listed_canSee_clauses. apply clauses_ruleTable. Qed.

(** The flag computed by [getEvent] is the rule table with the renderings
    of the club documents in place of the club ids. *)
Lemma detail_canSee_ruleTable documentToString u r :
  GetEvent.canSee documentToString u r = true
  <-> ruleTable (viewerOf u) (Runner.visibility r) (User._id (Runner.user r))
                (map documentToString (User.memberOf (Runner.user r))).
Proof. rewrite detail_canSee_clauses. apply clauses_ruleTable. Qed.

Lemma filteredEvent_runners documentToString u foundEvent :
  Event.runners (GetEvent.filteredEvent documentToString u foundEvent)
  = filter (GetEvent.canSee documentToString u) (Event.runners foundEvent).
Proof.
  unfold GetEvent.filteredEvent, GetEvent.selectedRunners.
  destruct (Event.runners foundEvent) as [|r rs] eqn:Hrs; simpl.
  - rewrite Hrs; reflexivity.
  - change (filterTruthy
              (map (fun runner => if GetEvent.canSee documentToString u runner
                                  then Some runner else None) (r :: rs))
            = filter (GetEvent.canSee documentToString u) (r :: rs)).
    rewrite (filterTruthy_map (GetEvent.canSee documentToString u) (fun x => x)).
    apply map_id.
Qed.

Lemma eventDetails_runners u foundEvent :
  listedRunners (GetEventList.eventDetails u foundEvent)
  = map GetEventList.runnerSummary
        (filter (GetEventList.canSee u) (Event.runners foundEvent)).
Proof.
  unfold listedRunners, GetEventList.eventDetails,
    GetEventList.selectedRunners; simpl.
  destruct (Event.runners foundEvent) as [|r rs]; simpl; [reflexivity|].
  change (filterTruthy
            (map (fun runner => if GetEventList.canSee u runner
                                then Some (GetEventList.runnerSummary runner)
                                else None) (r :: rs))
          = map GetEventList.runnerSummary
                (filter (GetEventList.canSee u) (r :: rs))).
  apply filterTruthy_map.
Qed.

(** Erin's club-visible entry, seen by Alice who shares club X with her:
    the rule table grants it, the listing view shows it, and the detail
    view shows it exactly when the club document renders as its id. *)
Lemma getEvent_club_runner documentToString :
  detailRule (viewerOf alice) (erinRuns [clubXDocument])
  /\ listedRule (viewerOf alice) (erinRuns [clubX])
  /\ GetEventList.canSee alice (erinRuns [clubX]) = true
  /\ (GetEvent.canSee documentToString alice (erinRuns [clubXDocument]) = true
      <-> documentToString clubXDocument = toString clubX).
Proof.
  assert (Hshared : forall l, In (toString clubX) l ->
            ruleTable (viewerOf alice) VClub erinId l).
  { intros l Hl. unfold ruleTable, clubClause. do 4 right.
    split; [reflexivity|]. exists (toString clubX). split; [|exact Hl].
    left; reflexivity. }
  split; [apply Hshared; left; reflexivity|].
  split; [apply Hshared; left; reflexivity|].
  split; [reflexivity|].
  rewrite detail_canSee_clauses. unfold clauses; simpl.
  destruct (String.eqb_spec (documentToString clubXDocument)
                            "5c00000000000000000000c1") as [Heq|Hne];
    simpl.
  - split; [intros _; exact Heq | reflexivity].
  - split; [discriminate | intros H; contradiction].
Qed.

(** C1, as the code has it. In the listing view the runners sent are the
    summaries of exactly the stored runners that satisfy the rule table
    (admin; public; authenticated and 'all'; self; 'club' with a shared
    club), in stored order. In the detail view the runners sent are the
    stored runners that pass the same tests, except that the club test
    compares the viewer's club ids with the string forms of the populated
    club documents: it is the rule table when a document renders as its
    id, and otherwise a runner the rule table grants through a shared club
    is listed but left out of the detail view. For an anonymous viewer
    both tests are that the runner is public. *)
Theorem C1_detail_view_compares_club_documents :
  forall (documentToString : Club.t -> string) (u : ReqUser.t),
    (forall foundEvent,
        listedRunners (GetEventList.eventDetails u foundEvent)
        = map GetEventList.runnerSummary
              (filter (GetEventList.canSee u) (Event.runners foundEvent)))
    /\ (forall r, GetEventList.canSee u r = true <-> listedRule (viewerOf u) r)
    /\ (forall foundEvent,
          Event.runners (GetEvent.filteredEvent documentToString u foundEvent)
          = filter (GetEvent.canSee documentToString u)
                   (Event.runners foundEvent))
    /\ (forall r,
          GetEvent.canSee documentToString u r = true
          <-> ruleTable (viewerOf u) (Runner.visibility r)
                        (User._id (Runner.user r))
                        (map documentToString (User.memberOf (Runner.user r))))
    /\ ((forall club, documentToString club = toString (Club._id club)) ->
        forall r, GetEvent.canSee documentToString u r = true
                  <-> detailRule (viewerOf u) r)
    /\ (ReqUser.role u = RAnonymous ->
        forall r l,
          (GetEvent.canSee documentToString u r = true
           <-> Runner.visibility r = VPublic)
          /\ (GetEventList.canSee u l = true <-> Runner.visibility l = VPublic))
    /\ detailRule (viewerOf alice) (erinRuns [clubXDocument])
    /\ listedRunners
         (GetEventList.eventDetails alice (springCup [erinRuns [clubX]]))
       = [RunnerSummary.mk erinId "Erin" None 0]
    /\ (Event.runners
          (GetEvent.filteredEvent documentToString alice
                                  (springCup [erinRuns [clubXDocument]]))
        = (if String.eqb (documentToString clubXDocument) (toString clubX)
           then [erinRuns [clubXDocument]] else []))
    /\ Event.runners
         (GetEvent.filteredEvent inspectClub alice
                                 (springCup [erinRuns [clubXDocument]]))
       = [].
Proof.
  intros documentToString u.
  split; [apply eventDetails_runners|].
  split; [apply listed_canSee_ruleTable|].
  split; [apply filteredEvent_runners|].
  split; [apply detail_canSee_ruleTable|].
  split.
  { intros Hid r. rewrite detail_canSee_ruleTable. unfold detailRule.
    rewrite (map_ext _ _ Hid). tauto. }
  split.
  { intros Hanon r l.
    rewrite detail_canSee_clauses, listed_canSee_clauses.
    unfold clauses. rewrite Hanon; simpl.
    rewrite !orb_false_r. split; apply Visibility_eqb_eq. }
  split; [apply (getEvent_club_runner documentToString)|].
  split; [reflexivity|].
  split; [|reflexivity].
  rewrite filteredEvent_runners. cbn [springCup Event.runners filter].
  destruct (getEvent_club_runner documentToString) as (_ & _ & _ & Hiff).
  destruct (String.eqb_spec (documentToString clubXDocument) (toString clubX))
    as [Heq|Hne].
  - rewrite (proj2 Hiff Heq). reflexivity.
  - destruct (GetEvent.canSee documentToString alice (erinRuns [clubXDocument]))
      eqn:Hsee; [|reflexivity].
    contradiction Hne. apply Hiff. reflexivity.
Qed.

(** ** Hidden runners *)

Lemma differOnlyInHidden_filter {R : Type} (canSee : R -> bool) l1 l2 :
  differOnlyInHidden canSee l1 l2 ->
  filter canSee l1 = filter canSee l2.
Proof.
  induction 1 as [| r l1 l2 _ IH | h l1 l2 Hh _ IH | h l1 l2 Hh _ IH]; simpl.
  - reflexivity.
  - rewrite IH; reflexivity.
  - rewrite Hh; assumption.
  - rewrite Hh; assumption.
Qed.

Lemma differOnlyInHidden_refl {R : Type} (canSee : R -> bool) l :
  differOnlyInHidden canSee l l.
Proof. induction l; constructor; assumption. Qed.

Lemma filteredEvent_eq documentToString u (e : DetailEvent) :
  GetEvent.filteredEvent documentToString u e
  = Event.set_runners
      (filter (GetEvent.canSee documentToString u) (Event.runners e)) e.
Proof.
  pose proof (filteredEvent_runners documentToString u e) as Hr.
  unfold GetEvent.filteredEvent in *.
  destruct (0 <? length (Event.runners e))%nat.
  - simpl in Hr. rewrite Hr. reflexivity.
  - rewrite <- Hr. destruct e; reflexivity.
Qed.

(** C2, counterexample: Carol's private entry is invisible to Alice, yet
    the listing of the event counts it in [totalRunners]. *)
Lemma C2_listing_counts_hidden_runner :
  sameButHiddenRunners (GetEventList.canSee alice)
                       (springCup [bobRuns [clubX]])
                       (springCup [bobRuns [clubX]; carolRuns])
  /\ GetEventList.canSee alice carolRuns = false
  /\ EventSummary.totalRunners
       (GetEventList.eventDetails alice (springCup [bobRuns [clubX]])) = 1
  /\ EventSummary.totalRunners
       (GetEventList.eventDetails alice (springCup [bobRuns [clubX]; carolRuns]))
     = 2
  /\ GetEventList.eventDetails alice (springCup [bobRuns [clubX]])
     <> GetEventList.eventDetails alice (springCup [bobRuns [clubX]; carolRuns]).
Proof.
  split.
  { unfold sameButHiddenRunners; simpl. repeat split.
    apply doh_same. apply doh_right; [reflexivity | constructor]. }
  split; [reflexivity|].
  split; [reflexivity|].
  split; [reflexivity|].
  intros Heq.
  apply (f_equal EventSummary.totalRunners) in Heq.
  discriminate Heq.
Qed.

(** C2 as amended: for two stored events that differ only in runners the
    viewer cannot see, the detail responses are equal; the listing entries
    agree on every event-level field and on the runner entries listed, and
    on the [runners] field itself when both events hold a runner; the
    listing's [totalRunners] is the number of stored runners. *)
Theorem C2_hidden_runners_leave_no_trace_but_the_count :
  forall (documentToString : Club.t -> string) (u : ReqUser.t)
         (d1 d2 : DetailEvent) (e1 e2 : ListedEvent),
    sameButHiddenRunners (GetEvent.canSee documentToString u) d1 d2 ->
    sameButHiddenRunners (GetEventList.canSee u) e1 e2 ->
    GetEvent.filteredEvent documentToString u d1
    = GetEvent.filteredEvent documentToString u d2
    /\ eventLevelFields (GetEventList.eventDetails u e1)
       = eventLevelFields (GetEventList.eventDetails u e2)
    /\ listedRunners (GetEventList.eventDetails u e1)
       = listedRunners (GetEventList.eventDetails u e2)
    /\ (Event.runners e1 <> [] -> Event.runners e2 <> [] ->
        EventSummary.runners (GetEventList.eventDetails u e1)
        = EventSummary.runners (GetEventList.eventDetails u e2))
    /\ EventSummary.totalRunners (GetEventList.eventDetails u e1)
       = length (Event.runners e1)
    /\ EventSummary.totalRunners (GetEventList.eventDetails u e2)
       = length (Event.runners e2).
Proof.
  intros documentToString u d1 d2 e1 e2 Hdetail Hsame.
  destruct Hdetail as (Did & Down & Ddate & Dname & Doris & Dclubs & Dlinks
                       & Dfields & Dactive & Drunners).
  destruct Hsame as (Hid & Hown & Hdate & Hname & Horis & Hclubs & Hlinks
                     & Hfields & Hactive & Hrunners).
  apply differOnlyInHidden_filter in Drunners.
  apply differOnlyInHidden_filter in Hrunners.
  assert (Hlisted : listedRunners (GetEventList.eventDetails u e1)
                    = listedRunners (GetEventList.eventDetails u e2)).
  { rewrite !eventDetails_runners, Hrunners. reflexivity. }
  split.
  { rewrite !filteredEvent_eq, Drunners.
    destruct d1, d2; simpl in *; subst; reflexivity. }
  split.
  { unfold eventLevelFields, GetEventList.eventDetails; simpl.
    rewrite Hid, Horis, Hdate, Hname, Hclubs, Hlinks, Hfields. reflexivity. }
  split; [exact Hlisted|].
  split; [|split; reflexivity].
  intros Hne1 Hne2. unfold listedRunners in Hlisted.
  unfold GetEventList.eventDetails in *; simpl in *.
  destruct (Event.runners e1); [contradiction|].
  destruct (Event.runners e2); [contradiction|].
  simpl in *. rewrite Hlisted. reflexivity.
Qed.

Lemma C2_witness :
  sameButHiddenRunners (GetEvent.canSee idOfClub alice)
                       (springCup [bobRuns [clubXDocument]])
                       (springCup [bobRuns [clubXDocument]; carolRuns])
  /\ sameButHiddenRunners (GetEventList.canSee alice)
                          (springCup [bobRuns [clubX]])
                          (springCup [bobRuns [clubX]; carolRuns])
  /\ GetEvent.filteredEvent idOfClub alice (springCup [bobRuns [clubXDocument]])
     = GetEvent.filteredEvent idOfClub alice
         (springCup [bobRuns [clubXDocument]; carolRuns])
  /\ listedRunners (GetEventList.eventDetails alice (springCup [bobRuns [clubX]]))
     = listedRunners
         (GetEventList.eventDetails alice (springCup [bobRuns [clubX]; carolRuns])).
Proof.
  assert (Hd : sameButHiddenRunners (GetEvent.canSee idOfClub alice)
                 (springCup [bobRuns [clubXDocument]])
                 (springCup [bobRuns [clubXDocument]; carolRuns])).
  { unfold sameButHiddenRunners; simpl. repeat split.
    apply doh_same. apply doh_right; [reflexivity | constructor]. }
  assert (Hl : sameButHiddenRunners (GetEventList.canSee alice)
                 (springCup [bobRuns [clubX]])
                 (springCup [bobRuns [clubX]; carolRuns])).
  { unfold sameButHiddenRunners; simpl. repeat split.
    apply doh_same. apply doh_right; [reflexivity | constructor]. }
  split; [exact Hd|]. split; [exact Hl|].
  pose proof (C2_hidden_runners_leave_no_trace_but_the_count
                idOfClub alice _ _ _ _ Hd Hl) as H.
  split; [exact (proj1 H) | exact (proj1 (proj2 (proj2 H)))].
Defined.

(** ** Track distance *)

Section TrackDistanceFacts.

Variable waypoint : Type.
Variable calculateDistance : option waypoint -> option waypoint -> Q.

Lemma trackLoop_shift (a : waypoint) trackCoords steps i acc :
  trackLoop calculateDistance (a :: trackCoords) steps (S i) acc
  = trackLoop calculateDistance trackCoords steps i acc.
Proof.
  revert i acc. induction steps as [|steps IH]; intros i acc;
    cbn [trackLoop].
  - reflexivity.
  - change (nth_error (a :: trackCoords) (S i)) with (nth_error trackCoords i).
    change (nth_error (a :: trackCoords) (S (S i)))
      with (nth_error trackCoords (S i)).
    apply IH.
Qed.

(** The loop reads the array up to index [i + steps] only. *)
Lemma trackLoop_prefix trackCoords extra steps i acc :
  i + steps < length trackCoords ->
  trackLoop calculateDistance (trackCoords ++ extra) steps i acc
  = trackLoop calculateDistance trackCoords steps i acc.
Proof.
  revert i acc. induction steps as [|steps IH]; intros i acc Hlt;
    cbn [trackLoop].
  - reflexivity.
  - rewrite !nth_error_app1 by lia. apply IH. lia.
Qed.

(** Run over every adjacent pair, the loop adds up the pairwise sum. *)
Lemma trackLoop_pairwiseSum trackCoords acc :
  (trackLoop calculateDistance trackCoords (length trackCoords - 1) 0 acc
   == acc + pairwiseSum calculateDistance trackCoords)%Q.
Proof.
  revert acc. induction trackCoords as [|a rest IH]; intros acc.
  - simpl. rewrite Qplus_0_r. reflexivity.
  - destruct rest as [|b rest].
    + simpl. rewrite Qplus_0_r. reflexivity.
    + change (length (a :: b :: rest) - 1) with (S (length rest)).
      cbn [trackLoop nth_error].
      rewrite trackLoop_shift.
      replace (length rest) with (length (b :: rest) - 1) by (simpl; lia).
      rewrite IH.
      change (pairwiseSum calculateDistance (a :: b :: rest))
        with (calculateDistance (Some a) (Some b)
              + pairwiseSum calculateDistance (b :: rest))%Q.
      rewrite Qplus_assoc. reflexivity.
Qed.

(** What [postMap] adds up: the first leg, then every leg but the last. *)
Lemma trackDistance_formula (a : waypoint) init last :
  (trackDistance calculateDistance (Some (a :: init ++ [last]))
   == calculateDistance (Some a) (nth_error (init ++ [last]) 0)
      + pairwiseSum calculateDistance (a :: init))%Q.
Proof.
  unfold trackDistance.
  change (a :: init ++ [last]) with ((a :: init) ++ [last]).
  replace (length ((a :: init) ++ [last]) - 2) with (length (a :: init) - 1)
    by (rewrite length_app; simpl; lia).
  rewrite trackLoop_prefix by (simpl; lia).
  rewrite trackLoop_pairwiseSum.
  reflexivity.
Qed.

End TrackDistanceFacts.

(** C5 on the code: for a track [a :: init ++ [last]] of two or more
    waypoints [postMap] adds the first leg to the legs of [a :: init], so
    the last leg is left out and the first is counted twice; on three
    waypoints the total is twice the first leg, which is the specified sum
    only when both legs are equally long. Two waypoints give the one leg;
    with fewer, the distance is whatever [calculateDistance] makes of
    [undefined] waypoints. *)
Theorem C5_trackDistance_counts_first_leg_twice :
  forall (waypoint : Type)
         (calculateDistance : option waypoint -> option waypoint -> Q)
         (a : waypoint) (init : list waypoint) (last : waypoint)
         (w0 w1 w2 : waypoint),
    (trackDistance calculateDistance (Some (a :: init ++ [last]))
     == calculateDistance (Some a) (nth_error (init ++ [last]) 0)
        + pairwiseSum calculateDistance (a :: init))%Q
    /\ (trackDistance calculateDistance (Some [w0; w1; w2])
        == calculateDistance (Some w0) (Some w1)
           + calculateDistance (Some w0) (Some w1))%Q
    /\ (pairwiseSum calculateDistance [w0; w1; w2]
        == calculateDistance (Some w0) (Some w1)
           + calculateDistance (Some w1) (Some w2))%Q
    /\ ((trackDistance calculateDistance (Some [w0; w1; w2])
         == pairwiseSum calculateDistance [w0; w1; w2])%Q
        <-> (calculateDistance (Some w0) (Some w1)
             == calculateDistance (Some w1) (Some w2))%Q)
    /\ trackDistance calculateDistance (Some [w0; w1])
       = calculateDistance (Some w0) (Some w1)
    /\ trackDistance calculateDistance (Some [w0])
       = calculateDistance (Some w0) None
    /\ trackDistance calculateDistance (Some [])
       = calculateDistance None None.
Proof.
  intros waypoint calculateDistance a init last w0 w1 w2.
  split; [apply trackDistance_formula|].
  assert (H3 : (trackDistance calculateDistance (Some [w0; w1; w2])
                == calculateDistance (Some w0) (Some w1)
                   + calculateDistance (Some w0) (Some w1))%Q).
  { rewrite (trackDistance_formula waypoint calculateDistance w0 [w1] w2).
    simpl. rewrite Qplus_0_r. reflexivity. }
  assert (Hs : (pairwiseSum calculateDistance [w0; w1; w2]
                == calculateDistance (Some w0) (Some w1)
                   + calculateDistance (Some w1) (Some w2))%Q).
  { simpl. rewrite Qplus_0_r. reflexivity. }
  split; [exact H3|].
  split; [exact Hs|].
  split; [|repeat split].
  rewrite H3, Hs. apply Qplus_inj_l.
Qed.

(** ** Authorization of [updateEvent] *)

Lemma updateEvent_guest inc trimInQuery user eventid body s :
  ReqUser.role user = RGuest ->
  updateEvent inc trimInQuery user eventid body s
  = (Refused 401 GuestAccountsNotAllowed, s).
Proof. intros H. unfold updateEvent. rewrite H. reflexivity. Qed.

(** Past the validation checks the outcome is decided by [allowedToUpdate]. *)
Lemma updateEvent_after_validation inc trimInQuery user eventid body s e :
  ReqUser.role user <> RGuest ->
  updateEvent_passesValidation trimInQuery eventid body s = true ->
  findEventById eventid s = Some e ->
  updateEvent inc trimInQuery user eventid body s
  = if updateEvent_allowedToUpdate user e then
      let fieldsToUpdate := updateEvent_fieldsToUpdate trimInQuery user body s in
      if (numberOfFields fieldsToUpdate =? 0)%nat
      then (Refused 400 NoValidFieldsToUpdate, s)
      else
        (Sent 200 (applySet fieldsToUpdate e),
         Store.mk
           (updateFirst (hasEventId eventid) (applySet fieldsToUpdate)
                        (Store.events s))
           (updateMany
              (fun l => idIn (updateEvent_removedLinkedEventIds inc
                                (EventPatch.linkedTo fieldsToUpdate) e)
                             (LinkedEvent._id l))
              (pullInclude (Event._id (applySet fieldsToUpdate e)))
              (updateMany
                 (fun l => idIn (updateEvent_addedLinkedEventIds
                                   (EventPatch.linkedTo fieldsToUpdate) e)
                                (LinkedEvent._id l))
                 (addInclude (Event._id (applySet fieldsToUpdate e)))
                 (Store.linkedEvents s)))
           (Store.clubs s) (Store.users s))
    else (Refused 401 NotAllowed, s).
Proof.
  intros Hrole Hvalid Hfind.
  unfold updateEvent_passesValidation in Hvalid.
  apply andb_true_iff in Hvalid. destruct Hvalid as [Hvalid Hclash].
  apply andb_true_iff in Hvalid. destruct Hvalid as [Hid Hdate].
  apply negb_true_iff in Hclash, Hdate.
  unfold updateEvent.
  destruct (Role_eqb (ReqUser.role user) RGuest) eqn:Hg.
  - apply Role_eqb_eq in Hg. contradiction.
  - rewrite Hid. cbn [negb]. rewrite Hdate, Hclash, Hfind. reflexivity.
Qed.

(** C6, counterexample: Dave owns the event, so the claim permits him to
    update it; his account is a guest account and the request is refused. *)
Lemma C6_guest_owner_is_refused :
  mayUpdateAsClaimed dave davesEvent
  /\ findEventById "5c00000000000000000000e1" davesStore = Some davesEvent
  /\ updateEvent includesByValue noTrim dave "5c00000000000000000000e1"
                 (rename "Spring Cup 2019") davesStore
     = (Refused 401 GuestAccountsNotAllowed, davesStore).
Proof.
  split.
  - right; left. reflexivity.
  - split; reflexivity.
Qed.

(** C6 as amended: a guest is refused with an authorization error; past
    the validation checks on an existing event, an admin and a standard
    user who owns the event are permitted (the answer is no authorization
    error), and a requester who is no admin and is not a standard user
    owning the event or running in it is refused with an authorization
    error, the store being left as it was. *)
Theorem C6_updateEvent_authorization :
  forall (inc : list ObjectID -> string -> bool)
         (trimInQuery : string -> string) (user : ReqUser.t)
         (eventid : string) (body : EventBody.t) (s : Store.t)
         (e : StoredEvent),
    updateEvent_passesValidation trimInQuery eventid body s = true ->
    findEventById eventid s = Some e ->
    (ReqUser.role user = RGuest ->
     updateEvent inc trimInQuery user eventid body s
     = (Refused 401 GuestAccountsNotAllowed, s))
    /\ (ReqUser.role user = RAdmin
        \/ (ReqUser.role user = RStandard
            /\ ReqUser._id user = Event.owner e) ->
        isAuthorizationError
          (fst (updateEvent inc trimInQuery user eventid body s)) = false)
    /\ (ReqUser.role user <> RAdmin ->
        (ReqUser.role user <> RStandard
         \/ (ReqUser._id user <> Event.owner e
             /\ ~ In (ReqUser._id user) (map Runner.user (Event.runners e)))) ->
        isAuthorizationError
          (fst (updateEvent inc trimInQuery user eventid body s)) = true
        /\ snd (updateEvent inc trimInQuery user eventid body s) = s).
Proof.
  intros inc trimInQuery user eventid body s e Hvalid Hfind.
  split; [apply updateEvent_guest|].
  split.
  - intros Hmay.
    assert (Hrole : ReqUser.role user <> RGuest)
      by (destruct Hmay as [H|[H _]]; rewrite H; discriminate).
    rewrite (updateEvent_after_validation inc trimInQuery user eventid body s e
               Hrole Hvalid Hfind).
    assert (Hallowed : updateEvent_allowedToUpdate user e = true).
    { unfold updateEvent_allowedToUpdate.
      destruct Hmay as [H|[H Hown]]; rewrite H; simpl; [reflexivity|].
      rewrite Hown, String.eqb_refl. reflexivity. }
    rewrite Hallowed. cbv zeta.
    destruct (numberOfFields _ =? 0)%nat; reflexivity.
  - intros Hnotadmin Hother.
    destruct (Role_eqb (ReqUser.role user) RGuest) eqn:Hg.
    + apply Role_eqb_eq in Hg.
      rewrite (updateEvent_guest inc trimInQuery user eventid body s Hg).
      split; reflexivity.
    + assert (Hrole : ReqUser.role user <> RGuest).
      { intros H. rewrite H in Hg. discriminate. }
      rewrite (updateEvent_after_validation inc trimInQuery user eventid body s e
               Hrole Hvalid Hfind).
      assert (Hallowed : updateEvent_allowedToUpdate user e = false).
      { unfold updateEvent_allowedToUpdate, objectsInclude.
        rewrite andb_false_r, orb_false_r.
        destruct (ReqUser.role user) eqn:Hr; simpl; try reflexivity.
        - contradiction Hnotadmin; reflexivity.
        - destruct Hother as [H|[Hown _]]; [contradiction H; reflexivity|].
          apply String.eqb_neq. intros Heq. apply Hown.
          apply toString_inj; assumption. }
      rewrite Hallowed. split; reflexivity.
Qed.

(** Carol runs in Bob's event and has the standard role, yet her request
    is refused: [runnerIds] holds ObjectIDs and [requestorId] is a string. *)
Lemma updateEvent_standard_runner_is_refused :
  In (ReqUser._id carol) (map Runner.user (Event.runners bobsEvent))
  /\ updateEvent includesByValue noTrim carol "5c00000000000000000000e2"
                 (rename "May Day") bobsStore
     = (Refused 401 NotAllowed, bobsStore).
Proof. split; [left; reflexivity | reflexivity]. Qed.

Lemma C6_witness :
  updateEvent_passesValidation noTrim "5c00000000000000000000e2"
                               (rename "May Day") bobsStore = true
  /\ findEventById "5c00000000000000000000e2" bobsStore = Some bobsEvent
  /\ isAuthorizationError
       (fst (updateEvent includesByValue noTrim bob "5c00000000000000000000e2"
                         (rename "May Day") bobsStore)) = false
  /\ isAuthorizationError
       (fst (updateEvent includesByValue noTrim alice "5c00000000000000000000e2"
                         (rename "May Day") bobsStore)) = true.
Proof.
  split; [reflexivity|]. split; [reflexivity|]. split.
  - apply (proj1 (proj2 (C6_updateEvent_authorization
                           includesByValue noTrim bob "5c00000000000000000000e2"
                           (rename "May Day") bobsStore bobsEvent
                           eq_refl eq_refl))).
    right. split; reflexivity.
  - apply (proj2 (proj2 (C6_updateEvent_authorization
                           includesByValue noTrim alice "5c00000000000000000000e2"
                           (rename "May Day") bobsStore bobsEvent
                           eq_refl eq_refl))).
    + discriminate.
    + right. split.
      * discriminate.
      * simpl. intros [H|[]]. discriminate H.
Defined.

(** ** Store operations *)

Lemma find_updateFirst {A : Type} (p : A -> bool) (f : A -> A) l x :
  find p l = Some x -> p (f x) = true ->
  find p (updateFirst p f l) = Some (f x).
Proof.
  induction l as [|d rest IH]; simpl; [discriminate|].
  destruct (p d) eqn:Hd.
  - intros [= ->] Hf. simpl. rewrite Hf. reflexivity.
  - intros Hfind Hf. simpl. rewrite Hd. apply IH; assumption.
Qed.


Lemma map_updateMany {A B : Type} (key : A -> B) (p : A -> bool) (f : A -> A) l :
  (forall x, key (f x) = key x) ->
  map key (updateMany p f l) = map key l.
Proof.
  intros Hkey. unfold updateMany. rewrite map_map. apply map_ext.
  intros d. destruct (p d); [apply Hkey | reflexivity].
Qed.

Lemma in_updateMany {A : Type} (p : A -> bool) (f : A -> A) l y :
  In y (updateMany p f l) <->
  exists x, In x l /\ y = (if p x then f x else x).
Proof.
  unfold updateMany. rewrite in_map_iff. split.
  - intros [x [Hy Hx]]. exists x. split; [assumption | symmetry; assumption].
  - intros [x [Hx Hy]]. exists x. split; [symmetry; assumption | assumption].
Qed.

Lemma in_pull x y l : In y (pull x l) <-> In y l /\ y <> x.
Proof.
  unfold pull. rewrite filter_In, negb_true_iff. split.
  - intros [Hin Hne]. split; [assumption|].
    intros ->. rewrite ObjectID_eqb_refl in Hne. discriminate.
  - intros [Hin Hne]. split; [assumption|].
    destruct (ObjectID_eqb x y) eqn:Heq; [|reflexivity].
    apply ObjectID_eqb_eq in Heq. congruence.
Qed.

Lemma in_addToSet x y l : In y (addToSet x l) <-> In y l \/ y = x.
Proof.
  unfold addToSet. destruct (existsb (ObjectID_eqb x) l) eqn:Hex.
  - apply existsb_exists in Hex. destruct Hex as [z [Hz Heq]].
    apply ObjectID_eqb_eq in Heq. subst z.
    split; [tauto | intros [H | ->]; assumption].
  - rewrite in_app_iff. simpl. split.
    + intros [H|[H|[]]]; [left; assumption | right; symmetry; assumption].
    + intros [H | ->]; [left; assumption | right; left; reflexivity].
Qed.

Lemma find_some_hasEventId id l e :
  find (hasEventId id) l = Some e -> In e l /\ Event._id e = castObjectID id.
Proof.
  intros H. apply find_some in H. destruct H as [Hin Hid].
  split; [assumption | apply namedBy_eq; assumption].
Qed.

(** ** Soft delete *)




(** The unique index on the ORIS id can refuse the tagged value: Bob's
    request to delete the Spring Cup is answered 400 and nothing changes
    when another event already holds its ORIS id with the tag. *)
Lemma deleteEvent_tag_clash :
  map Event.orisId (Store.events clashStore)
  = [Some "77"; Some "77 deleted:02112026@0905"]
  /\ deleteEvent someTime bob "5c00000000000000000000e1" clashStore
     = (Refused 400 StoreError, clashStore).
Proof. split; reflexivity. Qed.



(** ** Creation and the (date, name) pair *)

Lemma findEventByDateName_pairExists d n s :
  isSome (findEventByDateName d n s) = true <-> pairExists d n s.
Proof.
  unfold findEventByDateName, pairExists. split.
  - destruct (find _ (Store.events s)) as [e|] eqn:Hf; [|discriminate].
    intros _. apply find_some in Hf. destruct Hf as [Hin Hm].
    apply andb_true_iff in Hm. destruct Hm as [Hd Hn].
    apply String.eqb_eq in Hd, Hn. exists e. auto.
  - intros [e [Hin [Hd Hn]]].
    destruct (find _ (Store.events s)) as [e'|] eqn:Hf; [reflexivity|].
    exfalso. apply (find_none _ _ Hf) in Hin.
    rewrite Hd, Hn, !String.eqb_refl in Hin. discriminate.
Qed.

(** C9, counterexample: the only event dated 2019-04-06 is soft-deleted,
    and a request to create an event with its date and (tagged) name is
    refused as a duplicate; and a guest's request is refused although no
    event holds the pair. *)
Lemma C9_rejections_beyond_active_duplicates :
  ~ activePairExists "2019-04-06" "Spring Cup deleted:02112026@0905" afterDelete
  /\ fst (createEvent acceptAll noTrim noTrim eventB bob
            (newEventBody "2019-04-06" "Spring Cup deleted:02112026@0905" None)
            afterDelete)
     = Refused 400 AlreadyExists
  /\ ~ activePairExists "2019-06-01" "Midsummer" emptyStore
  /\ fst (createEvent acceptAll noTrim noTrim eventB dave
            (newEventBody "2019-06-01" "Midsummer" None) emptyStore)
     = Refused 401 GuestAccountsNotAllowed.
Proof.
  split.
  { intros [e [Hin [Hactive _]]]. simpl in Hin.
    destruct Hin as [<-|[]]. discriminate Hactive. }
  split; [reflexivity|].
  split; [intros [e [[] _]]|].
  reflexivity.
Qed.

(** A name with a blank after it, next to a stored event of that date and
    name: where the lookup carries the trimmed name the request is refused
    as a duplicate; where it carries the name as supplied the request
    passes, and the event is stored under the trimmed name, the second of
    that date and name. *)
Lemma createEvent_padded_name :
  fst (createEvent acceptAll trimBlanks trimBlanks eventB bob
         (newEventBody "2019-04-06" "Spring Cup " None) davesStore)
  = Refused 400 AlreadyExists
  /\ map (fun e => (Event.date e, Event.name e))
         (Store.events
            (snd (createEvent acceptAll trimBlanks noTrim eventB bob
                    (newEventBody "2019-04-06" "Spring Cup " None) davesStore)))
     = [("2019-04-06", "Spring Cup"); ("2019-04-06", "Spring Cup")].
Proof. split; reflexivity. Qed.

(** C9 as amended: for a requester who is no guest and supplies a name and
    a date that passes the pattern, the request is refused as a duplicate
    exactly when some stored event, active or soft-deleted, has the same
    date and the name that the lookup carries (the name supplied, as the
    mapper's setter leaves it in a query), compared as strings; whenever a
    request is refused the store is unchanged; without such an event, an
    event that the store accepts is stored, under the date supplied and
    the trimmed name; and 2019-02-29 passes the pattern. *)
Theorem C9_createEvent_duplicate_check :
  forall (validates : StoredEvent -> bool) (trim trimInQuery : string -> string)
         (newId : ObjectID) (user : ReqUser.t) (body : EventBody.t)
         (s : Store.t) (eventDate eventName : string),
    ReqUser.role user <> RGuest ->
    truthy (EventBody.date body) = Some eventDate ->
    truthy (EventBody.name body) = Some eventName ->
    matchesDate eventDate = true ->
    (fst (createEvent validates trim trimInQuery newId user body s)
     = Refused 400 AlreadyExists
     <-> pairExists eventDate (trimInQuery eventName) s)
    /\ (forall status error,
          fst (createEvent validates trim trimInQuery newId user body s)
          = Refused status error ->
          snd (createEvent validates trim trimInQuery newId user body s) = s)
    /\ (~ pairExists eventDate (trimInQuery eventName) s ->
        fst (createEvent validates trim trimInQuery newId user body s)
        <> Refused 400 StoreError ->
        exists newEvent,
          fst (createEvent validates trim trimInQuery newId user body s)
          = Sent 200 newEvent
          /\ Event.date newEvent = eventDate
          /\ Event.name newEvent = trim eventName
          /\ Event.active newEvent = true
          /\ In newEvent
                (Store.events
                   (snd (createEvent validates trim trimInQuery newId user
                                     body s))))
    /\ matchesDate "2019-02-29" = true.
Proof.
  intros validates trim trimInQuery newId user body s eventDate eventName
         Hrole Hdate Hname Hmatch.
  assert (Hg : Role_eqb (ReqUser.role user) RGuest = false).
  { destruct (Role_eqb (ReqUser.role user) RGuest) eqn:Hg; [|reflexivity].
    apply Role_eqb_eq in Hg. contradiction. }
  pose proof (findEventByDateName_pairExists eventDate (trimInQuery eventName) s)
    as Hpair.
  unfold createEvent. rewrite Hg, Hdate, Hname, Hmatch. cbn [negb].
  destruct (findEventByDateName eventDate (trimInQuery eventName) s)
    as [existing|] eqn:Hfind.
  - (* a stored event has the pair *)
    simpl in Hpair. split; [tauto|]. split; [reflexivity|].
    split; [|reflexivity].
    intros Hno. exfalso. apply Hno, Hpair. reflexivity.
  - simpl in Hpair. cbv zeta.
    destruct (validates _ && _ && _) eqn:Hsave; cbn [fst snd].
    + split.
      { split; [discriminate|]. intros H. apply Hpair in H. discriminate. }
      split; [discriminate|].
      split; [|reflexivity].
      intros _ _. eexists. split; [reflexivity|].
      cbn [Event.date Event.name Event.active Store.events].
      repeat split. apply in_or_app. right. left. reflexivity.
    + split.
      { split; [discriminate|]. intros H. apply Hpair in H. discriminate. }
      split; [reflexivity|].
      split; [|reflexivity].
      intros _ Hne. contradiction Hne; reflexivity.
Qed.

Lemma C9_witness :
  ReqUser.role bob <> RGuest
  /\ (fst (createEvent acceptAll trimBlanks trimBlanks eventA bob
             (newEventBody "2019-04-06" " Spring Cup" None) davesStore)
      = Refused 400 AlreadyExists)
  /\ (fst (createEvent acceptAll trimBlanks trimBlanks eventB bob
             (newEventBody "2019-04-07" " Spring Cup" None) davesStore)
      <> Refused 400 AlreadyExists).
Proof.
  split; [discriminate|]. split.
  - apply (proj1 (C9_createEvent_duplicate_check
                    acceptAll trimBlanks trimBlanks eventA bob
                    (newEventBody "2019-04-06" " Spring Cup" None) davesStore
                    "2019-04-06" " Spring Cup"
                    ltac:(discriminate) eq_refl eq_refl eq_refl)).
    exists davesEvent. split; [left; reflexivity|]. split; reflexivity.
  - intros H.
    apply (proj1 (C9_createEvent_duplicate_check
                    acceptAll trimBlanks trimBlanks eventB bob
                    (newEventBody "2019-04-07" " Spring Cup" None) davesStore
                    "2019-04-07" " Spring Cup"
                    ltac:(discriminate) eq_refl eq_refl eq_refl)) in H.
    destruct H as [e [[<-|[]] [Hd _]]]. discriminate Hd.
Defined.

(** ** Soft-deleted events and the read paths *)

Lemma setCriterion_keeps key c k v o :
  k <> key -> In (k, v) o -> In (k, v) (setCriterion key c o).
Proof.
  intros Hne. induction o as [|[k' v'] o IH]; simpl; [tauto|].
  intros [[= -> ->]|Hin].
  - destruct (String.eqb k key) eqn:Heq.
    + apply String.eqb_eq in Heq. contradiction.
    + left; reflexivity.
  - destruct (String.eqb k' key); right; [assumption | apply IH; assumption].
Qed.

Lemma addFilter_keeps_active criteria kv :
  In ("active", CActive true) criteria ->
  In ("active", CActive true) (addFilter criteria kv).
Proof.
  intros Hin. unfold addFilter.
  assert (Hstr : In ("active", CActive true)
                    (if includes validStringFilters (fst kv)
                     then setCriterion (fst kv) (CRegex (snd kv)) criteria
                     else criteria)).
  { destruct (includes validStringFilters (fst kv)) eqn:Hs; [|assumption].
    apply setCriterion_keeps; [|assumption].
    intros Heq. rewrite <- Heq in Hs. discriminate Hs. }
  destruct (includes validIdFilters (fst kv)) eqn:Hi; [|assumption].
  destruct (ObjectID_isValid (snd kv)); [|assumption].
  destruct (String.eqb (fst kv) "runners").
  - apply setCriterion_keeps; [discriminate | assumption].
  - apply setCriterion_keeps; [|assumption].
    intros Heq. rewrite <- Heq in Hi. discriminate Hi.
Qed.

(** No query removes or replaces the [active: true] criterion. *)
Lemma eventSearchCriteria_active query :
  In ("active", CActive true) (eventSearchCriteria query).
Proof.
  unfold eventSearchCriteria.
  assert (Hfold : forall q criteria,
             In ("active", CActive true) criteria ->
             In ("active", CActive true) (fold_left addFilter q criteria)).
  { induction q as [|kv q IH]; intros criteria Hin; simpl; [assumption|].
    apply IH, addFilter_keeps_active, Hin. }
  assert (H0 : In ("active", CActive true)
                  (fold_left addFilter query [("active", CActive true)]))
    by (apply Hfold; left; reflexivity).
  destruct (truthy (queryValue "locLat" query));
    destruct (truthy (queryValue "locLong" query));
    repeat (apply setCriterion_keeps; [discriminate|]); assumption.
Qed.

Lemma findEvents_active fieldMatches query s e :
  In e (findEvents fieldMatches (eventSearchCriteria query) s) ->
  In e (Store.events s) /\ Event.active e = true.
Proof.
  unfold findEvents. rewrite filter_In. intros [Hin Hall].
  split; [assumption|].
  rewrite forallb_forall in Hall.
  specialize (Hall _ (eventSearchCriteria_active query)).
  unfold criterionHolds in Hall; simpl in Hall.
  destruct (Event.active e); [reflexivity | discriminate].
Qed.

(** C10, counterexample: the Spring Cup is soft-deleted and then named in
    the list of a new series. [getEvent] does not find it, but
    [getEventLinks] answers every caller with the series and, in it, the
    id, the name and the date of the deleted event. *)
Lemma C10_getEventLinks_shows_a_deleted_event :
  Store.events relinkedStore
  = [Event.mk eventA daveId "2019-04-06" "Spring Cup deleted:02112026@0905"
              None [] [linkL] [] [] false]
  /\ getEvent populateBare idOfClub root "5c00000000000000000000e1"
              relinkedStore
     = Refused 404 NoEventFound
  /\ getEventLinks anyRegExp (fun _ _ => true) PopulatedLink.t
                   includesPopulated [] relinkedStore
     = Some (Replied 200
               [PopulatedLink.mk linkL "Easter"
                  [IncludedEvent.mk eventA "Spring Cup deleted:02112026@0905"
                                    "2019-04-06"]]).
Proof. split; [|split]; reflexivity. Qed.

(** C10 as amended: a soft-deleted event is invisible to the two read paths
    of events, for every viewer. When every stored event that the
    requested id names, in whatever spelling, is soft-deleted, [getEvent]
    answers not-found; and whatever the query, [getEventList] either
    throws, on a string filter that is no regular expression, or
    summarises stored events that are active only, so none of them is the
    soft-deleted one. *)
Theorem C10_soft_deleted_events_are_not_read :
  forall (populateDetail : StoredEvent -> DetailEvent)
         (populateListed : StoredEvent -> ListedEvent)
         (documentToString : Club.t -> string)
         (fieldMatches : string -> Criterion -> StoredEvent -> bool)
         (regExpValid : string -> bool)
         (user : ReqUser.t) (eventid : string)
         (query : list (string * string)) (s : Store.t),
    ObjectID_isValid eventid = true ->
    (forall e, In e (Store.events s) -> Event._id e = castObjectID eventid ->
               Event.active e = false) ->
    getEvent populateDetail documentToString user eventid s
    = Refused 404 NoEventFound
    /\ (getEventList_throws regExpValid query = true ->
        getEventList populateListed fieldMatches regExpValid user query s = None)
    /\ (getEventList_throws regExpValid query = false ->
        exists found,
          getEventList populateListed fieldMatches regExpValid user query s
          = Some (Sent 200 (map (fun e => GetEventList.eventDetails
                                            user (populateListed e))
                                found))
          /\ forall e, In e found ->
                       In e (Store.events s) /\ Event.active e = true
                       /\ Event._id e <> castObjectID eventid).
Proof.
  intros populateDetail populateListed documentToString fieldMatches
         regExpValid user eventid query s Hvalid Hdeleted.
  split; [|split].
  - unfold getEvent. rewrite Hvalid. cbn [negb].
    destruct (find _ (Store.events s)) as [e|] eqn:Hfind; [|reflexivity].
    apply find_some in Hfind. destruct Hfind as [Hin Hm].
    apply andb_true_iff in Hm. destruct Hm as [Hid Hact].
    apply namedBy_eq in Hid.
    rewrite (Hdeleted e Hin Hid) in Hact. discriminate Hact.
  - intros Hthrows. unfold getEventList. rewrite Hthrows. reflexivity.
  - intros Hthrows.
    exists (findEvents fieldMatches (eventSearchCriteria query) s). split.
    + unfold getEventList, GetEventList.eventsSummary. rewrite Hthrows.
      rewrite map_map. reflexivity.
    + intros e He. apply findEvents_active in He. destruct He as [Hin Hact].
      split; [assumption|]. split; [assumption|].
      intros Hid. rewrite (Hdeleted e Hin Hid) in Hact. discriminate Hact.
Qed.

Lemma C10_witness :
  findEventById "5C00000000000000000000E1" afterDelete
  = Some (setDeleted "Spring Cup deleted:02112026@0905" None davesEvent)
  /\ getEvent populateBare idOfClub root "5C00000000000000000000E1" afterDelete
     = Refused 404 NoEventFound
  /\ getEventList populateBare matchAny anyRegExp root [("name", "Spring")]
                  afterDelete
     = Some (Sent 200 []).
Proof.
  split; [reflexivity|].
  assert (Hdeleted : forall e, In e (Store.events afterDelete) ->
                               Event._id e
                               = castObjectID "5C00000000000000000000E1" ->
                               Event.active e = false).
  { intros e [<-|[]] _. reflexivity. }
  split.
  - exact (proj1 (C10_soft_deleted_events_are_not_read
                    populateBare populateBare idOfClub matchAny anyRegExp root
                    "5C00000000000000000000E1"
                    [("name", "Spring")] afterDelete eq_refl Hdeleted)).
  - reflexivity.
Defined.

(** ** Update of a runner entry *)

Lemma updateFirst_split {A : Type} (p : A -> bool) (f : A -> A) l :
  existsb p l = true ->
  exists before x after,
    l = before ++ x :: after
    /\ p x = true
    /\ (forall b, In b before -> p b = false)
    /\ updateFirst p f l = before ++ f x :: after.
Proof.
  induction l as [|d rest IH]; simpl; [discriminate|].
  destruct (p d) eqn:Hd.
  - intros _. exists [], d, rest. repeat split; [assumption | intros b []].
  - simpl. intros Hex. destruct (IH Hex) as (before & x & after & Hl & Hx & Hb & Hu).
    exists (d :: before), x, after. subst rest. repeat split.
    + assumption.
    + intros b [<-|Hin]; [assumption | apply Hb; assumption].
    + simpl. rewrite Hu. reflexivity.
Qed.

Lemma getField_onlyValidFields validFields key body :
  getField key (onlyValidFields validFields body)
  = if includes validFields key then getField key body else None.
Proof.
  unfold onlyValidFields.
  induction body as [|[k v] body IH]; simpl.
  - destruct (includes validFields key); reflexivity.
  - destruct (includes validFields k) eqn:Hk; simpl.
    + destruct (String.eqb k key) eqn:Heq.
      * apply String.eqb_eq in Heq. subst k. rewrite Hk. reflexivity.
      * exact IH.
    + destruct (String.eqb k key) eqn:Heq.
      * apply String.eqb_eq in Heq. subst k. rewrite Hk in *. exact IH.
      * exact IH.
Qed.

Lemma runnerIds_isUser userid runners :
  includes (filterTruthy (map runnerUser runners)) userid = true ->
  existsb (isUser userid) runners = true.
Proof.
  induction runners as [|r rest IH]; simpl; [discriminate|].
  unfold isUser at 1. destruct (runnerUser r) as [hex|]; simpl.
  - unfold includes in *. simpl. rewrite (String.eqb_sym userid hex).
    destruct (String.eqb hex userid); simpl; [reflexivity | exact IH].
  - exact IH.
Qed.

(** C7 on the code: a permitted update with at least one valid field
    stores, in place of the entry of the runner, the object made of the
    valid fields of the request and nothing else; the entries around it
    and the event-level fields stay, but the entry itself keeps neither
    its user reference nor its comments, nor any field the request left
    out. *)
Theorem C7_updateEventRunner_replaces_the_entry :
  forall (user : ReqUser.t) (eventid userid : string)
         (body : list (string * json)) (events : list RawEvent.t)
         (e : RawEvent.t),
    ReqUser.role user = RAdmin
    \/ (ReqUser.role user = RStandard /\ toString (ReqUser._id user) = userid) ->
    ObjectID_isValid eventid = true ->
    ObjectID_isValid userid = true ->
    find (hasRawId eventid) events = Some e ->
    forallb (fun r => isSome (runnerUser r)) (RawEvent.runners e) = true ->
    includes (filterTruthy (map runnerUser (RawEvent.runners e))) userid = true ->
    onlyValidFields updateEventRunner_validFields body <> [] ->
    exists before entry after,
      RawEvent.runners e = before ++ entry :: after
      /\ runnerUser entry = Some userid
      /\ (forall b, In b before -> isUser userid b = false)
      /\ fst (updateEventRunner user eventid userid body events)
         = Sent 200
             (RawEvent.mk (RawEvent._id e) (RawEvent.fields e)
                (before
                 ++ onlyValidFields updateEventRunner_validFields body
                 :: after))
      /\ getField "user" (onlyValidFields updateEventRunner_validFields body)
         = None
      /\ getField "comments" (onlyValidFields updateEventRunner_validFields body)
         = None
      /\ forall key,
           getField key (onlyValidFields updateEventRunner_validFields body)
           = if includes updateEventRunner_validFields key
             then getField key body else None.
Proof.
  intros user eventid userid body events e Hmay Hev Hus Hfind Hall Hpresent Hfields.
  destruct (updateFirst_split (isUser userid)
              (fun _ => onlyValidFields updateEventRunner_validFields body)
              (RawEvent.runners e) (runnerIds_isUser _ _ Hpresent))
    as (before & entry & after & Hsplit & Hentry & Hbefore & Hupdate).
  exists before, entry, after.
  split; [assumption|]. split.
  { unfold isUser in Hentry. destruct (runnerUser entry) as [hex|]; [|discriminate].
    apply String.eqb_eq in Hentry. congruence. }
  split; [assumption|]. split.
  { assert (Hg : Role_eqb (ReqUser.role user) RGuest = false)
      by (destruct Hmay as [H|[H _]]; rewrite H; reflexivity).
    assert (Hallowed : Role_eqb (ReqUser.role user) RAdmin
                       || (Role_eqb (ReqUser.role user) RStandard
                           && String.eqb (toString (ReqUser._id user)) userid)
                       = true).
    { destruct Hmay as [H|[H Hid]]; rewrite H; simpl; [reflexivity|].
      rewrite Hid. apply String.eqb_refl. }
    unfold updateEventRunner.
    rewrite Hg, Hev, Hus, Hfind, Hall, Hpresent, Hallowed. cbn [negb].
    destruct (onlyValidFields updateEventRunner_validFields body) as [|kv kvs] eqn:Hf;
      [contradiction Hfields; reflexivity|].
    cbn [length Nat.eqb fst]. unfold setMatchedRunner. rewrite Hupdate.
    reflexivity. }
  split; [rewrite getField_onlyValidFields; reflexivity|].
  split; [rewrite getField_onlyValidFields; reflexivity|].
  intros key. apply getField_onlyValidFields.
Qed.

(** Alice changes her course title: her entry is left with the title only. *)
Lemma updateEventRunner_title_change :
  getField "user" alicesEntry = Some (JStr "5c0000000000000000000a11")
  /\ fst (updateEventRunner alice "5c00000000000000000000e1"
                            "5c0000000000000000000a11" titleChange [rawEvent])
     = Sent 200
         (RawEvent.mk eventA
            [("name", JStr "Spring Cup"); ("date", JStr "2019-04-06")]
            [bobsEntry; [("courseTitle", JStr "H35")]]).
Proof. split; reflexivity. Qed.

Lemma C7_witness :
  exists before entry after,
    RawEvent.runners rawEvent = before ++ entry :: after
    /\ runnerUser entry = Some "5c0000000000000000000a11"
    /\ fst (updateEventRunner alice "5c00000000000000000000e1"
                              "5c0000000000000000000a11" titleChange [rawEvent])
       = Sent 200
           (RawEvent.mk (RawEvent._id rawEvent) (RawEvent.fields rawEvent)
              (before
               ++ onlyValidFields updateEventRunner_validFields titleChange
               :: after)).
Proof.
  destruct (C7_updateEventRunner_replaces_the_entry
              alice "5c00000000000000000000e1" "5c0000000000000000000a11"
              titleChange [rawEvent] rawEvent
              (or_intror (conj eq_refl eq_refl)) eq_refl eq_refl eq_refl
              eq_refl eq_refl ltac:(discriminate))
    as (before & entry & after & Hsplit & Huser & _ & Hsent & _).
  exists before, entry, after. split; [exact Hsplit|]. split; assumption.
Defined.

(** ** The reference delta *)

Lemma filter_map_comm {A B : Type} (f : A -> B) (p : B -> bool) l :
  filter p (map f l) = map f (filter (fun x => p (f x)) l).
Proof.
  induction l as [|x l IH]; simpl; [reflexivity|].
  destruct (p (f x)); simpl; rewrite IH; reflexivity.
Qed.

Lemma includes_toString (l : list ObjectID) (id : ObjectID) :
  includes (map toString l) (toString id) = existsb (ObjectID_eqb id) l.
Proof.
  unfold includes. induction l as [|y l IH]; simpl; [reflexivity|].
  rewrite IH. reflexivity.
Qed.

Lemma castId_IdStr_toString (l : list ObjectID) :
  map castId (map IdStr (map toString l)) = l.
Proof.
  induction l as [|[h] l IH]; simpl; [reflexivity|].
  rewrite IH. reflexivity.
Qed.

(** With the list supplied, [added] is the new list minus the previous. *)
Lemma addedIds_supplied (previous ids : list ObjectID) :
  map castId (addedIds (map toString previous) (PlainStrings (map toString ids)))
  = specAdded previous ids.
Proof.
  unfold addedIds, specAdded, stringsInclude.
  rewrite filter_map_comm, castId_IdStr_toString.
  apply filter_ext. intros id. rewrite includes_toString. reflexivity.
Qed.

(** With the list supplied, [removed] is the previous list minus the new. *)
Lemma removedIds_supplied inc (previous ids : list ObjectID) :
  map castId (removedIds inc (map toString previous)
                         (PlainStrings (map toString ids)))
  = specRemoved previous ids.
Proof.
  unfold removedIds, specRemoved.
  rewrite filter_map_comm, castId_IdStr_toString.
  apply filter_ext. intros id. rewrite includes_toString. reflexivity.
Qed.

(** Without a list, every reference of the document counts as added. *)
Lemma addedIds_not_supplied (previous : list ObjectID) :
  addedIds (map toString previous) (DocumentArray previous)
  = map IdObj previous.
Proof.
  unfold addedIds, stringsInclude. f_equal.
  induction previous as [|x l IH]; simpl; [reflexivity|].
  f_equal. exact IH.
Qed.

(** C3 on the code: when the request supplies the list, [updateEvent] and
    [updateEventLink] compute the pure set difference (added = new minus
    previous, removed = previous minus new); when it does not, the new
    list is the document's own array of ObjectIDs, none of which is found
    among the strings of the previous list, so every current reference is
    in [added] (the specified delta of a list with itself is empty). *)
Theorem C3_reference_delta :
  forall (inc : list ObjectID -> string -> bool) (ids : list ObjectID)
         (e : StoredEvent) (l : LinkedEvent.t),
    map castId (updateEvent_addedLinkedEventIds (Some ids) e)
    = specAdded (Event.linkedTo e) ids
    /\ map castId (updateEvent_removedLinkedEventIds inc (Some ids) e)
       = specRemoved (Event.linkedTo e) ids
    /\ map castId (updateEventLink_addedEventIds (Some ids) l)
       = specAdded (LinkedEvent.includes l) ids
    /\ map castId (updateEventLink_removedEventIds inc (Some ids) l)
       = specRemoved (LinkedEvent.includes l) ids
    /\ updateEvent_addedLinkedEventIds None e = map IdObj (Event.linkedTo e)
    /\ updateEventLink_addedEventIds None l
       = map IdObj (LinkedEvent.includes l)
    /\ specAdded (Event.linkedTo e) (Event.linkedTo e) = []
    /\ specAdded (LinkedEvent.includes l) (LinkedEvent.includes l) = [].
Proof.
  intros inc ids e l.
  assert (Hself : forall refs : list ObjectID, specAdded refs refs = []).
  { intros refs. unfold specAdded.
    assert (Hall : forall sub, incl sub refs ->
               filter (fun id => negb (existsb (ObjectID_eqb id) refs)) sub = []).
    { induction sub as [|x sub IH]; intros Hincl; simpl; [reflexivity|].
      assert (Hx : existsb (ObjectID_eqb x) refs = true).
      { apply existsb_exists. exists x. split.
        - apply Hincl. left; reflexivity.
        - apply ObjectID_eqb_refl. }
      rewrite Hx. simpl. apply IH. intros y Hy. apply Hincl. right; assumption. }
    apply Hall, incl_refl. }
  split; [apply addedIds_supplied|].
  split; [apply removedIds_supplied|].
  split; [apply addedIds_supplied|].
  split; [apply removedIds_supplied|].
  split; [apply addedIds_not_supplied|].
  split; [apply addedIds_not_supplied|].
  split; apply Hself.
Qed.

(** A rename of the soft-deleted Spring Cup puts it back among the events
    that "Easter" includes when the mapper's lookup goes by value. *)
Lemma updateEvent_rename_touches_mirror :
  Store.linkedEvents deletedStore = [LinkedEvent.mk linkL "Easter" []]
  /\ Store.linkedEvents
       (snd (updateEvent includesByValue noTrim root "5c00000000000000000000e1"
                         (rename "Spring Cup 2019") deletedStore))
     = [LinkedEvent.mk linkL "Easter" [eventA]].
Proof. split; reflexivity. Qed.

(** Whatever the mapper's lookup answers, an update that supplies no list
    changes the mirror side of one of the two stores. *)
Lemma updateEvent_without_list_changes_mirror
      (inc : list ObjectID -> string -> bool) :
  Store.linkedEvents
    (snd (updateEvent inc noTrim root "5c00000000000000000000e1"
                      (rename "Spring Cup 2019") deletedStore))
  <> Store.linkedEvents deletedStore
  \/ Store.linkedEvents
       (snd (updateEvent inc noTrim bob "5c00000000000000000000e1"
                         (rename "Spring Cup 2019") linkedStore))
     <> Store.linkedEvents linkedStore.
Proof.
  destruct (inc [linkL] "5c00000000000000000000f1") eqn:Hinc.
  - left. vm_compute. unfold linkL in Hinc. rewrite Hinc. discriminate.
  - right. vm_compute. unfold linkL in Hinc. rewrite Hinc. discriminate.
Qed.

(** ** The reference graph under sequences of operations *)

Lemma existsb_ObjectID_eqb (x : ObjectID) l :
  existsb (ObjectID_eqb x) l = true <-> In x l.
Proof.
  rewrite existsb_exists. split.
  - intros [y [Hy Heq]]. apply ObjectID_eqb_eq in Heq. subst; assumption.
  - intros Hin. exists x. split; [assumption | apply ObjectID_eqb_refl].
Qed.

Lemma idIn_In vs x : idIn vs x = true <-> In x (map castId vs).
Proof.
  unfold idIn. rewrite existsb_exists, in_map_iff. split.
  - intros [v [Hv Heq]]. apply ObjectID_eqb_eq in Heq. exists v. auto.
  - intros [v [Heq Hv]]. exists v. split; [assumption|].
    apply ObjectID_eqb_eq; assumption.
Qed.

Lemma idIn_IdObj ids x : idIn (map IdObj ids) x = true <-> In x ids.
Proof.
  rewrite idIn_In, map_map. simpl. rewrite map_id. reflexivity.
Qed.

Lemma specAdded_In previous new x :
  In x (specAdded previous new) <-> In x new /\ ~ In x previous.
Proof.
  unfold specAdded. rewrite filter_In, negb_true_iff.
  pose proof (existsb_ObjectID_eqb x previous) as H.
  destruct (existsb (ObjectID_eqb x) previous).
  - split; [intros [_ Hf]; discriminate Hf|].
    intros [_ Hn]. exfalso. apply Hn, H. reflexivity.
  - split; intros [Hin _]; (split; [assumption|]); [|reflexivity].
    intros Hp. apply H in Hp. discriminate Hp.
Qed.

Lemma specRemoved_In previous new x :
  In x (specRemoved previous new) <-> In x previous /\ ~ In x new.
Proof.
  unfold specRemoved. rewrite filter_In, negb_true_iff.
  pose proof (existsb_ObjectID_eqb x new) as H.
  destruct (existsb (ObjectID_eqb x) new).
  - split; [intros [_ Hf]; discriminate Hf|].
    intros [_ Hn]. exfalso. apply Hn, H. reflexivity.
  - split; intros [Hin _]; (split; [assumption|]); [|reflexivity].
    intros Hp. apply H in Hp. discriminate Hp.
Qed.

Lemma validateIds_In collection candidates i :
  In i (validateIds collection candidates) -> In i collection.
Proof.
  unfold validateIds. induction candidates as [|c cs IH]; simpl; [tauto|].
  destruct (ObjectID_isValid c); [|exact IH].
  destruct (find _ collection) as [k|] eqn:Hf; [|exact IH].
  simpl. intros [<-|Hin]; [|apply IH; assumption].
  apply find_some in Hf. tauto.
Qed.

Lemma hasEventId_key id x :
  hasEventId id x = true -> Event._id x = castObjectID id.
Proof. apply namedBy_eq. Qed.

Lemma hasLinkId_key id x :
  hasLinkId id x = true -> LinkedEvent._id x = castObjectID id.
Proof. apply namedBy_eq. Qed.

(** With unique keys, the first match is the only match. *)
Lemma updateFirst_updateMany {A K : Type} (key : A -> K) (k : K)
      (p : A -> bool) (f : A -> A) l :
  NoDup (map key l) -> (forall x, p x = true -> key x = k) ->
  updateFirst p f l = updateMany p f l.
Proof.
  intros Hnd Hp. induction l as [|d rest IH]; simpl; [reflexivity|].
  simpl in Hnd. apply NoDup_cons_iff in Hnd. destruct Hnd as [Hd Hrest].
  destruct (p d) eqn:Hpd.
  - f_equal. unfold updateMany. symmetry.
    rewrite <- (map_id rest) at 2. apply map_ext_in.
    intros y Hy. destruct (p y) eqn:Hpy; [|reflexivity].
    exfalso. apply Hd. rewrite (Hp d Hpd), <- (Hp y Hpy).
    apply in_map; assumption.
  - f_equal. apply IH; assumption.
Qed.

Lemma deleteFirst_filter {A K : Type} (key : A -> K) (k : K)
      (p : A -> bool) l :
  NoDup (map key l) -> (forall x, p x = true -> key x = k) ->
  deleteFirst p l = filter (fun x => negb (p x)) l.
Proof.
  intros Hnd Hp. induction l as [|d rest IH]; simpl; [reflexivity|].
  simpl in Hnd. apply NoDup_cons_iff in Hnd. destruct Hnd as [Hd Hrest].
  destruct (p d) eqn:Hpd; simpl.
  - symmetry. apply forallb_filter_id. apply forallb_forall.
    intros y Hy. destruct (p y) eqn:Hpy; [|reflexivity].
    exfalso. apply Hd. rewrite (Hp d Hpd), <- (Hp y Hpy).
    apply in_map; assumption.
  - f_equal. apply IH; assumption.
Qed.

(** *** What each request leaves in the store *)

Lemma createEvent_store validates trim trimInQuery newId user body s :
  snd (createEvent validates trim trimInQuery newId user body s) = s
  \/ exists newEvent,
       Event._id newEvent = newId
       /\ Event.active newEvent = true
       /\ (forall i, In i (Event.linkedTo newEvent) ->
                     In i (map LinkedEvent._id (Store.linkedEvents s)))
       /\ ~ In newId (map Event._id (Store.events s))
       /\ snd (createEvent validates trim trimInQuery newId user body s)
          = Store.mk
              (Store.events s ++ [newEvent])
              (updateMany
                 (fun l => idIn (map IdObj (Event.linkedTo newEvent))
                                (LinkedEvent._id l))
                 (addInclude newId) (Store.linkedEvents s))
              (Store.clubs s) (Store.users s).
Proof.
  unfold createEvent.
  destruct (Role_eqb (ReqUser.role user) RGuest); [left; reflexivity|].
  destruct (truthy (EventBody.date body)) as [eventDate|]; [|left; reflexivity].
  destruct (truthy (EventBody.name body)) as [eventName|]; [|left; reflexivity].
  destruct (negb (matchesDate eventDate)); [left; reflexivity|].
  destruct (findEventByDateName eventDate (trimInQuery eventName) s);
    [left; reflexivity|].
  cbv zeta.
  destruct (validates _ && _ && _) eqn:Hsave; [|left; reflexivity].
  right.
  match goal with |- context [Store.events s ++ [?e]] => exists e end.
  split; [reflexivity|]. split; [reflexivity|].
  cbn [Event.linkedTo snd]. split; [|split; [|reflexivity]].
  - intros i Hi. destruct (EventBody.linkedTo body) as [cands|]; simpl in Hi.
    + apply validateIds_In in Hi. exact Hi.
    + destruct Hi.
  - apply andb_true_iff in Hsave. destruct Hsave as [_ Hfree].
    apply negb_true_iff in Hfree. intros Hin.
    apply in_map_iff in Hin. destruct Hin as [e [Hid He]].
    assert (Hex : existsb (fun e => ObjectID_eqb (Event._id e) newId)
                          (Store.events s) = true).
    { apply existsb_exists. exists e. split; [assumption|].
      apply ObjectID_eqb_eq; assumption. }
    congruence.
Qed.

Lemma createEventLink_store newId user body s :
  snd (createEventLink newId user body s) = s
  \/ exists eventLinkName eventIds,
       (forall i, In i eventIds -> In i (map Event._id (Store.events s)))
       /\ ~ In newId (map LinkedEvent._id (Store.linkedEvents s))
       /\ snd (createEventLink newId user body s)
          = Store.mk
              (updateMany (fun e => idIn (map IdObj eventIds) (Event._id e))
                          (addLinkedTo newId) (Store.events s))
              (Store.linkedEvents s
               ++ [LinkedEvent.mk newId eventLinkName eventIds])
              (Store.clubs s) (Store.users s).
Proof.
  unfold createEventLink.
  destruct (Role_eqb (ReqUser.role user) RGuest); [left; reflexivity|].
  destruct (truthy (LinkBody.displayName body)) as [eventLinkName|];
    [|left; reflexivity].
  destruct (findLinkByName eventLinkName s); [left; reflexivity|].
  destruct (LinkBody.includes body) as [cands|]; [|left; reflexivity].
  cbn [option_map].
  destruct (existsb _ (Store.linkedEvents s)) eqn:Hfree; [left; reflexivity|].
  right. exists eventLinkName, (validateEventIds s cands).
  split; [|split; [|reflexivity]].
  - intros i Hi. apply validateIds_In in Hi. exact Hi.
  - intros Hin. apply in_map_iff in Hin. destruct Hin as [l [Hid Hl]].
    assert (Hex : existsb (fun l => ObjectID_eqb (LinkedEvent._id l) newId)
                          (Store.linkedEvents s) = true).
    { apply existsb_exists. exists l. split; [assumption|].
      apply ObjectID_eqb_eq; assumption. }
    congruence.
Qed.

Lemma updateEvent_store inc trimInQuery user eventid body s candidates :
  EventBody.linkedTo body = Some candidates ->
  snd (updateEvent inc trimInQuery user eventid body s) = s
  \/ exists e f ids addedP removedP,
       findEventById eventid s = Some e
       /\ (forall x, Event._id (f x) = Event._id x)
       /\ (forall x, Event.active (f x) = Event.active x)
       /\ (forall x, Event.linkedTo (f x) = ids)
       /\ (forall i, In i ids -> In i (map LinkedEvent._id (Store.linkedEvents s)))
       /\ (forall x, addedP x = true <-> In x ids /\ ~ In x (Event.linkedTo e))
       /\ (forall x, removedP x = true <-> In x (Event.linkedTo e) /\ ~ In x ids)
       /\ snd (updateEvent inc trimInQuery user eventid body s)
          = Store.mk
              (updateFirst (hasEventId eventid) f (Store.events s))
              (updateMany (fun l => removedP (LinkedEvent._id l))
                          (pullInclude (Event._id e))
                          (updateMany (fun l => addedP (LinkedEvent._id l))
                                      (addInclude (Event._id e))
                                      (Store.linkedEvents s)))
              (Store.clubs s) (Store.users s).
Proof.
  intros Hsupplied. unfold updateEvent.
  destruct (Role_eqb (ReqUser.role user) RGuest); [left; reflexivity|].
  destruct (negb (ObjectID_isValid eventid)); [left; reflexivity|].
  destruct (match truthy (EventBody.date body) with
            | Some d => negb (matchesDate d)
            | None => false
            end); [left; reflexivity|].
  destruct (match EventBody.date body with
            | Some d => _
            | None => false
            end); [left; reflexivity|].
  destruct (findEventById eventid s) as [e|] eqn:Hfind; [|left; reflexivity].
  destruct (updateEvent_allowedToUpdate user e); [|left; reflexivity].
  cbv zeta.
  destruct (numberOfFields _ =? 0)%nat; [left; reflexivity|].
  right.
  set (p := updateEvent_fieldsToUpdate trimInQuery user body s).
  assert (Hp : EventPatch.linkedTo p = Some (validateLinkedEventIds s candidates)).
  { unfold p, updateEvent_fieldsToUpdate. cbn [EventPatch.linkedTo].
    rewrite Hsupplied. reflexivity. }
  exists e, (applySet p), (validateLinkedEventIds s candidates),
    (idIn (updateEvent_addedLinkedEventIds (EventPatch.linkedTo p) e)),
    (idIn (updateEvent_removedLinkedEventIds inc (EventPatch.linkedTo p) e)).
  split; [reflexivity|]. split; [reflexivity|]. split; [reflexivity|].
  split; [intros x; unfold applySet; cbn [Event.linkedTo]; rewrite Hp; reflexivity|].
  split; [intros i Hi; apply validateIds_In in Hi; exact Hi|].
  rewrite Hp. split; [|split; [|reflexivity]].
  - intros x. rewrite idIn_In.
    unfold updateEvent_addedLinkedEventIds, updateEvent_newLinkedEvents,
      updateEvent_currentLinkedEvents.
    rewrite addedIds_supplied. apply specAdded_In.
  - intros x. rewrite idIn_In.
    unfold updateEvent_removedLinkedEventIds, updateEvent_newLinkedEvents,
      updateEvent_currentLinkedEvents.
    rewrite removedIds_supplied. apply specRemoved_In.
Qed.

Lemma updateEventLink_store inc user eventlinkid body s candidates :
  LinkBody.includes body = Some candidates ->
  snd (updateEventLink inc user eventlinkid body s) = s
  \/ exists l0 displayName ids addedP removedP,
       findLinkById eventlinkid s = Some l0
       /\ (forall i, In i ids -> In i (map Event._id (Store.events s)))
       /\ (forall x, addedP x = true
                     <-> In x ids /\ ~ In x (LinkedEvent.includes l0))
       /\ (forall x, removedP x = true
                     <-> In x (LinkedEvent.includes l0) /\ ~ In x ids)
       /\ snd (updateEventLink inc user eventlinkid body s)
          = Store.mk
              (updateMany (fun e => removedP (Event._id e))
                          (pullLinkedTo (LinkedEvent._id l0))
                          (updateMany (fun e => addedP (Event._id e))
                                      (addLinkedTo (LinkedEvent._id l0))
                                      (Store.events s)))
              (updateFirst (hasLinkId eventlinkid)
                           (fun _ => LinkedEvent.mk (LinkedEvent._id l0)
                                                    displayName ids)
                           (Store.linkedEvents s))
              (Store.clubs s) (Store.users s).
Proof.
  intros Hsupplied. unfold updateEventLink.
  destruct (Role_eqb (ReqUser.role user) RGuest); [left; reflexivity|].
  destruct (negb (ObjectID_isValid eventlinkid)); [left; reflexivity|].
  destruct (findLinkById eventlinkid s) as [l0|] eqn:Hfind; [|left; reflexivity].
  rewrite Hsupplied. cbn [option_map isSome orElse]. cbv zeta.
  destruct (_ =? 0)%nat; [left; reflexivity|].
  destruct (match _ with Some n => isSome (findLinkByName n s) | None => false end);
    [left; reflexivity|].
  right.
  eexists l0, _, (validateEventIds s candidates),
    (idIn (updateEventLink_addedEventIds
             (Some (validateEventIds s candidates)) l0)),
    (idIn (updateEventLink_removedEventIds inc
             (Some (validateEventIds s candidates)) l0)).
  split; [reflexivity|].
  split; [intros i Hi; apply validateIds_In in Hi; exact Hi|].
  split; [|split; [|reflexivity]].
  - intros x. rewrite idIn_In.
    unfold updateEventLink_addedEventIds, updateEventLink_newIncludes,
      updateEventLink_currentIncludes.
    rewrite addedIds_supplied. apply specAdded_In.
  - intros x. rewrite idIn_In.
    unfold updateEventLink_removedEventIds, updateEventLink_newIncludes,
      updateEventLink_currentIncludes.
    rewrite removedIds_supplied. apply specRemoved_In.
Qed.

Lemma deleteEvent_store now user eventid s :
  snd (deleteEvent now user eventid s) = s
  \/ exists e newName newOrisId,
       findEventById eventid s = Some e
       /\ snd (deleteEvent now user eventid s)
          = Store.mk
              (updateFirst (hasEventId eventid) (setDeleted newName newOrisId)
                           (Store.events s))
              (updateMany (fun _ => true) (pullInclude (Event._id e))
                          (Store.linkedEvents s))
              (Store.clubs s) (Store.users s).
Proof.
  unfold deleteEvent.
  destruct (negb (ObjectID_isValid eventid)); [left; reflexivity|].
  destruct (findEventById eventid s) as [e|] eqn:Hfind; [|left; reflexivity].
  cbv zeta. destruct (_ && _); [|left; reflexivity].
  destruct (orisIdHeldElsewhere eventid _ s); [left; reflexivity|].
  right. eexists e, _, _. split; reflexivity.
Qed.

Lemma deleteEventLink_store user eventlinkid s :
  snd (deleteEventLink user eventlinkid s) = s
  \/ exists l0,
       findLinkById eventlinkid s = Some l0
       /\ snd (deleteEventLink user eventlinkid s)
          = Store.mk
              (updateMany
                 (fun e => idIn (map IdObj (LinkedEvent.includes l0))
                                (Event._id e))
                 (pullLinkedTo (LinkedEvent._id l0)) (Store.events s))
              (deleteFirst (hasLinkId eventlinkid) (Store.linkedEvents s))
              (Store.clubs s) (Store.users s).
Proof.
  unfold deleteEventLink.
  destruct (negb (ObjectID_isValid eventlinkid)); [left; reflexivity|].
  destruct (Role_eqb (ReqUser.role user) RAdmin); [|left; reflexivity].
  destruct (findLinkById eventlinkid s) as [l0|] eqn:Hfind; [|left; reflexivity].
  right. exists l0. split; reflexivity.
Qed.

(** *** Each request keeps the invariant *)

Lemma NoDup_map_filter {A K : Type} (key : A -> K) (p : A -> bool) l :
  NoDup (map key l) -> NoDup (map key (filter p l)).
Proof.
  induction l as [|d rest IH]; simpl; [intros; constructor|].
  intros Hnd. apply NoDup_cons_iff in Hnd. destruct Hnd as [Hd Hrest].
  destruct (p d); simpl; [|apply IH; assumption].
  constructor; [|apply IH; assumption].
  intros Hin. apply Hd. apply in_map_iff in Hin.
  destruct Hin as [x [Hx Hin]]. apply filter_In in Hin.
  rewrite <- Hx. apply in_map. tauto.
Qed.

Lemma resolves_event i (es : list StoredEvent) :
  (exists e, In e es /\ Event._id e = i) <-> In i (map Event._id es).
Proof.
  rewrite in_map_iff. split; intros [e [H1 H2]]; exists e; tauto.
Qed.

Lemma resolves_link i (ls : list LinkedEvent.t) :
  (exists l, In l ls /\ LinkedEvent._id l = i) <-> In i (map LinkedEvent._id ls).
Proof.
  rewrite in_map_iff. split; intros [l [H1 H2]]; exists l; tauto.
Qed.

Lemma find_hasEventId id s e :
  findEventById id s = Some e ->
  In e (Store.events s) /\ Event._id e = castObjectID id.
Proof.
  unfold findEventById. intros H. apply find_some in H.
  destruct H as [Hin Hid]. split; [assumption | apply hasEventId_key; assumption].
Qed.

Lemma find_hasLinkId id s l :
  findLinkById id s = Some l ->
  In l (Store.linkedEvents s) /\ LinkedEvent._id l = castObjectID id.
Proof.
  unfold findLinkById. intros H. apply find_some in H.
  destruct H as [Hin Hid]. split; [assumption | apply hasLinkId_key; assumption].
Qed.

Lemma hasEventId_iff id x :
  hasEventId id x = true <-> Event._id x = castObjectID id.
Proof. apply namedBy_eq. Qed.

Lemma hasLinkId_iff id x :
  hasLinkId id x = true <-> LinkedEvent._id x = castObjectID id.
Proof. apply namedBy_eq. Qed.

Lemma deleteEvent_consistent now user eventid s :
  consistent s -> consistent (snd (deleteEvent now user eventid s)).
Proof.
  intros Hs.
  destruct (deleteEvent_store now user eventid s)
    as [-> | (e0 & newName & newOrisId & Hfind & ->)]; [assumption|].
  destruct Hs as ((Hue & Hul) & Hsym & Hlinks & Hincl).
  apply find_hasEventId in Hfind. destruct Hfind as [Hin0 Hid0].
  rewrite (updateFirst_updateMany Event._id (castObjectID eventid))
    by (assumption || apply hasEventId_key).
  split; [|split; [|split]].
  - split; cbn [Store.events Store.linkedEvents].
    + rewrite map_updateMany by reflexivity. assumption.
    + rewrite map_updateMany by reflexivity. assumption.
  - intros e' l' He' Hact Hl'. cbn [Store.events Store.linkedEvents] in *.
    apply in_updateMany in He'. destruct He' as [e [He ->]].
    apply in_updateMany in Hl'. destruct Hl' as [l [Hl ->]].
    destruct (hasEventId eventid e) eqn:Hh; [discriminate Hact|].
    cbn [pullInclude setLinkIncludes LinkedEvent.includes LinkedEvent._id].
    rewrite in_pull, <- (Hsym e l He Hact Hl).
    split; [tauto|]. intros H. split; [assumption|].
    intros Heq. rewrite Hid0 in Heq. apply hasEventId_iff in Heq. congruence.
  - intros e' i He' Hact Hi. cbn [Store.events Store.linkedEvents] in *.
    apply in_updateMany in He'. destruct He' as [e [He ->]].
    destruct (hasEventId eventid e) eqn:Hh; [discriminate Hact|].
    apply resolves_link. rewrite map_updateMany by reflexivity.
    apply resolves_link. apply (Hlinks e i He Hact Hi).
  - intros l' i Hl' Hi. cbn [Store.events Store.linkedEvents] in *.
    apply in_updateMany in Hl'. destruct Hl' as [l [Hl ->]].
    cbn [pullInclude setLinkIncludes LinkedEvent.includes] in Hi.
    apply in_pull in Hi. destruct Hi as [Hi _].
    apply resolves_event. rewrite map_updateMany by reflexivity.
    apply resolves_event. apply (Hincl l i Hl Hi).
Qed.

Lemma deleteEventLink_consistent user eventlinkid s :
  consistent s -> consistent (snd (deleteEventLink user eventlinkid s)).
Proof.
  intros Hs.
  destruct (deleteEventLink_store user eventlinkid s)
    as [-> | (l0 & Hfind & ->)]; [assumption|].
  destruct Hs as ((Hue & Hul) & Hsym & Hlinks & Hincl).
  apply find_hasLinkId in Hfind. destruct Hfind as [Hin0 Hid0].
  rewrite (deleteFirst_filter LinkedEvent._id (castObjectID eventlinkid))
    by (assumption || apply hasLinkId_key).
  split; [|split; [|split]].
  - split; cbn [Store.events Store.linkedEvents].
    + rewrite map_updateMany by reflexivity. assumption.
    + apply NoDup_map_filter. assumption.
  - intros e' l' He' Hact Hl'. cbn [Store.events Store.linkedEvents] in *.
    apply in_updateMany in He'. destruct He' as [e [He ->]].
    apply filter_In in Hl'. destruct Hl' as [Hl' Hne].
    apply negb_true_iff in Hne.
    assert (Hid : LinkedEvent._id l' <> LinkedEvent._id l0).
    { intros Heq. rewrite Hid0 in Heq. apply hasLinkId_iff in Heq. congruence. }
    destruct (idIn _ (Event._id e)) eqn:Hc.
    + cbn [pullLinkedTo setEventLinkedTo Event.linkedTo Event._id Event.active] in *.
      rewrite in_pull, (Hsym e l' He Hact Hl'). tauto.
    + apply Hsym; assumption.
  - intros e' i He' Hact Hi. cbn [Store.events Store.linkedEvents] in *.
    apply in_updateMany in He'. destruct He' as [e [He ->]].
    assert (Hi' : In i (Event.linkedTo e) /\ i <> LinkedEvent._id l0).
    { destruct (idIn _ (Event._id e)) eqn:Hc.
      - cbn [pullLinkedTo setEventLinkedTo Event.linkedTo] in Hi.
        apply in_pull in Hi. exact Hi.
      - split; [assumption|]. intros ->.
        apply (Hsym e l0 He Hact Hin0) in Hi.
        apply idIn_IdObj in Hi. congruence. }
    assert (Hact' : Event.active e = true)
      by (destruct (idIn _ (Event._id e)); exact Hact).
    destruct Hi' as [Hi' Hne].
    destruct (Hlinks e i He Hact' Hi') as [l [Hl Hidl]].
    exists l. split; [|assumption]. apply filter_In. split; [assumption|].
    apply negb_true_iff. destruct (hasLinkId eventlinkid l) eqn:Hh; [|reflexivity].
    apply hasLinkId_iff in Hh. congruence.
  - intros l' i Hl' Hi. cbn [Store.events Store.linkedEvents] in *.
    apply filter_In in Hl'. destruct Hl' as [Hl' _].
    apply resolves_event. rewrite map_updateMany by reflexivity.
    apply resolves_event. apply (Hincl l' i Hl' Hi).
Qed.

Lemma createEvent_consistent validates trim trimInQuery newId user body s :
  consistent s ->
  consistent (snd (createEvent validates trim trimInQuery newId user body s)).
Proof.
  intros Hs.
  destruct (createEvent_store validates trim trimInQuery newId user body s)
    as [-> | (ne & Hid & Hactive & Hresolve & Hfresh & ->)]; [assumption|].
  destruct Hs as ((Hue & Hul) & Hsym & Hlinks & Hincl).
  split; [|split; [|split]].
  - split; cbn [Store.events Store.linkedEvents].
    + rewrite map_app. apply NoDup_app; [assumption| |].
      * simpl. constructor; [tauto | constructor].
      * intros a Ha [<-|[]]. rewrite Hid in Ha. contradiction.
    + rewrite map_updateMany by reflexivity. assumption.
  - intros e' l' He' Hact Hl'. cbn [Store.events Store.linkedEvents] in *.
    apply in_updateMany in Hl'. destruct Hl' as [l [Hl ->]].
    assert (Hnew : ~ In newId (LinkedEvent.includes l)).
    { intros Hin. apply Hfresh. apply resolves_event.
      apply (Hincl l newId Hl Hin). }
    apply in_app_or in He'. destruct He' as [He'|[<-|[]]].
    + assert (Hne : Event._id e' <> newId).
      { intros Heq. apply Hfresh. rewrite <- Heq. apply in_map; assumption. }
      destruct (idIn _ (LinkedEvent._id l)).
      * cbn [addInclude setLinkIncludes LinkedEvent.includes LinkedEvent._id].
        rewrite in_addToSet, <- (Hsym e' l He' Hact Hl). tauto.
      * apply Hsym; assumption.
    + rewrite Hid.
      destruct (idIn _ (LinkedEvent._id l)) eqn:Hc.
      * cbn [addInclude setLinkIncludes LinkedEvent.includes LinkedEvent._id].
        rewrite in_addToSet. apply idIn_IdObj in Hc. tauto.
      * split; [contradiction|]. intros Hin.
        apply idIn_IdObj in Hin. congruence.
  - intros e' i He' Hact Hi. cbn [Store.events Store.linkedEvents] in *.
    apply resolves_link. rewrite map_updateMany by reflexivity.
    apply in_app_or in He'. destruct He' as [He'|[<-|[]]].
    + apply resolves_link. apply (Hlinks e' i He' Hact Hi).
    + apply Hresolve; assumption.
  - intros l' i Hl' Hi. cbn [Store.events Store.linkedEvents] in *.
    apply in_updateMany in Hl'. destruct Hl' as [l [Hl ->]].
    apply resolves_event. rewrite map_app, in_app_iff. simpl.
    destruct (idIn _ (LinkedEvent._id l)).
    + cbn [addInclude setLinkIncludes LinkedEvent.includes] in Hi.
      apply in_addToSet in Hi. destruct Hi as [Hi| ->].
      * left. apply resolves_event. apply (Hincl l i Hl Hi).
      * right. left. assumption.
    + left. apply resolves_event. apply (Hincl l i Hl Hi).
Qed.

Lemma createEventLink_consistent newId user body s :
  consistent s -> consistent (snd (createEventLink newId user body s)).
Proof.
  intros Hs.
  destruct (createEventLink_store newId user body s)
    as [-> | (name & eids & Hresolve & Hfresh & ->)]; [assumption|].
  destruct Hs as ((Hue & Hul) & Hsym & Hlinks & Hincl).
  split; [|split; [|split]].
  - split; cbn [Store.events Store.linkedEvents].
    + rewrite map_updateMany by reflexivity. assumption.
    + rewrite map_app. apply NoDup_app; [assumption| |].
      * simpl. constructor; [tauto | constructor].
      * intros a Ha [<-|[]]. contradiction.
  - intros e' l' He' Hact Hl'. cbn [Store.events Store.linkedEvents] in *.
    apply in_updateMany in He'. destruct He' as [e [He ->]].
    assert (Hact0 : Event.active e = true)
      by (destruct (idIn _ (Event._id e)); exact Hact).
    assert (Hnew : ~ In newId (Event.linkedTo e)).
    { intros Hin. apply Hfresh. apply resolves_link.
      apply (Hlinks e newId He Hact0 Hin). }
    apply in_app_or in Hl'. destruct Hl' as [Hl'|[<-|[]]].
    + assert (Hne : LinkedEvent._id l' <> newId).
      { intros Heq. apply Hfresh. rewrite <- Heq. apply in_map; assumption. }
      destruct (idIn _ (Event._id e)).
      * cbn [addLinkedTo setEventLinkedTo Event.linkedTo Event._id].
        rewrite in_addToSet, (Hsym e l' He Hact0 Hl'). tauto.
      * apply Hsym; assumption.
    + cbn [LinkedEvent.includes LinkedEvent._id].
      destruct (idIn _ (Event._id e)) eqn:Hc.
      * cbn [addLinkedTo setEventLinkedTo Event.linkedTo Event._id].
        rewrite in_addToSet. apply idIn_IdObj in Hc. tauto.
      * split; [|contradiction]. intros Hin.
        apply idIn_IdObj in Hin. congruence.
  - intros e' i He' Hact Hi. cbn [Store.events Store.linkedEvents] in *.
    apply in_updateMany in He'. destruct He' as [e [He ->]].
    apply resolves_link. rewrite map_app, in_app_iff. simpl.
    destruct (idIn _ (Event._id e)).
    + cbn [addLinkedTo setEventLinkedTo Event.linkedTo Event.active] in *.
      apply in_addToSet in Hi. destruct Hi as [Hi| ->].
      * left. apply resolves_link. apply (Hlinks e i He Hact Hi).
      * right. left. reflexivity.
    + left. apply resolves_link. apply (Hlinks e i He Hact Hi).
  - intros l' i Hl' Hi. cbn [Store.events Store.linkedEvents] in *.
    apply resolves_event. rewrite map_updateMany by reflexivity.
    apply in_app_or in Hl'. destruct Hl' as [Hl'|[<-|[]]].
    + apply resolves_event. apply (Hincl l' i Hl' Hi).
    + apply Hresolve. exact Hi.
Qed.

Lemma map_updateMany_if {A B : Type} (key : A -> B) (p : A -> bool)
      (f : A -> A) l :
  (forall x, p x = true -> key (f x) = key x) ->
  map key (updateMany p f l) = map key l.
Proof.
  intros Hkey. unfold updateMany. rewrite map_map. apply map_ext.
  intros d. destruct (p d) eqn:Hd; [apply Hkey; assumption | reflexivity].
Qed.

Lemma NoDup_map_inj {A K : Type} (key : A -> K) l x y :
  NoDup (map key l) -> In x l -> In y l -> key x = key y -> x = y.
Proof.
  induction l as [|d rest IH]; simpl; [tauto|].
  intros Hnd Hx Hy Heq. apply NoDup_cons_iff in Hnd. destruct Hnd as [Hd Hrest].
  destruct Hx as [->|Hx], Hy as [->|Hy].
  - reflexivity.
  - exfalso. apply Hd. rewrite Heq. apply in_map; assumption.
  - exfalso. apply Hd. rewrite <- Heq. apply in_map; assumption.
  - apply IH; assumption.
Qed.

Lemma In_ObjectID_dec (x : ObjectID) l : In x l \/ ~ In x l.
Proof.
  pose proof (existsb_ObjectID_eqb x l) as H.
  destruct (existsb (ObjectID_eqb x) l).
  - left. apply H. reflexivity.
  - right. intros Hin. apply H in Hin. discriminate Hin.
Qed.

(** A linked event after the mirror step of an event update. *)
Lemma in_mirrored_links x (addedP removedP : ObjectID -> bool) links l' :
  In l' (updateMany (fun l => removedP (LinkedEvent._id l)) (pullInclude x)
           (updateMany (fun l => addedP (LinkedEvent._id l)) (addInclude x)
                       links)) ->
  exists l,
    In l links
    /\ LinkedEvent._id l' = LinkedEvent._id l
    /\ forall y, In y (LinkedEvent.includes l')
                 <-> (In y (LinkedEvent.includes l)
                      \/ (y = x /\ addedP (LinkedEvent._id l) = true))
                     /\ (removedP (LinkedEvent._id l) = true -> y <> x).
Proof.
  intros H. apply in_updateMany in H. destruct H as [l1 [H1 ->]].
  apply in_updateMany in H1. destruct H1 as [l [Hl ->]].
  exists l. split; [assumption|].
  destruct (addedP (LinkedEvent._id l)) eqn:Ha;
    cbn [addInclude setLinkIncludes LinkedEvent._id];
    destruct (removedP (LinkedEvent._id l)) eqn:Hr;
    cbn [pullInclude addInclude setLinkIncludes LinkedEvent._id
         LinkedEvent.includes];
    (split; [reflexivity|]); intros y;
    rewrite ?in_pull, ?in_addToSet; intuition congruence.
Qed.

(** An event after the mirror step of a linked event update. *)
Lemma in_mirrored_events x (addedP removedP : ObjectID -> bool) events e' :
  In e' (updateMany (fun e => removedP (Event._id e)) (pullLinkedTo x)
           (updateMany (fun e => addedP (Event._id e)) (addLinkedTo x)
                       events)) ->
  exists e,
    In e events
    /\ Event._id e' = Event._id e
    /\ Event.active e' = Event.active e
    /\ forall y, In y (Event.linkedTo e')
                 <-> (In y (Event.linkedTo e)
                      \/ (y = x /\ addedP (Event._id e) = true))
                     /\ (removedP (Event._id e) = true -> y <> x).
Proof.
  intros H. apply in_updateMany in H. destruct H as [e1 [H1 ->]].
  apply in_updateMany in H1. destruct H1 as [e [He ->]].
  exists e. split; [assumption|].
  destruct (addedP (Event._id e)) eqn:Ha;
    cbn [addLinkedTo setEventLinkedTo Event._id];
    destruct (removedP (Event._id e)) eqn:Hr;
    cbn [pullLinkedTo addLinkedTo setEventLinkedTo Event._id Event.active
         Event.linkedTo];
    (split; [reflexivity|]); (split; [reflexivity|]); intros y;
    rewrite ?in_pull, ?in_addToSet; intuition congruence.
Qed.

(** The delta decides, for a reference [r] of the mirror side, whether the
    updated document is referred to afterwards. *)
Lemma delta_membership (r : ObjectID) (previous ids : list ObjectID)
      (a b : bool) (before : Prop) :
  (a = true <-> In r ids /\ ~ In r previous) ->
  (b = true <-> In r previous /\ ~ In r ids) ->
  (before <-> In r previous) ->
  ((before \/ a = true) /\ (b = true -> False) <-> In r ids).
Proof.
  intros Ha Hb Hbefore.
  destruct (In_ObjectID_dec r ids) as [Hi|Hi],
           (In_ObjectID_dec r previous) as [Hp|Hp]; tauto.
Qed.

Lemma updateEvent_consistent inc trimInQuery user eventid body s :
  suppliesReferences (UpdateEvent user eventid body) = true ->
  consistent s ->
  consistent (snd (updateEvent inc trimInQuery user eventid body s)).
Proof.
  intros Hsup Hs. simpl in Hsup.
  destruct (EventBody.linkedTo body) as [candidates|] eqn:Hbody;
    [|discriminate Hsup].
  destruct (updateEvent_store inc trimInQuery user eventid body s candidates
                              Hbody)
    as [-> | (e0 & f & ids & addedP & removedP & Hfind & Hfid & Hfact & Hflinks
              & Hresolve & Hadded & Hremoved & ->)]; [assumption|].
  destruct Hs as ((Hue & Hul) & Hsym & Hlinks & Hincl).
  apply find_hasEventId in Hfind. destruct Hfind as [Hin0 Hid0].
  rewrite (updateFirst_updateMany Event._id (castObjectID eventid))
    by (assumption || apply hasEventId_key).
  split; [|split; [|split]].
  - split; cbn [Store.events Store.linkedEvents].
    + rewrite map_updateMany by assumption. assumption.
    + rewrite !map_updateMany by reflexivity. assumption.
  - intros e' l' He' Hact Hl'. cbn [Store.events Store.linkedEvents] in *.
    apply in_updateMany in He'. destruct He' as [e [He ->]].
    apply in_mirrored_links in Hl'. destruct Hl' as (l & Hl & -> & Hmem).
    rewrite Hmem.
    destruct (hasEventId eventid e) eqn:Hh.
    + apply hasEventId_iff in Hh.
      assert (e = e0)
        by (apply (NoDup_map_inj Event._id (Store.events s)); congruence).
      subst e. rewrite Hfid, Hflinks. rewrite Hfact in Hact.
      pose proof (delta_membership (LinkedEvent._id l) (Event.linkedTo e0) ids
                    _ _ _ (Hadded _) (Hremoved _) (Hsym e0 l Hin0 Hact Hl))
        as Hdelta.
      rewrite <- Hdelta. intuition congruence.
    + rewrite <- (Hsym e l He Hact Hl).
      assert (Hne : Event._id e <> Event._id e0).
      { intros Heq. rewrite Hid0 in Heq. apply hasEventId_iff in Heq. congruence. }
      tauto.
  - intros e' i He' Hact Hi. cbn [Store.events Store.linkedEvents] in *.
    apply in_updateMany in He'. destruct He' as [e [He ->]].
    apply resolves_link. rewrite !map_updateMany by reflexivity.
    destruct (hasEventId eventid e).
    + rewrite Hflinks in Hi. apply Hresolve; assumption.
    + apply resolves_link. apply (Hlinks e i He Hact Hi).
  - intros l' i Hl' Hi. cbn [Store.events Store.linkedEvents] in *.
    apply in_mirrored_links in Hl'. destruct Hl' as (l & Hl & _ & Hmem).
    apply Hmem in Hi. destruct Hi as [[Hi|[-> _]] _];
      apply resolves_event; rewrite map_updateMany by assumption.
    + apply resolves_event. apply (Hincl l i Hl Hi).
    + apply in_map; assumption.
Qed.

Lemma updateEventLink_consistent inc user eventlinkid body s :
  suppliesReferences (UpdateEventLink user eventlinkid body) = true ->
  consistent s -> consistent (snd (updateEventLink inc user eventlinkid body s)).
Proof.
  intros Hsup Hs. simpl in Hsup.
  destruct (LinkBody.includes body) as [candidates|] eqn:Hbody;
    [|discriminate Hsup].
  destruct (updateEventLink_store inc user eventlinkid body s candidates Hbody)
    as [-> | (l0 & name & ids & addedP & removedP & Hfind & Hresolve
              & Hadded & Hremoved & ->)]; [assumption|].
  destruct Hs as ((Hue & Hul) & Hsym & Hlinks & Hincl).
  apply find_hasLinkId in Hfind. destruct Hfind as [Hin0 Hid0].
  rewrite (updateFirst_updateMany LinkedEvent._id (castObjectID eventlinkid))
    by (assumption || apply hasLinkId_key).
  assert (Hkeys : map LinkedEvent._id
                      (updateMany (hasLinkId eventlinkid)
                         (fun _ => LinkedEvent.mk (LinkedEvent._id l0) name ids)
                         (Store.linkedEvents s))
                  = map LinkedEvent._id (Store.linkedEvents s)).
  { apply map_updateMany_if. intros x Hx. apply hasLinkId_key in Hx.
    simpl. congruence. }
  split; [|split; [|split]].
  - split; cbn [Store.events Store.linkedEvents].
    + rewrite !map_updateMany by reflexivity. assumption.
    + rewrite Hkeys. assumption.
  - intros e' l' He' Hact Hl'. cbn [Store.events Store.linkedEvents] in *.
    apply in_mirrored_events in He'.
    destruct He' as (e & He & Heid & Heact & Hmem).
    rewrite Heact in Hact. rewrite Heid, Hmem.
    apply in_updateMany in Hl'. destruct Hl' as [l [Hl ->]].
    destruct (hasLinkId eventlinkid l) eqn:Hh.
    + cbn [LinkedEvent.includes LinkedEvent._id].
      assert (Hold : In (LinkedEvent._id l0) (Event.linkedTo e)
                     <-> In (Event._id e) (LinkedEvent.includes l0))
        by (symmetry; apply Hsym; assumption).
      pose proof (delta_membership (Event._id e) (LinkedEvent.includes l0) ids
                    _ _ _ (Hadded _) (Hremoved _) Hold) as Hdelta.
      rewrite <- Hdelta. intuition congruence.
    + rewrite (Hsym e l He Hact Hl).
      assert (Hne : LinkedEvent._id l <> LinkedEvent._id l0).
      { intros Heq. rewrite Hid0 in Heq. apply hasLinkId_iff in Heq. congruence. }
      tauto.
  - intros e' i He' Hact Hi. cbn [Store.events Store.linkedEvents] in *.
    apply in_mirrored_events in He'.
    destruct He' as (e & He & Heid & Heact & Hmem).
    rewrite Heact in Hact. apply Hmem in Hi.
    apply resolves_link. rewrite Hkeys.
    destruct Hi as [[Hi|[-> _]] _].
    + apply resolves_link. apply (Hlinks e i He Hact Hi).
    + apply in_map; assumption.
  - intros l' i Hl' Hi. cbn [Store.events Store.linkedEvents] in *.
    apply in_updateMany in Hl'. destruct Hl' as [l [Hl ->]].
    apply resolves_event. rewrite !map_updateMany by reflexivity.
    destruct (hasLinkId eventlinkid l).
    + apply Hresolve. exact Hi.
    + apply resolves_event. apply (Hincl l i Hl Hi).
Qed.

Lemma perform_consistent inc validates trim trimInQuery s op :
  suppliesReferences op = true ->
  consistent s -> consistent (perform inc validates trim trimInQuery s op).
Proof.
  intros Hsup Hs. destruct op; cbn [perform].
  - apply createEvent_consistent; assumption.
  - apply createEventLink_consistent; assumption.
  - apply updateEvent_consistent; assumption.
  - apply updateEventLink_consistent; assumption.
  - apply deleteEvent_consistent; assumption.
  - apply deleteEventLink_consistent; assumption.
Qed.

Lemma run_consistent inc validates trim trimInQuery ops :
  forall s, forallb suppliesReferences ops = true ->
            consistent s ->
            consistent (run inc validates trim trimInQuery ops s).
Proof.
  unfold run. induction ops as [|op ops IH]; intros s Hsup Hs; simpl.
  - assumption.
  - simpl in Hsup. apply andb_true_iff in Hsup. destruct Hsup as [Hop Hops].
    apply IH; [assumption|]. apply perform_consistent; assumption.
Qed.

Lemma emptyStore_consistent : consistent emptyStore.
Proof.
  split; [split; constructor|].
  split; [intros e l []|]. split; [intros e i []|]. intros l i [].
Qed.

(** C4, counterexample: once the Spring Cup is created, linked into
    "Easter" and deleted, it still names "Easter" in its [linkedTo] while
    "Easter" no longer includes it; and an event created with a series
    named twice holds the reference twice. *)
Lemma C4_deleted_event_keeps_its_links :
  consistentAsClaimed emptyStore
  /\ (exists e l,
        In e (Store.events (run includesByValue acceptAll noTrim noTrim
                                cupLinkedAndDeleted emptyStore))
        /\ In l (Store.linkedEvents (run includesByValue acceptAll noTrim noTrim
                                         cupLinkedAndDeleted emptyStore))
        /\ In (LinkedEvent._id l) (Event.linkedTo e)
        /\ ~ In (Event._id e) (LinkedEvent.includes l))
  /\ ~ symmetric (run includesByValue acceptAll noTrim noTrim cupLinkedAndDeleted emptyStore)
  /\ ~ noDuplicates (run includesByValue acceptAll noTrim noTrim seriesNamedTwice emptyStore).
Proof.
  split.
  { split; [intros e l []|]. split.
    - split; [intros e i []|intros l i []].
    - split; [intros e []|intros l []]. }
  assert (Hex : exists e l,
        In e (Store.events (run includesByValue acceptAll noTrim noTrim
                                cupLinkedAndDeleted emptyStore))
        /\ In l (Store.linkedEvents (run includesByValue acceptAll noTrim noTrim
                                         cupLinkedAndDeleted emptyStore))
        /\ In (LinkedEvent._id l) (Event.linkedTo e)
        /\ ~ In (Event._id e) (LinkedEvent.includes l)).
  { exists (Event.mk eventA bobId "2019-04-06"
                     "Spring Cup deleted:02112026@0905" None [] [linkL] [] []
                     false),
           (LinkedEvent.mk linkL "Easter" []).
    split; [left; reflexivity|]. split; [left; reflexivity|].
    split; [left; reflexivity|]. intros []. }
  split; [exact Hex|]. split.
  - intros Hsym. destruct Hex as (e & l & He & Hl & Hlinked & Hnot).
    apply Hnot. apply (Hsym e l He Hl). assumption.
  - intros [Hdup _].
    specialize (Hdup (Event.mk eventA bobId "2019-04-06" "Spring Cup" None []
                               [linkL; linkL] [] [] true)
                     (or_introl eq_refl)).
    cbn [Event.linkedTo] in Hdup. apply NoDup_cons_iff in Hdup.
    destruct Hdup as [Hdup _]. apply Hdup. left; reflexivity.
Qed.

(** C4 as amended: starting from a consistent store, after any finite
    sequence of Create, Update and Delete requests on events and linked
    events in which every update supplies its reference list, for every
    active event [e] and every linked event [l], the id of [e] is in
    [l.includes] exactly when the id of [l] is in [e.linkedTo]; every id in
    the [linkedTo] of an active event names a stored linked event, and
    every id in an [includes] names a stored event. *)
Theorem C4_active_reference_graph_stays_symmetric :
  forall (inc : list ObjectID -> string -> bool)
         (validates : StoredEvent -> bool)
         (trim trimInQuery : string -> string)
         (ops : list Operation) (s : Store.t),
    consistent s ->
    forallb suppliesReferences ops = true ->
    activeSymmetric (run inc validates trim trimInQuery ops s)
    /\ activeLinksResolve (run inc validates trim trimInQuery ops s)
    /\ includesResolve (run inc validates trim trimInQuery ops s).
Proof.
  intros inc validates trim trimInQuery ops s Hs Hsup.
  destruct (run_consistent inc validates trim trimInQuery ops s Hsup Hs)
    as (_ & Hsym & Hlinks & Hincl).
  split; [exact Hsym|]. split; [exact Hlinks | exact Hincl].
Qed.

Lemma C4_witness :
  consistent emptyStore
  /\ forallb suppliesReferences bobsSeason = true
  /\ activeSymmetric (run includesByValue acceptAll noTrim noTrim bobsSeason emptyStore)
  /\ activeLinksResolve (run includesByValue acceptAll noTrim noTrim bobsSeason emptyStore)
  /\ includesResolve (run includesByValue acceptAll noTrim noTrim bobsSeason emptyStore).
Proof.
  split; [exact emptyStore_consistent|]. split; [reflexivity|].
  exact (C4_active_reference_graph_stays_symmetric
           includesByValue acceptAll noTrim noTrim bobsSeason emptyStore
           emptyStore_consistent eq_refl).
Defined.

(** * Further properties of the controllers *)

(** ** Validation of ids *)

Lemma find_namedBy collection c k :
  find (namedBy c) collection = Some k -> k = castObjectID c.
Proof.
  intros H. apply find_some in H. destruct H as [_ H].
  apply namedBy_eq, H.
Qed.

Lemma find_namedBy_existsb collection c :
  find (namedBy c) collection = None
  <-> existsb (namedBy c) collection = false.
Proof.
  induction collection as [|k rest IH]; simpl; [tauto|].
  destruct (namedBy c k); simpl; [split; discriminate | exact IH].
Qed.

Lemma validateIds_filter collection candidates :
  validateIds collection candidates
  = map castObjectID (filter (knownCandidate collection) candidates).
Proof.
  unfold validateIds, knownCandidate.
  induction candidates as [|c rest IH]; simpl; [reflexivity|].
  destruct (ObjectID_isValid c); simpl; [|exact IH].
  destruct (find (namedBy c) collection) as [k|] eqn:Hf.
  - assert (Hex : existsb (namedBy c) collection = true).
    { destruct (existsb _ collection) eqn:Hex; [reflexivity|].
      apply find_namedBy_existsb in Hex. congruence. }
    rewrite Hex. simpl. apply find_namedBy in Hf. subst k.
    rewrite IH. reflexivity.
  - apply find_namedBy_existsb in Hf. rewrite Hf. simpl. exact IH.
Qed.

(** *** The string form of a cast id *)

Ltac by_cases_on_the_byte c :=
  destruct c as [[] [] [] [] [] [] [] []]; reflexivity.

Lemma lowerHexDigit_again c :
  lowerHexDigit (lowerHexDigit c) = lowerHexDigit c.
Proof. by_cases_on_the_byte c. Qed.

Lemma lowerHexDigit_isHexDigit c :
  implb (isHexDigit c) (isHexDigit (lowerHexDigit c)) = true.
Proof. by_cases_on_the_byte c. Qed.

Lemma hexDigit_high c :
  isHexDigit (hexDigit (nat_of_ascii c / 16)) = true
  /\ lowerHexDigit (hexDigit (nat_of_ascii c / 16))
     = hexDigit (nat_of_ascii c / 16).
Proof. split; by_cases_on_the_byte c. Qed.

Lemma hexDigit_low c :
  isHexDigit (hexDigit (nat_of_ascii c mod 16)) = true
  /\ lowerHexDigit (hexDigit (nat_of_ascii c mod 16))
     = hexDigit (nat_of_ascii c mod 16).
Proof. split; by_cases_on_the_byte c. Qed.

Lemma lowerHex_length s : String.length (lowerHex s) = String.length s.
Proof. induction s as [|c s IH]; simpl; [|rewrite IH]; reflexivity. Qed.

Lemma lowerHex_again s : lowerHex (lowerHex s) = lowerHex s.
Proof.
  induction s as [|c s IH]; simpl; [reflexivity|].
  rewrite lowerHexDigit_again, IH. reflexivity.
Qed.

Lemma lowerHex_isHexDigit s :
  forallb isHexDigit (list_ascii_of_string s) = true ->
  forallb isHexDigit (list_ascii_of_string (lowerHex s)) = true.
Proof.
  induction s as [|c s IH]; simpl; [reflexivity|].
  intros H. apply andb_true_iff in H. destruct H as [Hc Hs].
  pose proof (lowerHexDigit_isHexDigit c) as Himp. rewrite Hc in Himp.
  simpl in Himp. rewrite Himp. apply IH, Hs.
Qed.

Lemma hexOfBytes_length s : String.length (hexOfBytes s) = 2 * String.length s.
Proof. induction s as [|c s IH]; simpl; [reflexivity|]. rewrite IH. lia. Qed.

Lemma hexOfBytes_isHexDigit s :
  forallb isHexDigit (list_ascii_of_string (hexOfBytes s)) = true.
Proof.
  induction s as [|c s IH]; [reflexivity|].
  cbn [hexOfBytes list_ascii_of_string forallb].
  rewrite (proj1 (hexDigit_high c)), (proj1 (hexDigit_low c)), IH. reflexivity.
Qed.

Lemma hexOfBytes_lower s : lowerHex (hexOfBytes s) = hexOfBytes s.
Proof.
  induction s as [|c s IH]; [reflexivity|].
  cbn [hexOfBytes lowerHex].
  rewrite (proj2 (hexDigit_high c)), (proj2 (hexDigit_low c)), IH. reflexivity.
Qed.

(** The string form of a cast id is a well-formed id, and casts to the
    same ObjectID. *)
Lemma castObjectID_toString c :
  ObjectID_isValid c = true ->
  ObjectID_isValid (toString (castObjectID c)) = true
  /\ castObjectID (toString (castObjectID c)) = castObjectID c.
Proof.
  unfold ObjectID_isValid, castObjectID. intros Hvalid.
  destruct (String.length c =? 12)%nat eqn:H12.
  - apply Nat.eqb_eq in H12. cbn [toString].
    rewrite hexOfBytes_length, H12. cbn [Nat.mul Nat.add Nat.eqb orb andb].
    rewrite hexOfBytes_isHexDigit, hexOfBytes_lower. split; reflexivity.
  - cbn [orb] in Hvalid. apply andb_true_iff in Hvalid.
    destruct Hvalid as [H24 Hhex]. apply Nat.eqb_eq in H24. cbn [toString].
    rewrite lowerHex_length, H24. cbn [Nat.eqb orb andb].
    rewrite (lowerHex_isHexDigit c Hhex), lowerHex_again. split; reflexivity.
Qed.

Lemma knownCandidate_toString collection c :
  knownCandidate collection c = true ->
  knownCandidate collection (toString (castObjectID c)) = true.
Proof.
  unfold knownCandidate, namedBy. intros H. apply andb_true_iff in H.
  destruct H as [Hvalid Hknown].
  destruct (castObjectID_toString c Hvalid) as [Hv Hc].
  rewrite Hv, Hc. exact Hknown.
Qed.

(** X1: the id validators return, in the candidates' order and with
    repetitions kept, the ids of the documents that the candidates name:
    for each candidate that is a well-formed id, in any spelling, and names
    a document of the collection (whatever its state), the ObjectID it is
    cast to, which is the document's own; validating the string forms of
    the result once more returns it unchanged. *)
Theorem X1_validateIds_keeps_the_known_candidates :
  forall (collection : list ObjectID) (candidates : list string),
    validateIds collection candidates
    = map castObjectID (filter (knownCandidate collection) candidates)
    /\ (forall k, In k (validateIds collection candidates) -> In k collection)
    /\ validateIds collection
                   (map toString (validateIds collection candidates))
       = validateIds collection candidates.
Proof.
  intros collection candidates.
  split; [apply validateIds_filter|].
  split; [intros k; apply validateIds_In|].
  rewrite !validateIds_filter.
  induction candidates as [|c rest IH]; simpl; [reflexivity|].
  destruct (knownCandidate collection c) eqn:Hc; simpl; [|exact IH].
  rewrite (knownCandidate_toString collection c Hc). simpl.
  unfold knownCandidate in Hc. apply andb_true_iff in Hc.
  rewrite (proj2 (castObjectID_toString c (proj1 Hc))), IH. reflexivity.
Qed.

(** ** The date pattern *)

Lemma dateAtHead_app s t : dateAtHead s = true -> dateAtHead (s ++ t) = true.
Proof.
  do 10 (destruct s as [|? s]; [discriminate|]).
  simpl. intros H; exact H.
Qed.

Lemma matchesDate_unfold s :
  matchesDate s
  = dateAtHead s
    || match s with
       | EmptyString => false
       | String _ s' => matchesDate s'
       end.
Proof. destruct s; reflexivity. Qed.

Lemma matchesDate_app_r s t : matchesDate s = true -> matchesDate (s ++ t) = true.
Proof.
  induction s as [|c s IH]; [discriminate|].
  rewrite matchesDate_unfold. intros H.
  change ((String c s ++ t)%string) with (String c (s ++ t)%string).
  rewrite matchesDate_unfold.
  apply orb_true_iff in H. apply orb_true_iff. destruct H as [H|H].
  - left. apply (dateAtHead_app (String c s) t H).
  - right. apply IH, H.
Qed.

Lemma matchesDate_app_l s t : matchesDate t = true -> matchesDate (s ++ t) = true.
Proof.
  intros H. induction s as [|c s IH]; [exact H|].
  change ((String c s ++ t)%string) with (String c (s ++ t)%string).
  rewrite matchesDate_unfold. rewrite IH. apply orb_true_r.
Qed.

Lemma matchesDate_nonempty s : matchesDate s = true -> s <> "".
Proof. intros H ->. discriminate H. Qed.

Lemma truthy_nonempty s : s <> "" -> truthy (Some s) = Some s.
Proof.
  intros H. unfold truthy. destruct (String.eqb_spec s ""); [contradiction|].
  reflexivity.
Qed.

(** X2: the date pattern is not anchored, so a value passes as soon as a
    date occurs somewhere in it; [orisGetUserEvents] then appends the whole
    value, surrounding text included, to the address it fetches. *)
Theorem X2_date_filter_passes_surrounding_text :
  forall (before date after orisId : string) (query : list (string * string)),
    matchesDate date = true ->
    queryValue "datefrom" query = Some (before ++ date ++ after)%string ->
    queryValue "dateto" query = None ->
    matchesDate (before ++ date ++ after) = true
    /\ orisGetUserEvents_address orisId query
       = (ORIS_API_GETUSEREVENTENTRIES ++ "&userid=" ++ orisId
          ++ "&datefrom=" ++ before ++ date ++ after)%string.
Proof.
  intros before date after orisId query Hdate Hfrom Hto.
  assert (Hall : matchesDate (before ++ date ++ after) = true).
  { apply matchesDate_app_l, matchesDate_app_r, Hdate. }
  split; [exact Hall|].
  unfold orisGetUserEvents_address, orisGetUserEvents_dateFilter.
  rewrite Hfrom, Hto.
  rewrite (truthy_nonempty _ (matchesDate_nonempty _ Hall)), Hall.
  reflexivity.
Qed.

Lemma X2_witness :
  matchesDate "2019-01-01" = true
  /\ orisGetUserEvents_address
       "77" [("datefrom", "2019-01-01&userid=5")]
     = (ORIS_API_GETUSEREVENTENTRIES
        ++ "&userid=77&datefrom=2019-01-01&userid=5")%string.
Proof.
  split; [reflexivity|].
  exact (proj2 (X2_date_filter_passes_surrounding_text
                  "" "2019-01-01" "&userid=5" "77"
                  [("datefrom", "2019-01-01&userid=5")]
                  eq_refl eq_refl eq_refl)).
Defined.

(** ** The criteria of [getEventList] *)

Lemma addFilter_ignored criteria kv :
  ignoredFilter kv = true -> addFilter criteria kv = criteria.
Proof.
  unfold ignoredFilter, addFilter. intros H.
  apply andb_true_iff in H. destruct H as [H _].
  apply andb_true_iff in H. destruct H as [H _].
  apply andb_true_iff in H. destruct H as [Hs Hid].
  apply negb_true_iff in Hs, Hid. rewrite Hs.
  destruct (includes validIdFilters (fst kv)); [|reflexivity].
  simpl in Hid. rewrite Hid. reflexivity.
Qed.

Lemma queryValue_app_other key q1 kv q2 :
  String.eqb (fst kv) key = false ->
  queryValue key (q1 ++ kv :: q2) = queryValue key (q1 ++ q2).
Proof.
  intros Hne. induction q1 as [|[k v] q1 IH]; simpl.
  - destruct kv as [k v]. simpl in Hne. rewrite Hne. reflexivity.
  - destruct (String.eqb k key); [reflexivity | exact IH].
Qed.

Lemma eventSearchCriteria_ignored q1 kv q2 :
  ignoredFilter kv = true ->
  eventSearchCriteria (q1 ++ kv :: q2) = eventSearchCriteria (q1 ++ q2).
Proof.
  intros H. unfold eventSearchCriteria.
  assert (Hkeys : String.eqb (fst kv) "locLat" = false
                  /\ String.eqb (fst kv) "locLong" = false).
  { unfold ignoredFilter in H.
    apply andb_true_iff in H. destruct H as [H Hlong].
    apply andb_true_iff in H. destruct H as [_ Hlat].
    apply negb_true_iff in Hlong, Hlat. split; assumption. }
  destruct Hkeys as [Hlat Hlong].
  rewrite !(queryValue_app_other _ q1 kv q2) by assumption.
  rewrite !fold_left_app. simpl. rewrite (addFilter_ignored _ kv H).
  reflexivity.
Qed.

Lemma getEventList_throws_ignored regExpValid q1 kv q2 :
  ignoredFilter kv = true ->
  getEventList_throws regExpValid (q1 ++ kv :: q2)
  = getEventList_throws regExpValid (q1 ++ q2).
Proof.
  intros H. unfold getEventList_throws. rewrite !existsb_app. cbn [existsb].
  unfold ignoredFilter in H.
  apply andb_true_iff in H. destruct H as [H _].
  apply andb_true_iff in H. destruct H as [H _].
  apply andb_true_iff in H. destruct H as [Hs _].
  apply negb_true_iff in Hs. rewrite Hs. reflexivity.
Qed.

(** X3: a query entry whose key is no recognised filter, or that names an
    id filter with a malformed id, has no effect on [getEventList]: the
    answer is the one the query gets without the entry, so a malformed
    owner id lists the events of every owner rather than none. *)
Theorem X3_getEventList_ignores_unusable_filters :
  forall (populateListed : StoredEvent -> ListedEvent)
         (fieldMatches : string -> Criterion -> StoredEvent -> bool)
         (regExpValid : string -> bool)
         (user : ReqUser.t) (q1 q2 : list (string * string))
         (key value : string) (s : Store.t),
    ignoredFilter (key, value) = true ->
    getEventList populateListed fieldMatches regExpValid user
                 (q1 ++ (key, value) :: q2) s
    = getEventList populateListed fieldMatches regExpValid user (q1 ++ q2) s.
Proof.
  intros populateListed fieldMatches regExpValid user q1 q2 key value s H.
  unfold getEventList.
  rewrite (getEventList_throws_ignored regExpValid q1 (key, value) q2 H).
  rewrite (eventSearchCriteria_ignored q1 (key, value) q2 H).
  reflexivity.
Qed.

Lemma X3_witness :
  ignoredFilter ("owner", "nobody") = true
  /\ getEventList populateBare matchAny anyRegExp root [("owner", "nobody")]
                  davesStore
     = getEventList populateBare matchAny anyRegExp root [] davesStore.
Proof.
  split; [reflexivity|].
  exact (X3_getEventList_ignores_unusable_filters
           populateBare matchAny anyRegExp root [] [] "owner" "nobody"
           davesStore eq_refl).
Defined.

Lemma in_setCriterion key c k v o :
  In (k, v) (setCriterion key c o) -> (k, v) = (key, c) \/ In (k, v) o.
Proof.
  induction o as [|[k0 v0] o IH]; simpl.
  - intros [H|[]]. left. symmetry. exact H.
  - destruct (String.eqb_spec k0 key) as [->|Hne]; simpl.
    + intros [H|H]; [left; symmetry; exact H | right; right; exact H].
    + intros [H|H]; [right; left; exact H|].
      destruct (IH H) as [H'|H']; [left; exact H' | right; right; exact H'].
Qed.

Lemma fromQuery_more query kv k c :
  fromQuery query k c -> fromQuery (query ++ [kv]) k c.
Proof.
  intros [v [Hin H]]. exists v. split; [|exact H].
  apply in_or_app. left. exact Hin.
Qed.

Lemma addFilter_fromQuery query criteria kv :
  (forall k c, In (k, c) criteria ->
               (k, c) = ("active", CActive true) \/ fromQuery query k c) ->
  forall k c, In (k, c) (addFilter criteria kv) ->
              (k, c) = ("active", CActive true) \/ fromQuery (query ++ [kv]) k c.
Proof.
  intros Hold k c Hin.
  assert (Hkeep : forall k c, In (k, c) criteria ->
            (k, c) = ("active", CActive true) \/ fromQuery (query ++ [kv]) k c).
  { intros k0 c0 H0. destruct (Hold k0 c0 H0) as [H|H]; [left; exact H|].
    right. apply fromQuery_more, H. }
  destruct kv as [key value]. unfold addFilter in Hin. simpl fst in Hin.
  simpl snd in Hin.
  assert (Hlast : In (key, value) (query ++ [(key, value)])).
  { apply in_or_app. right. left. reflexivity. }
  destruct (includes validStringFilters key) eqn:Hs.
  - (* a string filter: none of them is an id filter *)
    assert (Hno : includes validIdFilters key = false).
    { apply includes_In in Hs. simpl in Hs.
      repeat (destruct Hs as [<-|Hs]; [reflexivity|]). destruct Hs. }
    rewrite Hno in Hin. apply in_setCriterion in Hin.
    destruct Hin as [[= -> ->]|Hin]; [|apply Hkeep, Hin].
    right. exists value. split; [exact Hlast|]. left.
    split; [apply includes_In, Hs | reflexivity].
  - destruct (includes validIdFilters key) eqn:Hi; [|apply Hkeep, Hin].
    destruct (ObjectID_isValid value) eqn:Hv; [|apply Hkeep, Hin].
    destruct (String.eqb key "runners") eqn:Hr.
    + apply in_setCriterion in Hin.
      destruct Hin as [[= -> ->]|Hin]; [|apply Hkeep, Hin].
      right. exists value. apply String.eqb_eq in Hr. subst key.
      split; [exact Hlast|]. right. left.
      split; [apply includes_In, Hi|]. split; [exact Hv | reflexivity].
    + apply in_setCriterion in Hin.
      destruct Hin as [[= -> ->]|Hin]; [|apply Hkeep, Hin].
      right. exists value. split; [exact Hlast|]. right. left.
      split; [apply includes_In, Hi|]. split; [exact Hv|].
      rewrite Hr. reflexivity.
Qed.

Lemma fold_addFilter_fromQuery query :
  forall done criteria,
    (forall k c, In (k, c) criteria ->
                 (k, c) = ("active", CActive true) \/ fromQuery done k c) ->
    forall k c, In (k, c) (fold_left addFilter query criteria) ->
                (k, c) = ("active", CActive true)
                \/ fromQuery (done ++ query) k c.
Proof.
  induction query as [|kv query IH]; intros done criteria Hold k c Hin.
  - simpl in Hin. rewrite app_nil_r. apply Hold, Hin.
  - simpl in Hin.
    replace (done ++ kv :: query) with ((done ++ [kv]) ++ query)
      by (rewrite <- app_assoc; reflexivity).
    apply (IH (done ++ [kv]) (addFilter criteria kv)); [|exact Hin].
    apply addFilter_fromQuery, Hold.
Qed.

Lemma queryValue_In key query v : queryValue key query = Some v -> In (key, v) query.
Proof.
  induction query as [|[k0 v0] query IH]; simpl; [discriminate|].
  destruct (String.eqb_spec k0 key) as [->|Hne].
  - intros [= ->]. left. reflexivity.
  - intros H. right. apply IH, H.
Qed.

Lemma truthy_Some x s : truthy x = Some s -> x = Some s /\ s <> "".
Proof.
  unfold truthy. destruct x as [y|]; [|discriminate].
  destruct (String.eqb_spec y ""); [discriminate|].
  intros [= ->]. split; [reflexivity | assumption].
Qed.

(** X4: whatever the query, every criterion [getEventList] searches with
    is either [active: true] or stems from a query entry under one of the
    listed keys: a regular expression for a string filter, a well-formed id
    for an id filter, a range for [locLat] and [locLong]. No query makes
    the search bear on another field. *)
Theorem X4_getEventList_criteria_are_whitelisted :
  forall (query : list (string * string)) (k : string) (c : Criterion),
    In (k, c) (eventSearchCriteria query) ->
    (k, c) = ("active", CActive true) \/ fromQuery query k c.
Proof.
  intros query k c Hin. unfold eventSearchCriteria in Hin.
  assert (Hfold : forall k c,
            In (k, c) (fold_left addFilter query [("active", CActive true)]) ->
            (k, c) = ("active", CActive true) \/ fromQuery query k c).
  { intros k0 c0 H0.
    apply (fold_addFilter_fromQuery query [] [("active", CActive true)]);
      [|exact H0].
    intros k1 c1 [H1|[]]. left. symmetry. exact H1. }
  assert (Hrange : forall key v,
            (key = "locLat" \/ key = "locLong") ->
            truthy (queryValue key query) = Some v ->
            fromQuery query key (CRange v)).
  { intros key v Hkey Hv. apply truthy_Some in Hv. destruct Hv as [Hq Hne].
    exists v. split; [apply queryValue_In, Hq|]. right. right.
    split; [exact Hkey|]. split; [exact Hne | reflexivity]. }
  destruct (truthy (queryValue "locLong" query)) as [long|] eqn:Hlong.
  - apply in_setCriterion in Hin. destruct Hin as [[= -> ->]|Hin].
    { right. apply Hrange; [right; reflexivity | exact Hlong]. }
    destruct (truthy (queryValue "locLat" query)) as [lat|] eqn:Hlat.
    + apply in_setCriterion in Hin. destruct Hin as [[= -> ->]|Hin].
      { right. apply Hrange; [left; reflexivity | exact Hlat]. }
      apply Hfold, Hin.
    + apply Hfold, Hin.
  - destruct (truthy (queryValue "locLat" query)) as [lat|] eqn:Hlat.
    + apply in_setCriterion in Hin. destruct Hin as [[= -> ->]|Hin].
      { right. apply Hrange; [left; reflexivity | exact Hlat]. }
      apply Hfold, Hin.
    + apply Hfold, Hin.
Qed.

Lemma X4_witness :
  In ("name", CRegex "Cup") (eventSearchCriteria [("name", "Cup")])
  /\ (("name", CRegex "Cup") = ("active", CActive true)
      \/ fromQuery [("name", "Cup")] "name" (CRegex "Cup")).
Proof.
  assert (H : In ("name", CRegex "Cup") (eventSearchCriteria [("name", "Cup")])).
  { right. left. reflexivity. }
  split; [exact H|].
  exact (X4_getEventList_criteria_are_whitelisted
           [("name", "Cup")] "name" (CRegex "Cup") H).
Defined.

(** ** [getEventLinks] *)

Lemma ObjectID_eqb_sym a b : ObjectID_eqb a b = ObjectID_eqb b a.
Proof. unfold ObjectID_eqb. apply String.eqb_sym. Qed.

(** X5: with an [includes] filter and no name filter, [getEventLinks]
    answers 200 with the links that hold the id which the value spells
    when the value is a well-formed id, and with an empty list when it is
    malformed; an empty [includes] value is no filter at all and every link
    is returned. *)
Theorem X5_getEventLinks_by_included_event :
  forall (regExpValid : string -> bool) (regExpTest : string -> string -> bool)
         (P : Type) (populateIncludes : Store.t -> LinkedEvent.t -> P)
         (query : list (string * string)) (id : string) (s : Store.t),
    queryValue "displayName" query = None ->
    queryValue "includes" query = Some id ->
    getEventLinks regExpValid regExpTest P populateIncludes query s
    = Some (Replied 200
              (if String.eqb id "" then
                 map (populateIncludes s) (Store.linkedEvents s)
               else if ObjectID_isValid id then
                 map (populateIncludes s)
                     (filter (linkIncludes id) (Store.linkedEvents s))
               else [])).
Proof.
  intros regExpValid regExpTest P populateIncludes query id s Hname Hid.
  unfold getEventLinks, eventLinkSearchCriteria, linkMeets. simpl.
  rewrite Hname, Hid. simpl.
  destruct (String.eqb id "") eqn:Hempty; simpl.
  - do 3 f_equal. induction (Store.linkedEvents s) as [|l ls IH]; simpl;
      [reflexivity | rewrite IH; reflexivity].
  - destruct (ObjectID_isValid id); simpl.
    + do 3 f_equal. apply filter_ext. intros l. unfold linkIncludes.
      induction (LinkedEvent.includes l) as [|o os IH]; simpl; [reflexivity|].
      unfold namedBy at 1. rewrite (ObjectID_eqb_sym o), IH. reflexivity.
    + do 2 f_equal. induction (Store.linkedEvents s) as [|l ls IH]; simpl;
        [reflexivity | exact IH].
Qed.

Lemma X5_witness :
  getEventLinks anyRegExp (fun _ _ => true) LinkedEvent.t (fun _ l => l)
                [("includes", "5C00000000000000000000E1")] linkedStore
  = Some (Replied 200 [LinkedEvent.mk linkL "Easter" [eventA]])
  /\ getEventLinks anyRegExp (fun _ _ => true) LinkedEvent.t (fun _ l => l)
                   [("includes", "spring-cup")] linkedStore
     = Some (Replied 200 []).
Proof.
  split.
  - exact (X5_getEventLinks_by_included_event
             anyRegExp (fun _ _ => true) LinkedEvent.t (fun _ l => l)
             [("includes", "5C00000000000000000000E1")]
             "5C00000000000000000000E1" linkedStore eq_refl eq_refl).
  - exact (X5_getEventLinks_by_included_event
             anyRegExp (fun _ _ => true) LinkedEvent.t (fun _ l => l)
             [("includes", "spring-cup")] "spring-cup" linkedStore
             eq_refl eq_refl).
Defined.

(** ** What the listing shows of a runner entry *)

Lemma listed_canSee_outline u r r' :
  sameOutline r r' -> GetEventList.canSee u r = GetEventList.canSee u r'.
Proof.
  intros (Huser & Hvis & _). unfold GetEventList.canSee.
  rewrite Huser, Hvis. reflexivity.
Qed.

Lemma runnerSummary_outline r r' :
  sameOutline r r' ->
  GetEventList.runnerSummary r = GetEventList.runnerSummary r'.
Proof.
  intros (Huser & _ & Hmaps). unfold GetEventList.runnerSummary.
  rewrite Huser, Hmaps. reflexivity.
Qed.

Lemma selectedRunners_outline u rs rs' :
  Forall2 sameOutline rs rs' ->
  map (fun runner => if GetEventList.canSee u runner
                     then Some (GetEventList.runnerSummary runner) else None) rs
  = map (fun runner => if GetEventList.canSee u runner
                       then Some (GetEventList.runnerSummary runner) else None) rs'.
Proof.
  induction 1 as [|r r' rs rs' Hr _ IH]; simpl; [reflexivity|].
  rewrite (listed_canSee_outline u r r' Hr), (runnerSummary_outline r r' Hr), IH.
  reflexivity.
Qed.

(** X6: of a runner entry the listing shows nothing but the user, the
    user's display name and fields, and the number of maps: two events that
    differ only in the course and result details, the maps' contents and the
    comments of their runner entries get the same summary from
    [getEventList], for every viewer. In particular the summary's course
    title is not the entry's. *)
Theorem X6_listing_is_blind_to_entry_contents :
  forall (u : ReqUser.t) (e1 e2 : ListedEvent),
    sameButEntryContents e1 e2 ->
    GetEventList.eventDetails u e1 = GetEventList.eventDetails u e2.
Proof.
  intros u e1 e2 (Hid & Hdate & Hname & Horis & Hclubs & Hlinks & Hfields & Hrs).
  unfold GetEventList.eventDetails, GetEventList.selectedRunners.
  rewrite Hid, Hdate, Hname, Horis, Hclubs, Hlinks, Hfields.
  rewrite (selectedRunners_outline u _ _ Hrs).
  rewrite (Forall2_length Hrs). reflexivity.
Qed.

Lemma X6_witness :
  GetEventList.eventDetails alice (springCup [bobRuns [clubX]])
  = GetEventList.eventDetails alice
      (springCup [Runner.mk (User.mk bobId "Bob" [clubX] []) VPublic
                            [("courseTitle", JStr "H35"); ("place", JStr "1.")]
                            [] [Comment.mk carolId "well run"]]).
Proof.
  apply X6_listing_is_blind_to_entry_contents.
  unfold sameButEntryContents; simpl. repeat split.
  constructor; [|constructor]. unfold sameOutline; simpl. repeat split.
Defined.

(** ** Writing an event and reading it back *)

Lemma find_app {A : Type} (p : A -> bool) l1 l2 :
  find p (l1 ++ l2)
  = match find p l1 with
    | Some x => Some x
    | None => find p l2
    end.
Proof.
  induction l1 as [|x l1 IH]; simpl; [reflexivity|].
  destruct (p x); [reflexivity | exact IH].
Qed.

Lemma find_none_all {A : Type} (p : A -> bool) l :
  (forall x, In x l -> p x = false) -> find p l = None.
Proof.
  induction l as [|x l IH]; simpl; [reflexivity|].
  intros H. rewrite (H x (or_introl eq_refl)). apply IH.
  intros y Hy. apply H. right. exact Hy.
Qed.

Lemma existsb_false_all {A : Type} (p : A -> bool) l :
  existsb p l = false -> forall x, In x l -> p x = false.
Proof.
  intros H x Hx. destruct (p x) eqn:Hp; [|reflexivity].
  assert (existsb p l = true) by (apply existsb_exists; exists x; tauto).
  congruence.
Qed.

Lemma createEvent_sent validates trim trimInQuery newId user body s e s' :
  createEvent validates trim trimInQuery newId user body s = (Sent 200 e, s') ->
  Event._id e = newId
  /\ Event.owner e = ReqUser._id user
  /\ Event.runners e = []
  /\ Event.active e = true
  /\ Store.events s' = Store.events s ++ [e]
  /\ existsb (fun x => ObjectID_eqb (Event._id x) newId) (Store.events s) = false.
Proof.
  unfold createEvent. intros H.
  destruct (Role_eqb (ReqUser.role user) RGuest); [discriminate|].
  destruct (truthy (EventBody.date body)) as [eventDate|]; [|discriminate].
  destruct (truthy (EventBody.name body)) as [eventName|]; [|discriminate].
  destruct (negb (matchesDate eventDate)); [discriminate|].
  destruct (findEventByDateName eventDate (trimInQuery eventName) s);
    [discriminate|].
  cbv zeta in H.
  destruct (validates _); [|discriminate].
  destruct (negb (orisIdTaken _ s)); [|discriminate].
  destruct (existsb _ (Store.events s)) eqn:Hfresh; [discriminate|].
  simpl in H. injection H as <- <-. simpl. repeat split.
Qed.

(** X7: an event that [createEvent] has answered with is owned by its
    creator, active and without runners, and the read paths find it at
    once: [getEvent] on its id, in any spelling, sends its populated
    document through the visibility filter, and the unfiltered
    [getEventList] holds its summary, for every viewer. *)
Theorem X7_created_event_is_read_back :
  forall (validates : StoredEvent -> bool) (trim trimInQuery : string -> string)
         (newId : ObjectID)
         (creator viewer : ReqUser.t) (body : EventBody.t) (s s' : Store.t)
         (e : StoredEvent) (eventid : string)
         (populateDetail : StoredEvent -> DetailEvent)
         (populateListed : StoredEvent -> ListedEvent)
         (documentToString : Club.t -> string)
         (fieldMatches : string -> Criterion -> StoredEvent -> bool)
         (regExpValid : string -> bool),
    createEvent validates trim trimInQuery newId creator body s
    = (Sent 200 e, s') ->
    ObjectID_isValid eventid = true ->
    castObjectID eventid = newId ->
    Event.owner e = ReqUser._id creator
    /\ Event.runners e = []
    /\ getEvent populateDetail documentToString viewer eventid s'
       = Sent 200 (GetEvent.filteredEvent documentToString viewer
                                          (populateDetail e))
    /\ exists summaries,
         getEventList populateListed fieldMatches regExpValid viewer [] s'
         = Some (Sent 200 summaries)
         /\ In (GetEventList.eventDetails viewer (populateListed e)) summaries.
Proof.
  intros validates trim trimInQuery newId creator viewer body s s' e eventid
         populateDetail populateListed documentToString fieldMatches
         regExpValid Hcreate Hvalid Hcast.
  apply createEvent_sent in Hcreate.
  destruct Hcreate as (Hid & Howner & Hrunners & Hactive & Hevents & Hfresh).
  split; [exact Howner|]. split; [exact Hrunners|]. split.
  - unfold getEvent. rewrite Hvalid. cbn [negb]. rewrite Hevents, find_app.
    rewrite find_none_all.
    + simpl. unfold hasEventId, namedBy.
      rewrite Hid, Hcast, ObjectID_eqb_refl, Hactive. reflexivity.
    + intros x Hx. pose proof (existsb_false_all _ _ Hfresh x Hx) as Hne.
      unfold hasEventId, namedBy. rewrite Hcast, Hne. reflexivity.
  - eexists. split; [reflexivity|].
    unfold GetEventList.eventsSummary. rewrite map_map.
    apply (in_map (fun x => GetEventList.eventDetails viewer (populateListed x))).
    unfold findEvents. apply filter_In. split.
    + rewrite Hevents. apply in_or_app. right. left. reflexivity.
    + simpl. unfold criterionHolds. simpl. rewrite Hactive. reflexivity.
Qed.

Lemma X7_witness :
  getEvent populateBare idOfClub alice "5C00000000000000000000E1"
           (snd (createEvent acceptAll trimBlanks trimBlanks eventA bob
                             (newEventBody "2019-04-06" " Spring Cup" None)
                             emptyStore))
  = Sent 200
      (GetEvent.filteredEvent idOfClub alice
         (populateBare
            (Event.mk eventA bobId "2019-04-06" "Spring Cup" None [] [] [] []
                      true))).
Proof.
  exact (proj1 (proj2 (proj2
           (X7_created_event_is_read_back
              acceptAll trimBlanks trimBlanks eventA bob alice
              (newEventBody "2019-04-06" " Spring Cup" None) emptyStore _ _
              "5C00000000000000000000E1"
              populateBare populateBare idOfClub matchAny anyRegExp
              eq_refl eq_refl eq_refl)))).
Defined.

(** ** Deleting an event frees its date and name *)

Lemma append_same_left (s t : string) : (s ++ t)%string = s -> t = "".
Proof.
  induction s as [|c s IH]; simpl; [intros H; exact H|].
  intros [= H]. apply IH, H.
Qed.

Lemma deleteEvent_sent now user eventid s d s' :
  deleteEvent now user eventid s = (Sent 200 d, s') ->
  exists e,
    findEventById eventid s = Some e
    /\ Event.name d = (Event.name e ++ " " ++ deletedAt now)%string
    /\ Event.date d = Event.date e
    /\ Store.events s'
       = updateFirst (hasEventId eventid)
                     (setDeleted (Event.name d) (Event.orisId d))
                     (Store.events s).
Proof.
  unfold deleteEvent. intros H.
  destruct (negb (ObjectID_isValid eventid)); [discriminate|].
  destruct (findEventById eventid s) as [e|]; [|discriminate].
  cbv zeta in H. destruct (_ && _); [|discriminate].
  destruct (orisIdHeldElsewhere eventid _ s); [discriminate|].
  injection H as <- <-. exists e. repeat split.
Qed.

(** X8: once [deleteEvent] has soft-deleted the only event of a given date
    and name, no stored event bears that date and name any more, so
    [createEvent] with the same date and with a name that its lookup reads
    as that name is not refused as a duplicate. *)
Theorem X8_deleteEvent_frees_date_and_name :
  forall (now : DateTime.t) (user creator : ReqUser.t) (eventid : string)
         (s s' : Store.t) (e d : StoredEvent)
         (validates : StoredEvent -> bool) (trim trimInQuery : string -> string)
         (newId : ObjectID) (body : EventBody.t) (eventName : string),
    deleteEvent now user eventid s = (Sent 200 d, s') ->
    findEventById eventid s = Some e ->
    NoDup (map Event._id (Store.events s)) ->
    (forall x, In x (Store.events s) ->
               Event.date x = Event.date e -> Event.name x = Event.name e ->
               x = e) ->
    truthy (EventBody.date body) = Some (Event.date e) ->
    truthy (EventBody.name body) = Some eventName ->
    trimInQuery eventName = Event.name e ->
    findEventByDateName (Event.date e) (Event.name e) s' = None
    /\ fst (createEvent validates trim trimInQuery newId creator body s')
       <> Refused 400 AlreadyExists.
Proof.
  intros now user creator eventid s s' e d validates trim trimInQuery newId
         body eventName Hdelete Hfind Hnodup Honly Hdate Hname Hquery.
  apply deleteEvent_sent in Hdelete.
  destruct Hdelete as (e0 & Hfind0 & Hnewname & Hsamedate & Hevents).
  rewrite Hfind in Hfind0. injection Hfind0 as <-.
  assert (Hfree : findEventByDateName (Event.date e) (Event.name e) s' = None).
  { unfold findEventByDateName. apply find_none_all. intros x Hx.
    rewrite Hevents in Hx.
    rewrite (updateFirst_updateMany Event._id (castObjectID eventid)) in Hx;
      [|exact Hnodup | intros y Hy; apply hasEventId_key, Hy].
    apply in_updateMany in Hx. destruct Hx as [x0 [Hx0 ->]].
    destruct (hasEventId eventid x0) eqn:Hid.
    - (* the deleted event: its name has changed *)
      simpl. apply andb_false_iff. right.
      apply String.eqb_neq. rewrite Hnewname. intros Heq.
      apply append_same_left in Heq. discriminate Heq.
    - (* another event: it does not bear the date and the name *)
      destruct (String.eqb_spec (Event.date x0) (Event.date e)) as [Hd|];
        [|reflexivity].
      destruct (String.eqb_spec (Event.name x0) (Event.name e)) as [Hn|];
        [|reflexivity].
      pose proof (Honly x0 Hx0 Hd Hn) as ->.
      apply find_some in Hfind. destruct Hfind as [_ Hfind]. congruence. }
  split; [exact Hfree|].
  unfold createEvent.
  destruct (Role_eqb (ReqUser.role creator) RGuest); [discriminate|].
  rewrite Hdate, Hname.
  destruct (negb (matchesDate (Event.date e))); [discriminate|].
  rewrite Hquery, Hfree. cbv zeta.
  destruct (_ && _); discriminate.
Qed.

Lemma X8_witness :
  findEventByDateName "2019-04-06" "Spring Cup" afterDelete = None
  /\ fst (createEvent acceptAll trimBlanks trimBlanks eventB bob
                      (newEventBody "2019-04-06" "Spring Cup " None)
                      afterDelete)
     <> Refused 400 AlreadyExists.
Proof.
  refine (X8_deleteEvent_frees_date_and_name
            someTime root bob "5c00000000000000000000e1" davesStore afterDelete
            davesEvent _ acceptAll trimBlanks trimBlanks eventB
            (newEventBody "2019-04-06" "Spring Cup " None) "Spring Cup "
            eq_refl eq_refl _ _ eq_refl eq_refl eq_refl).
  - simpl. constructor; [intros [] | constructor].
  - intros x [<-|[]] _ _. reflexivity.
Defined.

(** ** Creating and deleting a link *)

Lemma pull_addToSet_fresh x l : ~ In x l -> pull x (addToSet x l) = l.
Proof.
  intros Hfresh.
  assert (Hkeep : forall l', ~ In x l' -> pull x l' = l').
  { induction l' as [|y l' IH]; simpl; [reflexivity|]. intros Hn.
    destruct (ObjectID_eqb x y) eqn:Heq.
    - apply ObjectID_eqb_eq in Heq. subst y. contradiction Hn. left. reflexivity.
    - simpl. f_equal. apply IH. intros Hin. apply Hn. right. exact Hin. }
  unfold addToSet. destruct (existsb (ObjectID_eqb x) l) eqn:Hex.
  - apply Hkeep, Hfresh.
  - unfold pull. rewrite filter_app. simpl. rewrite ObjectID_eqb_refl. simpl.
    rewrite app_nil_r. apply Hkeep, Hfresh.
Qed.

Lemma createEventLink_sent newId user body s l s' :
  createEventLink newId user body s = (Sent 200 l, s') ->
  LinkedEvent._id l = newId
  /\ existsb (fun x => ObjectID_eqb (LinkedEvent._id x) newId)
             (Store.linkedEvents s) = false
  /\ s' = Store.mk
            (updateMany
               (fun e => idIn (map IdObj (LinkedEvent.includes l)) (Event._id e))
               (addLinkedTo newId) (Store.events s))
            (Store.linkedEvents s ++ [l])
            (Store.clubs s) (Store.users s).
Proof.
  unfold createEventLink. intros H.
  destruct (Role_eqb (ReqUser.role user) RGuest); [discriminate|].
  destruct (truthy (LinkBody.displayName body)) as [eventLinkName|];
    [|discriminate].
  destruct (findLinkByName eventLinkName s); [discriminate|].
  destruct (option_map _ (LinkBody.includes body)) as [eventIds|];
    [|discriminate].
  cbv zeta in H.
  destruct (existsb _ (Store.linkedEvents s)) eqn:Hfresh; [discriminate|].
  injection H as <- <-. simpl. repeat split.
Qed.

(** X9: deleting a link that has just been created restores the store.
    When [createEventLink] succeeds with an id that no event referred to
    before, [deleteEventLink] by an admin on that id, in any spelling,
    answers with the link and leaves every event and every link exactly as
    they were before the creation (timestamps apart). *)
Theorem X9_deleteEventLink_undoes_createEventLink :
  forall (newId : ObjectID) (creator admin : ReqUser.t) (body : LinkBody.t)
         (s s' : Store.t) (l : LinkedEvent.t) (eventlinkid : string),
    createEventLink newId creator body s = (Sent 200 l, s') ->
    ObjectID_isValid eventlinkid = true ->
    castObjectID eventlinkid = newId ->
    ReqUser.role admin = RAdmin ->
    (forall e, In e (Store.events s) -> ~ In newId (Event.linkedTo e)) ->
    deleteEventLink admin eventlinkid s' = (Sent 200 l, s).
Proof.
  intros newId creator admin body s s' l eventlinkid Hcreate Hvalid Hcast
         Hadmin Hfresh.
  apply createEventLink_sent in Hcreate.
  destruct Hcreate as (Hid & Hnew & ->).
  unfold deleteEventLink. rewrite Hvalid, Hadmin. cbn [negb Role_eqb].
  assert (Hself : hasLinkId eventlinkid l = true).
  { unfold hasLinkId, namedBy. rewrite Hid, Hcast. apply ObjectID_eqb_refl. }
  assert (Hothers : forall x, In x (Store.linkedEvents s) ->
                              hasLinkId eventlinkid x = false).
  { intros x Hx. unfold hasLinkId, namedBy. rewrite Hcast.
    exact (existsb_false_all _ _ Hnew x Hx). }
  assert (Hfind : findLinkById eventlinkid
                    (Store.mk
                       (updateMany
                          (fun e => idIn (map IdObj (LinkedEvent.includes l))
                                         (Event._id e))
                          (addLinkedTo newId) (Store.events s))
                       (Store.linkedEvents s ++ [l])
                       (Store.clubs s) (Store.users s))
                  = Some l).
  { unfold findLinkById. simpl. rewrite find_app, find_none_all.
    - simpl. rewrite Hself. reflexivity.
    - exact Hothers. }
  rewrite Hfind. f_equal. destruct s as [events links clubs users]. simpl in *.
  f_equal.
  - (* the events: the reference added is pulled again *)
    rewrite Hid. clear Hfind Hothers.
    induction events as [|e events IH]; simpl; [reflexivity|].
    rewrite IH by (intros e0 He0; apply Hfresh; right; exact He0).
    f_equal.
    destruct (idIn (map IdObj (LinkedEvent.includes l)) (Event._id e)) eqn:Hin.
    + unfold addLinkedTo, pullLinkedTo, setEventLinkedTo. simpl. rewrite Hin.
      rewrite pull_addToSet_fresh by (apply Hfresh; left; reflexivity).
      destruct e; reflexivity.
    + rewrite Hin. reflexivity.
  - (* the links: the new one, stored last, is the one removed *)
    clear Hfind Hnew.
    induction links as [|x links IH]; simpl.
    + rewrite Hself. reflexivity.
    + rewrite (Hothers x (or_introl eq_refl)).
      f_equal. apply IH. intros y Hy. apply Hothers. right. exact Hy.
Qed.

Lemma X9_witness :
  deleteEventLink root "5C00000000000000000000F1"
    (snd (createEventLink linkL bob
            (LinkBody.mk (Some "Easter") (Some ["5c00000000000000000000e2"]))
            bobsStore))
  = (Sent 200 (LinkedEvent.mk linkL "Easter" [eventB]), bobsStore).
Proof.
  refine (X9_deleteEventLink_undoes_createEventLink
            linkL bob root
            (LinkBody.mk (Some "Easter") (Some ["5c00000000000000000000e2"]))
            bobsStore _ _ "5C00000000000000000000F1"
            eq_refl eq_refl eq_refl eq_refl _).
  intros e [<-|[]] [].
Defined.

(** ** What [updateEvent] leaves alone *)

Lemma in_updateFirst_other {A : Type} (p : A -> bool) (f : A -> A) l x :
  In x l -> p x = false -> In x (updateFirst p f l).
Proof.
  induction l as [|d rest IH]; simpl; [tauto|].
  intros [->|Hin] Hp.
  - rewrite Hp. left. reflexivity.
  - destruct (p d); right; [exact Hin | apply IH; assumption].
Qed.

Lemma length_updateFirst {A : Type} (p : A -> bool) (f : A -> A) l :
  length (updateFirst p f l) = length l.
Proof.
  induction l as [|d rest IH]; simpl; [reflexivity|].
  destruct (p d); simpl; [reflexivity | rewrite IH; reflexivity].
Qed.

Lemma validateUserId_In s owner :
  validateUserId s owner = true -> In (castObjectID owner) (Store.users s).
Proof.
  unfold validateUserId. intros H. apply andb_true_iff in H.
  destruct H as [_ H]. apply existsb_exists in H. destruct H as [k [Hk Heq]].
  apply namedBy_eq in Heq. subst k. exact Hk.
Qed.

(** X10: a successful [updateEvent] never touches the event's id, ORIS
    id, runner entries or active flag, whatever the body holds; the owner
    changes only at an admin's request and only to the id of a stored
    user; every other event, the clubs and the users are left as they
    were. The answer carries the runner entries in full. *)
Theorem X10_updateEvent_leaves_the_rest_alone :
  forall (docArrayIncludes : list ObjectID -> string -> bool)
         (trimInQuery : string -> string)
         (user : ReqUser.t) (eventid : string) (body : EventBody.t)
         (s s' : Store.t) (e' : StoredEvent),
    updateEvent docArrayIncludes trimInQuery user eventid body s
    = (Sent 200 e', s') ->
    exists e,
      findEventById eventid s = Some e
      /\ Event._id e' = Event._id e
      /\ Event.orisId e' = Event.orisId e
      /\ Event.runners e' = Event.runners e
      /\ Event.active e' = Event.active e
      /\ (Event.owner e' = Event.owner e
          \/ (ReqUser.role user = RAdmin
              /\ In (Event.owner e') (Store.users s)))
      /\ Store.clubs s' = Store.clubs s
      /\ Store.users s' = Store.users s
      /\ length (Store.events s') = length (Store.events s)
      /\ forall x, In x (Store.events s) -> hasEventId eventid x = false ->
                   In x (Store.events s').
Proof.
  intros inc trimInQuery user eventid body s s' e'. unfold updateEvent.
  intros H.
  destruct (Role_eqb (ReqUser.role user) RGuest); [discriminate|].
  destruct (negb (ObjectID_isValid eventid)); [discriminate|].
  destruct (match truthy (EventBody.date body) with
            | Some d => negb (matchesDate d)
            | None => false
            end); [discriminate|].
  destruct (match EventBody.date body with
            | Some d => _
            | None => false
            end); [discriminate|].
  destruct (findEventById eventid s) as [e|]; [|discriminate].
  destruct (updateEvent_allowedToUpdate user e); [|discriminate].
  cbv zeta in H.
  destruct (numberOfFields _ =? 0)%nat; [discriminate|].
  injection H as <- <-. exists e. simpl.
  split; [reflexivity|]. split; [reflexivity|]. split; [reflexivity|].
  split; [reflexivity|]. split; [reflexivity|]. split.
  { destruct (truthy (EventBody.owner body)) as [owner|]; [|left; reflexivity].
    destruct (Role_eqb (ReqUser.role user) RAdmin) eqn:Hrole;
      [|left; reflexivity].
    destruct (validateUserId s owner) eqn:Hknown; [|left; reflexivity].
    right. simpl. split; [apply Role_eqb_eq, Hrole|].
    apply validateUserId_In, Hknown. }
  split; [reflexivity|]. split; [reflexivity|].
  split; [apply length_updateFirst|].
  intros x Hx Hother. apply in_updateFirst_other; assumption.
Qed.

Lemma X10_witness :
  exists e,
    findEventById "5c00000000000000000000e2" bobsStore = Some e
    /\ Event.runners (applySet (updateEvent_fieldsToUpdate
                                  noTrim bob (rename "May Day") bobsStore)
                               bobsEvent)
       = Event.runners e.
Proof.
  destruct (X10_updateEvent_leaves_the_rest_alone
              includesByValue noTrim bob "5c00000000000000000000e2"
              (rename "May Day") bobsStore _ _ eq_refl)
    as (e & Hfind & _ & _ & Hrunners & _).
  exists e. split; [exact Hfind | exact Hrunners].
Defined.

(** X11: an update whose date is the empty string skips the date check,
    which only runs on a non-empty date, and is stored: a permitted
    requester can leave an event with an empty date, which [createEvent]
    would never accept. *)
Theorem X11_updateEvent_stores_an_empty_date :
  forall (docArrayIncludes : list ObjectID -> string -> bool)
         (trimInQuery : string -> string)
         (user : ReqUser.t) (eventid : string) (s : Store.t) (e : StoredEvent),
    ReqUser.role user <> RGuest ->
    ObjectID_isValid eventid = true ->
    findEventById eventid s = Some e ->
    updateEvent_allowedToUpdate user e = true ->
    (forall x, In x (Store.events s) -> Event.date x <> "") ->
    matchesDate "" = false
    /\ exists e' s',
         updateEvent docArrayIncludes trimInQuery user eventid
                     (EventBody.mk (Some "") None None None None None []) s
         = (Sent 200 e', s')
         /\ Event.date e' = ""
         /\ findEventById eventid s' = Some e'.
Proof.
  intros inc trimInQuery user eventid s e Hrole Hvalid Hfind Hallowed _.
  split; [reflexivity|].
  rewrite (updateEvent_after_validation inc trimInQuery user eventid _ s e
                                        Hrole);
    [|unfold updateEvent_passesValidation; rewrite Hvalid; reflexivity
     |exact Hfind].
  rewrite Hallowed. simpl.
  eexists _, _. split; [reflexivity|]. split; [reflexivity|].
  unfold findEventById. simpl.
  apply find_updateFirst; [exact Hfind|].
  apply find_some in Hfind. destruct Hfind as [_ Hid]. exact Hid.
Qed.

Lemma X11_witness :
  exists e' s',
    updateEvent includesByValue noTrim bob "5c00000000000000000000e2"
                (EventBody.mk (Some "") None None None None None []) bobsStore
    = (Sent 200 e', s')
    /\ Event.date e' = ""
    /\ findEventById "5c00000000000000000000e2" s' = Some e'.
Proof.
  refine (proj2 (X11_updateEvent_stores_an_empty_date
                   includesByValue noTrim bob "5c00000000000000000000e2"
                   bobsStore
                   bobsEvent _ eq_refl eq_refl eq_refl _)).
  - discriminate.
  - intros x [<-|[]]. discriminate.
Defined.

(** ** Who may change a runner entry *)

(** X12: [updateEventRunner] changes nothing unless the requester is an
    admin or the standard user whose entry is addressed: every other
    request, the event owner's included, is refused and the stored events
    stay as they were. *)
Theorem X12_updateEventRunner_by_admin_or_self_only :
  forall (user : ReqUser.t) (eventid userid : string)
         (body : list (string * json)) (events : list RawEvent.t),
    ~ (ReqUser.role user = RAdmin
       \/ (ReqUser.role user = RStandard
           /\ toString (ReqUser._id user) = userid)) ->
    exists status error,
      updateEventRunner user eventid userid body events
      = (Refused status error, events).
Proof.
  intros user eventid userid body events Hnot. unfold updateEventRunner.
  destruct (Role_eqb (ReqUser.role user) RGuest); [eexists _, _; reflexivity|].
  destruct (negb (ObjectID_isValid eventid)); [eexists _, _; reflexivity|].
  destruct (negb (ObjectID_isValid userid)); [eexists _, _; reflexivity|].
  destruct (find (hasRawId eventid) events) as [e|];
    [|eexists _, _; reflexivity].
  destruct (negb (forallb _ (RawEvent.runners e)));
    [eexists _, _; reflexivity|].
  cbv zeta.
  destruct (negb (includes _ userid)); [eexists _, _; reflexivity|].
  destruct (Role_eqb (ReqUser.role user) RAdmin) eqn:Hadmin.
  { contradiction Hnot. left. apply Role_eqb_eq, Hadmin. }
  destruct (Role_eqb (ReqUser.role user) RStandard) eqn:Hstd; simpl;
    [|eexists _, _; reflexivity].
  destruct (String.eqb_spec (toString (ReqUser._id user)) userid) as [Hid|Hne];
    [|eexists _, _; reflexivity].
  contradiction Hnot. right. split; [apply Role_eqb_eq, Hstd | exact Hid].
Qed.

Lemma X12_witness :
  exists status error,
    updateEventRunner bob "5c00000000000000000000e1"
                      "5c0000000000000000000a11" titleChange [rawEvent]
    = (Refused status error, [rawEvent]).
Proof.
  apply X12_updateEventRunner_by_admin_or_self_only.
  intros [H|[_ H]]; discriminate H.
Defined.

(** ** [addEventRunner] *)

Lemma filterTruthy_app {A : Type} (l1 l2 : list (option A)) :
  filterTruthy (l1 ++ l2) = filterTruthy l1 ++ filterTruthy l2.
Proof.
  induction l1 as [|[x|] l1 IH]; simpl; [reflexivity | rewrite IH | exact IH];
    reflexivity.
Qed.

Lemma castRunner_fieldsToCreateRunner castRunnerDetails requestorId body :
  castRunner castRunnerDetails
             (addEventRunner_fieldsToCreateRunner requestorId body)
  = option_map (cons ("user", JStr requestorId))
               (castRunnerDetails
                  (addEventRunner_fieldsToCreateRunner requestorId body)).
Proof.
  unfold castRunner.
  destruct (castRunnerDetails _); reflexivity.
Qed.

Lemma addEventRunner_replied documentToString populate castRunnerDetails user
      eventid body events reply events' :
  addEventRunner documentToString populate castRunnerDetails user eventid body
                 events
  = (Replied 200 reply, events') ->
  exists e,
    ReqUser.role user <> RGuest
    /\ ObjectID_isValid eventid = true
    /\ find (hasRawId eventid) events = Some e
    /\ forallb (fun r => isSome (runnerUser r)) (RawEvent.runners e) = true
    /\ includes (filterTruthy (map runnerUser (RawEvent.runners e)))
                (toString (ReqUser._id user)) = false
    /\ exists details,
         castRunnerDetails
           (addEventRunner_fieldsToCreateRunner (toString (ReqUser._id user))
                                                body)
         = Some details
         /\ events'
            = updateFirst (hasRawId eventid)
                (addRunner (("user", JStr (toString (ReqUser._id user)))
                            :: details))
                events.
Proof.
  unfold addEventRunner. intros H.
  destruct (Role_eqb (ReqUser.role user) RGuest) eqn:Hrole; [discriminate|].
  destruct (ObjectID_isValid eventid) eqn:Hvalid; [|discriminate].
  cbn [negb] in H.
  destruct (find (hasRawId eventid) events) as [e|]; [|discriminate].
  destruct (forallb _ (RawEvent.runners e)) eqn:Hall; [|discriminate].
  cbn [negb] in H. cbv zeta in H.
  destruct (includes _ (toString (ReqUser._id user))) eqn:Hpresent;
    [discriminate|].
  rewrite castRunner_fieldsToCreateRunner in H.
  destruct (castRunnerDetails _) as [details|] eqn:Hcast; [|discriminate].
  cbn [option_map] in H.
  injection H as _ <-. exists e.
  split; [intros Hguest; rewrite Hguest in Hrole; discriminate Hrole|].
  split; [reflexivity|]. split; [reflexivity|]. split; [assumption|].
  split; [assumption|]. exists details. split; reflexivity.
Qed.

Lemma NoDup_snoc {A : Type} (l : list A) (x : A) :
  NoDup l -> ~ In x l -> NoDup (l ++ [x]).
Proof.
  intros Hl Hx. induction Hl as [|y l Hy Hl IH]; simpl.
  - constructor; [intros [] | constructor].
  - constructor.
    + rewrite in_app_iff. intros [H|[H|[]]]; [contradiction|].
      apply Hx. left. symmetry. exact H.
    + apply IH. intros H. apply Hx. right. exact H.
Qed.

(** A visibility that cannot be cast to a string fails the update: the
    request is answered 400 and no entry is stored. *)
Lemma addEventRunner_cast_fails :
  addEventRunner idOfClub (fun _ => springCup []) castKnownPaths carol
    "5c00000000000000000000e1" [("visibility", JObj [])] [rawEvent]
  = (Failed 400 AddRunner_StoreError, [rawEvent]).
Proof. reflexivity. Qed.

(** X13: a successful [addEventRunner] appends one entry to the event and
    changes nothing else. The entry's user is the requester, whatever the
    body says; the rest of the entry is what the cast to the runner
    sub-schema makes of the object built from the requester's id and the
    valid fields of the body, no other key of the body reaching it; the
    earlier entries and the other events are untouched, and if no user ran
    twice in the event before, none does after. *)
Theorem X13_addEventRunner_appends_the_requester :
  forall (documentToString : Club.t -> string)
         (populate : RawEvent.t -> DetailEvent)
         (castRunnerDetails
            : list (string * json) -> option (list (string * json)))
         (user : ReqUser.t)
         (eventid : string) (body : list (string * json))
         (events events' : list RawEvent.t) (reply : DetailEvent),
    addEventRunner documentToString populate castRunnerDetails user eventid
                   body events
    = (Replied 200 reply, events') ->
    exists e fieldsToCreateRunner details entry,
      find (hasRawId eventid) events = Some e
      /\ getField "user" fieldsToCreateRunner
         = Some (JStr (toString (ReqUser._id user)))
      /\ (forall key, key <> "user" ->
            getField key fieldsToCreateRunner
            = if includes addEventRunner_validFields key
              then getField key body else None)
      /\ castRunnerDetails fieldsToCreateRunner = Some details
      /\ entry = ("user", JStr (toString (ReqUser._id user))) :: details
      /\ runnerUser entry = Some (toString (ReqUser._id user))
      /\ find (hasRawId eventid) events'
         = Some (RawEvent.mk (RawEvent._id e) (RawEvent.fields e)
                             (RawEvent.runners e ++ [entry]))
      /\ length events' = length events
      /\ (forall x, In x events -> hasRawId eventid x = false -> In x events')
      /\ (NoDup (filterTruthy (map runnerUser (RawEvent.runners e))) ->
          NoDup (filterTruthy (map runnerUser (RawEvent.runners e ++ [entry])))).
Proof.
  intros documentToString populate castRunnerDetails user eventid body events
         events' reply H.
  apply addEventRunner_replied in H.
  destruct H as (e & _ & _ & Hfind & _ & Hnew & details & Hcast & ->).
  set (requestorId := toString (ReqUser._id user)) in *.
  exists e, (addEventRunner_fieldsToCreateRunner requestorId body), details,
    (("user", JStr requestorId) :: details).
  split; [exact Hfind|]. split; [reflexivity|]. split.
  { intros key Hkey. unfold addEventRunner_fieldsToCreateRunner.
    cbn [getField].
    destruct (String.eqb_spec "user" key) as [Heq|_];
      [contradiction Hkey; symmetry; exact Heq|].
    apply getField_onlyValidFields. }
  split; [exact Hcast|]. split; [reflexivity|]. split; [reflexivity|]. split.
  { change (RawEvent.mk (RawEvent._id e) (RawEvent.fields e)
              (RawEvent.runners e ++ [("user", JStr requestorId) :: details]))
      with (addRunner (("user", JStr requestorId) :: details) e).
    apply (find_updateFirst (hasRawId eventid)); [exact Hfind|].
    apply find_some in Hfind. destruct Hfind as [_ Hid]. exact Hid. }
  split; [apply length_updateFirst|]. split.
  { intros x Hx Hother. apply in_updateFirst_other; assumption. }
  intros Hnodup. rewrite map_app, filterTruthy_app.
  change (filterTruthy (map runnerUser [("user", JStr requestorId) :: details]))
    with [requestorId].
  apply NoDup_snoc; [exact Hnodup|].
  intros Hin. apply includes_In in Hin. congruence.
Qed.

Lemma X13_witness :
  exists e entry,
    find (hasRawId "5C00000000000000000000E1") [rawEvent] = Some e
    /\ runnerUser entry = Some "5c0000000000000000000ca0"
    /\ find (hasRawId "5C00000000000000000000E1")
            (snd (addEventRunner idOfClub (fun _ => springCup []) castKnownPaths
                    carol "5C00000000000000000000E1"
                    [("user", JStr "5c0000000000000000000b0b");
                     ("courseTitle", JStr "D21")]
                    [rawEvent]))
       = Some (RawEvent.mk (RawEvent._id e) (RawEvent.fields e)
                           (RawEvent.runners e ++ [entry])).
Proof.
  destruct (X13_addEventRunner_appends_the_requester
              idOfClub (fun _ => springCup []) castKnownPaths carol
              "5C00000000000000000000E1"
              [("user", JStr "5c0000000000000000000b0b");
               ("courseTitle", JStr "D21")]
              [rawEvent] _ _ eq_refl)
    as (e & fields & details & entry & Hfind & _ & _ & _ & _ & Huser & Hnew
        & _).
  exists e, entry. split; [exact Hfind|]. split; [exact Huser | exact Hnew].
Defined.

(** X14: a user runs once in an event. After a successful
    [addEventRunner], the same request, with any body, is refused as
    'runner already present' and leaves the stored events as they are. *)
Theorem X14_addEventRunner_refuses_a_second_entry :
  forall (documentToString : Club.t -> string)
         (populate : RawEvent.t -> DetailEvent)
         (castRunnerDetails
            : list (string * json) -> option (list (string * json)))
         (user : ReqUser.t)
         (eventid : string) (body body' : list (string * json))
         (events events' : list RawEvent.t) (reply : DetailEvent),
    addEventRunner documentToString populate castRunnerDetails user eventid
                   body events
    = (Replied 200 reply, events') ->
    addEventRunner documentToString populate castRunnerDetails user eventid
                   body' events'
    = (Failed 400 AddRunner_RunnerAlreadyPresent, events').
Proof.
  intros documentToString populate castRunnerDetails user eventid body body'
         events events' reply H.
  apply addEventRunner_replied in H.
  destruct H as (e & Hrole & Hvalid & Hfind & Hall & _ & details & _ & ->).
  unfold addEventRunner.
  destruct (Role_eqb (ReqUser.role user) RGuest) eqn:Hguest.
  { apply Role_eqb_eq in Hguest. contradiction. }
  rewrite Hvalid. cbn [negb].
  rewrite (find_updateFirst (hasRawId eventid) _ events e Hfind);
    [|apply find_some in Hfind; destruct Hfind as [_ Hid]; exact Hid].
  unfold addRunner. cbn [RawEvent.runners].
  rewrite forallb_app, Hall. cbn [forallb].
  change (runnerUser (("user", JStr (toString (ReqUser._id user))) :: details))
    with (Some (toString (ReqUser._id user))).
  cbn [isSome andb negb].
  cbv zeta. rewrite map_app, filterTruthy_app. cbn [map].
  change (runnerUser (("user", JStr (toString (ReqUser._id user))) :: details))
    with (Some (toString (ReqUser._id user))).
  cbn [filterTruthy].
  assert (Hin : includes (filterTruthy (map runnerUser (RawEvent.runners e))
                          ++ [toString (ReqUser._id user)])
                         (toString (ReqUser._id user)) = true).
  { apply includes_In, in_or_app. right. left. reflexivity. }
  rewrite Hin. reflexivity.
Qed.

Lemma X14_witness :
  addEventRunner idOfClub (fun _ => springCup []) castKnownPaths carol
    "5c00000000000000000000e1" [("courseTitle", JStr "D35")]
    (snd (addEventRunner idOfClub (fun _ => springCup []) castKnownPaths carol
            "5c00000000000000000000e1" [("courseTitle", JStr "D21")]
            [rawEvent]))
  = (Failed 400 AddRunner_RunnerAlreadyPresent,
     snd (addEventRunner idOfClub (fun _ => springCup []) castKnownPaths carol
            "5c00000000000000000000e1" [("courseTitle", JStr "D21")]
            [rawEvent])).
Proof.
  exact (X14_addEventRunner_refuses_a_second_entry
           idOfClub (fun _ => springCup []) castKnownPaths carol
           "5c00000000000000000000e1"
           [("courseTitle", JStr "D21")] [("courseTitle", JStr "D35")]
           [rawEvent] _ _ eq_refl).
Defined.

Lemma addEventRunner_canSee_eq documentToString u r :
  AddEventRunner.canSee documentToString u r
  = GetEvent.canSee documentToString u r.
Proof.
  unfold AddEventRunner.canSee, GetEvent.canSee, GetEvent.requestorId,
    GetEvent.requestorClubs.
  destruct (ReqUser.role u); reflexivity.
Qed.

(** X15: the visibility filter that [addEventRunner] applies to its answer
    is the one of [getEvent]: for every requester and every populated
    event the two give the same document. An admin or standard requester
    always passes the test on an entry of their own. *)
Theorem X15_addEventRunner_filters_like_getEvent :
  forall (documentToString : Club.t -> string) (u : ReqUser.t),
    (forall updatedEvent : DetailEvent,
        AddEventRunner.filteredEvent documentToString u updatedEvent
        = GetEvent.filteredEvent documentToString u updatedEvent)
    /\ (forall r : DetailRunner,
          ReqUser.role u = RAdmin \/ ReqUser.role u = RStandard ->
          User._id (Runner.user r) = ReqUser._id u ->
          AddEventRunner.canSee documentToString u r = true).
Proof.
  intros documentToString u. split.
  - intros d. unfold AddEventRunner.filteredEvent, GetEvent.filteredEvent,
      GetEvent.selectedRunners.
    destruct (0 <? length (Event.runners d))%nat; [|reflexivity].
    f_equal. f_equal. apply map_ext. intros r.
    rewrite addEventRunner_canSee_eq. reflexivity.
  - intros r Hrole Hown. rewrite addEventRunner_canSee_eq, detail_canSee_clauses.
    unfold clauses, GetEvent.requestorId. rewrite Hown.
    destruct Hrole as [-> | ->]; simpl; [reflexivity|].
    rewrite String.eqb_refl. simpl.
    rewrite !orb_true_r. reflexivity.
Qed.

(** ** The map controllers *)

(** X16: the permission to upload a map and the permission to delete one
    are the same test: the requester is an admin, or a standard user
    acting on their own maps. A guest never passes, not even for their own
    maps, and [deleteMap] then answers 401 before it looks at the ids,
    leaving the store as it is. *)
Theorem X16_map_permission :
  forall (user : ReqUser.t) (userid : string),
    (validateMapUploadPermission user userid = Next
     <-> deleteMap_allowedToDeleteMap user userid = true)
    /\ (deleteMap_allowedToDeleteMap user userid = true
        <-> ReqUser.role user = RAdmin
            \/ (ReqUser.role user = RStandard
                /\ toString (ReqUser._id user) = userid))
    /\ (ReqUser.role user = RGuest ->
        validateMapUploadPermission user userid = Halt 401 NotAllowedToUploadMap)
    /\ (deleteMap_allowedToDeleteMap user userid = false ->
        forall validates afterMapDoesNotExist eventid maptype maptitle s,
          deleteMap validates afterMapDoesNotExist user eventid userid
                    maptype maptitle s
          = (Failed 401 NotAllowedToDeleteMap, s)).
Proof.
  intros user userid.
  unfold validateMapUploadPermission, deleteMap_allowedToDeleteMap.
  split.
  { destruct (Role_eqb (ReqUser.role user) RAdmin
              || Role_eqb (ReqUser.role user) RStandard
                 && String.eqb (toString (ReqUser._id user)) userid);
      simpl; split; intros H; try reflexivity; discriminate H. }
  split.
  { rewrite orb_true_iff, andb_true_iff, !Role_eqb_eq, String.eqb_eq. tauto. }
  split.
  { intros ->. reflexivity. }
  intros Hno validates afterMapDoesNotExist eventid maptype maptitle s.
  unfold deleteMap, deleteMap_allowedToDeleteMap. rewrite Hno. reflexivity.
Qed.

Lemma allRunners_Forall2 {A B : Type} (f : A -> option B) l l' :
  allRunners (map f l) = Some l' -> Forall2 (fun x y => f x = Some y) l l'.
Proof.
  revert l'. induction l as [|x l IH]; simpl; intros l' H.
  - injection H as <-. constructor.
  - destruct (f x) as [y|] eqn:Hx; [|discriminate].
    destruct (allRunners (map f l)) as [ys|]; [|discriminate].
    injection H as <-. constructor; [exact Hx | apply IH; reflexivity].
Qed.

Lemma Forall2_allRunners {A B : Type} (f : A -> option B) l l' :
  Forall2 (fun x y => f x = Some y) l l' -> allRunners (map f l) = Some l'.
Proof.
  induction 1 as [|x y l l' Hx _ IH]; simpl; [reflexivity|].
  rewrite Hx, IH. reflexivity.
Qed.

Lemma deleteMap_newMap_cleared maptype title m :
  clearedMap maptype title m (deleteMap_newMap maptype title m).
Proof.
  unfold clearedMap, deleteMap_newMap.
  destruct (hasTitle title m); [|reflexivity].
  destruct maptype; repeat split.
Qed.

Lemma deleteMap_newRunner_cleared userid maptype title r r' :
  deleteMap_newRunner userid maptype title r = Some r' ->
  clearedRunner userid maptype title r r'.
Proof.
  unfold deleteMap_newRunner, clearedRunner.
  destruct (isRunner userid r); [|intros [= <-]; reflexivity].
  destruct (existsb (hasTitle title) (Runner.maps r)); [|discriminate].
  intros [= <-]. split; [repeat split|]. simpl.
  induction (Runner.maps r) as [|m ms IH]; simpl; constructor;
    [apply deleteMap_newMap_cleared | exact IH].
Qed.

Lemma deleteMap_replied validates afterMapDoesNotExist user eventid userid
      maptype maptitle s e' s' :
  deleteMap validates afterMapDoesNotExist user eventid userid maptype
            maptitle s
  = (Replied 200 e', s') ->
  exists e runners,
    deleteMap_allowedToDeleteMap user userid = true
    /\ ObjectID_isValid eventid = true
    /\ ObjectID_isValid userid = true
    /\ findEventById eventid s = Some e
    /\ allRunners (map (deleteMap_newRunner userid maptype (titleOf maptitle))
                       (Event.runners e)) = Some runners
    /\ existsb (isRunner userid) (Event.runners e) = true
    /\ e' = Event.set_runners runners e
    /\ validates e' = true
    /\ s' = setEvents (updateFirst (hasEventId eventid) (fun _ => e')
                                   (Store.events s)) s.
Proof.
  unfold deleteMap. intros H.
  destruct (deleteMap_allowedToDeleteMap user userid); [|discriminate].
  cbn [negb] in H. cbv zeta in H.
  destruct (ObjectID_isValid eventid); [|discriminate].
  destruct (ObjectID_isValid userid); [|discriminate].
  cbn [negb orb] in H.
  destruct (findEventById eventid s) as [e|]; [|discriminate].
  destruct (allRunners _) as [runners|] eqn:Hall; [|discriminate].
  destruct (existsb (isRunner userid) (Event.runners e)) eqn:Hexists;
    [|discriminate].
  cbn [negb] in H.
  destruct (validates (Event.set_runners runners e)) eqn:Hsave; [|discriminate].
  injection H as <- <-. exists e, runners.
  repeat split; try reflexivity; assumption.
Qed.

Lemma hasEventId_set_runners eventid (rs : list StoredRunner) (e : StoredEvent) :
  hasEventId eventid (Event.set_runners rs e) = hasEventId eventid e.
Proof. reflexivity. Qed.

(** X17: [deleteMap] removes nothing. After a successful call every
    event, every runner entry and every map is still there: in the
    addressed runner's entries the maps of the given title have the path
    emptied and their geographic data dropped, also when only one of two
    images is deleted, and keep their title, other path and overlay; every
    other map, runner entry, event-level field and event is as it was. *)
Theorem X17_deleteMap_empties_and_keeps :
  forall (validates : StoredEvent -> bool)
         (afterMapDoesNotExist :
            Store.t -> StoredEvent -> list (option StoredRunner) -> Store.t)
         (user : ReqUser.t) (eventid userid : string) (maptype : MapType)
         (maptitle : option string) (s s' : Store.t) (e' : StoredEvent),
    deleteMap validates afterMapDoesNotExist user eventid userid maptype
              maptitle s
    = (Replied 200 e', s') ->
    exists e,
      findEventById eventid s = Some e
      /\ sameEventButRunners e e'
      /\ Forall2 (clearedRunner userid maptype (titleOf maptitle))
                 (Event.runners e) (Event.runners e')
      /\ findEventById eventid s' = Some e'
      /\ length (Store.events s') = length (Store.events s)
      /\ (forall x, In x (Store.events s) -> hasEventId eventid x = false ->
                    In x (Store.events s'))
      /\ Store.linkedEvents s' = Store.linkedEvents s.
Proof.
  intros validates afterMapDoesNotExist user eventid userid maptype maptitle
         s s' e' H.
  apply deleteMap_replied in H.
  destruct H as (e & runners & _ & _ & _ & Hfind & Hall & _ & -> & _ & ->).
  exists e. split; [exact Hfind|].
  split; [repeat split|]. split.
  { simpl. apply allRunners_Forall2 in Hall.
    induction Hall as [|r r' rs rs' Hr _ IH]; constructor; [|exact IH].
    apply deleteMap_newRunner_cleared, Hr. }
  split.
  { unfold findEventById. simpl.
    apply (find_updateFirst (hasEventId eventid)
                            (fun _ => Event.set_runners runners e)
                            (Store.events s) e);
      [exact Hfind|].
    rewrite hasEventId_set_runners.
    apply find_some in Hfind. destruct Hfind as [_ Hid]. exact Hid. }
  split; [apply length_updateFirst|]. split; [|reflexivity].
  intros x Hx Hother. apply in_updateFirst_other; assumption.
Qed.

Lemma X17_witness :
  exists e,
    findEventById "5c00000000000000000000e2" mappedStore = Some e
    /\ Forall2 (clearedRunner "5c0000000000000000000ca0" Course "map")
         (Event.runners e)
         [Runner.mk carolId VAll []
            [MapRecord.mk "map" (Some "") (Some "images/maps/e2/r.jpg") None
                          false (Some (JObj []))]
            []].
Proof.
  destruct (X17_deleteMap_empties_and_keeps
              acceptAll keepStore carol "5c00000000000000000000e2"
              "5c0000000000000000000ca0" Course None mappedStore _ _ eq_refl)
    as (e & Hfind & _ & Hrunners & _).
  exists e. split; [exact Hfind | exact Hrunners].
Defined.

Lemma updateFirst_again {A : Type} (p : A -> bool) (y : A) l :
  p y = true ->
  updateFirst p (fun _ => y) (updateFirst p (fun _ => y) l)
  = updateFirst p (fun _ => y) l.
Proof.
  intros Hy. induction l as [|d rest IH]; simpl; [reflexivity|].
  destruct (p d) eqn:Hd; simpl.
  - rewrite Hy. reflexivity.
  - rewrite Hd, IH. reflexivity.
Qed.

Lemma deleteMap_newMap_again maptype title m :
  deleteMap_newMap maptype title (deleteMap_newMap maptype title m)
  = deleteMap_newMap maptype title m.
Proof.
  unfold deleteMap_newMap.
  destruct (hasTitle title m) eqn:Hm; [|rewrite Hm; reflexivity].
  assert (Hkept : hasTitle title (setGeo false (JObj []) (setPath maptype "" m))
                  = true) by (destruct maptype; exact Hm).
  rewrite Hkept. destruct maptype; reflexivity.
Qed.

Lemma existsb_hasTitle_newMap maptype title maps :
  existsb (hasTitle title) (map (deleteMap_newMap maptype title) maps)
  = existsb (hasTitle title) maps.
Proof.
  induction maps as [|m maps IH]; simpl; [reflexivity|].
  rewrite IH. f_equal. unfold deleteMap_newMap.
  destruct (hasTitle title m) eqn:Hm; [|exact Hm].
  destruct maptype; exact Hm.
Qed.

Lemma deleteMap_newRunner_again userid maptype title r r' :
  deleteMap_newRunner userid maptype title r = Some r' ->
  deleteMap_newRunner userid maptype title r' = Some r'
  /\ isRunner userid r' = isRunner userid r.
Proof.
  unfold deleteMap_newRunner.
  destruct (isRunner userid r) eqn:Hr.
  - destruct (existsb (hasTitle title) (Runner.maps r)) eqn:Hmaps;
      [|discriminate].
    intros [= <-]. unfold isRunner in *. simpl. rewrite Hr. split; [|reflexivity].
    rewrite existsb_hasTitle_newMap, Hmaps. simpl. unfold setMaps. simpl.
    do 2 f_equal. rewrite map_map. apply map_ext. intros m.
    apply deleteMap_newMap_again.
  - intros [= <-]. rewrite Hr. split; reflexivity.
Qed.

Lemma deleteMap_newRunners_again userid maptype title rs rs' :
  Forall2 (fun x y => deleteMap_newRunner userid maptype title x = Some y)
          rs rs' ->
  Forall2 (fun x y => deleteMap_newRunner userid maptype title x = Some y)
          rs' rs'
  /\ existsb (isRunner userid) rs' = existsb (isRunner userid) rs.
Proof.
  induction 1 as [|r r' rs rs' Hr _ [IH1 IH2]]; simpl.
  - split; [constructor | reflexivity].
  - apply deleteMap_newRunner_again in Hr. destruct Hr as [Hr1 Hr2].
    split; [constructor; assumption|]. rewrite Hr2, IH2. reflexivity.
Qed.

(** X18: deleting a map twice is deleting it once. After a successful
    [deleteMap] the map's entry is still there, so the same request
    succeeds again, with the same answer, and leaves the store as the first
    call left it (timestamps apart). *)
Theorem X18_deleteMap_twice :
  forall (validates : StoredEvent -> bool)
         (afterMapDoesNotExist :
            Store.t -> StoredEvent -> list (option StoredRunner) -> Store.t)
         (user : ReqUser.t) (eventid userid : string) (maptype : MapType)
         (maptitle : option string) (s s' : Store.t) (e' : StoredEvent),
    deleteMap validates afterMapDoesNotExist user eventid userid maptype
              maptitle s
    = (Replied 200 e', s') ->
    deleteMap validates afterMapDoesNotExist user eventid userid maptype
              maptitle s'
    = (Replied 200 e', s').
Proof.
  intros validates afterMapDoesNotExist user eventid userid maptype maptitle
         s s' e' H.
  apply deleteMap_replied in H.
  destruct H as (e & runners & Hallowed & Hev & Hus & Hfind & Hall & Hexists
                 & -> & Hsave & ->).
  assert (Hid : hasEventId eventid (Event.set_runners runners e) = true).
  { rewrite hasEventId_set_runners.
    apply find_some in Hfind. destruct Hfind as [_ Hid]. exact Hid. }
  apply allRunners_Forall2 in Hall.
  destruct (deleteMap_newRunners_again _ _ _ _ _ Hall) as [Hagain Hstill].
  unfold deleteMap. rewrite Hallowed, Hev, Hus. cbn [negb orb]. cbv zeta.
  unfold findEventById, setEvents. cbn [Store.events].
  rewrite (find_updateFirst (hasEventId eventid)
             (fun _ => Event.set_runners runners e) _ e Hfind Hid).
  cbn [Event.set_runners Event.runners].
  rewrite (Forall2_allRunners _ _ _ Hagain), Hstill, Hexists. cbn [negb].
  change (Event.set_runners runners (Event.set_runners runners e))
    with (Event.set_runners runners e).
  rewrite Hsave, (updateFirst_again _ _ _ Hid). reflexivity.
Qed.

Lemma X18_witness :
  deleteMap acceptAll keepStore carol "5c00000000000000000000e2"
            "5c0000000000000000000ca0" Course None
            (snd (deleteMap acceptAll keepStore carol
                            "5c00000000000000000000e2"
                            "5c0000000000000000000ca0" Course None mappedStore))
  = deleteMap acceptAll keepStore carol "5c00000000000000000000e2"
              "5c0000000000000000000ca0" Course None mappedStore.
Proof.
  exact (X18_deleteMap_twice
           acceptAll keepStore carol "5c00000000000000000000e2"
           "5c0000000000000000000ca0" Course None mappedStore _ _ eq_refl).
Defined.

Section PostMapFacts.

Variable trim : string -> string.
Variable validates : StoredEvent -> bool.
Variable newFileLocationOf : string -> string -> string.

Lemma postMap_replied file eventid userid maptype maptitle qRData
      trackCoords trackDistanceK s e' s' :
  postMap trim validates newFileLocationOf file eventid userid maptype
          maptitle qRData trackCoords trackDistanceK s
  = (Replied 200 e', s') ->
  exists filePath e,
    file = Some filePath
    /\ ObjectID_isValid eventid = true
    /\ ObjectID_isValid userid = true
    /\ findEventById eventid s = Some e
    /\ e' = setEventFields
              (postMap_location qRData (Event.fields e))
              (Event.set_runners
                 (map (postMap_newRunner trim userid maptype (titleOf maptitle)
                         (newFileLocationOf eventid filePath) qRData
                         (geoOf qRData trackCoords trackDistanceK))
                      (Event.runners e)
                  ++ (if existsb (isRunner userid) (Event.runners e) then []
                      else [postMap_runnerToAdd trim userid maptype
                              (titleOf maptitle)
                              (newFileLocationOf eventid filePath) qRData
                              (geoOf qRData trackCoords trackDistanceK)]))
                 e)
    /\ validates e' = true
    /\ s' = setEvents (updateFirst (hasEventId eventid) (fun _ => e')
                                   (Store.events s)) s.
Proof.
  unfold postMap. intros H.
  destruct file as [filePath|]; [|discriminate].
  cbv zeta in H.
  destruct (ObjectID_isValid eventid); [|discriminate].
  destruct (ObjectID_isValid userid); [|discriminate].
  cbn [negb orb] in H.
  destruct (findEventById eventid s) as [e|]; [|discriminate].
  destruct (existsb (isRunner userid) (Event.runners e)) eqn:Hexists;
    cbn [negb] in H.
  - destruct (validates _) eqn:Hsave; [|discriminate].
    injection H as <- <-. exists filePath, e. rewrite Hexists, app_nil_r.
    repeat split; try reflexivity; assumption.
  - destruct (validates _) eqn:Hsave; [|discriminate].
    injection H as <- <-. exists filePath, e. rewrite Hexists.
    repeat split; try reflexivity; assumption.
Qed.

Lemma pathOf_setPath maptype location m :
  pathOf maptype (setPath maptype location m) = Some location.
Proof. destruct maptype; reflexivity. Qed.

Lemma postMap_newMap_uploaded maptype title location qRData geo m :
  uploadedMap maptype title (trim location) (QRData.isGeocoded qRData) geo m
              (postMap_newMap trim maptype title location qRData geo m).
Proof.
  unfold uploadedMap, postMap_newMap.
  destruct (hasTitle title m); [|reflexivity].
  destruct (QRData.isGeocoded qRData), maptype; repeat split.
Qed.

Lemma postMap_mapToAdd_holds maptype title location qRData geo :
  holdsUpload trim maptype title location
              (postMap_mapToAdd trim maptype title location qRData geo)
  /\ (QRData.isGeocoded qRData = true ->
      MapRecord.isGeocoded
        (postMap_mapToAdd trim maptype title location qRData geo) = true
      /\ MapRecord.geo (postMap_mapToAdd trim maptype title location qRData geo)
         = Some geo).
Proof.
  unfold holdsUpload, postMap_mapToAdd.
  destruct (QRData.isGeocoded qRData), maptype; simpl;
    (split; [split; [right; reflexivity | reflexivity]|]);
    intros H; try discriminate H; split; reflexivity.
Qed.

Lemma postMap_newMap_holds maptype title location qRData geo m :
  hasTitle title m = true ->
  holdsUpload trim maptype title location
              (postMap_newMap trim maptype title location qRData geo m)
  /\ (QRData.isGeocoded qRData = true ->
      MapRecord.isGeocoded
        (postMap_newMap trim maptype title location qRData geo m) = true
      /\ MapRecord.geo (postMap_newMap trim maptype title location qRData geo m)
         = Some geo).
Proof.
  intros Hm. unfold holdsUpload, postMap_newMap. rewrite Hm.
  apply String.eqb_eq in Hm.
  destruct (QRData.isGeocoded qRData), maptype; simpl;
    (split; [split; [left; exact Hm | reflexivity]|]);
    intros H; try discriminate H; split; reflexivity.
Qed.

(** Every entry of the user that [postMap] stores holds the upload. *)
Lemma postMap_newRunner_holds userid maptype title location qRData geo r :
  isRunner userid r = true ->
  exists m,
    In m (Runner.maps (postMap_newRunner trim userid maptype title location
                                         qRData geo r))
    /\ holdsUpload trim maptype title location m
    /\ (QRData.isGeocoded qRData = true ->
        MapRecord.isGeocoded m = true /\ MapRecord.geo m = Some geo).
Proof.
  intros Hr. unfold postMap_newRunner. rewrite Hr.
  destruct (existsb (hasTitle title) (Runner.maps r)) eqn:Hmaps; cbn [negb].
  - apply existsb_exists in Hmaps. destruct Hmaps as [m0 [Hin Hm0]].
    exists (postMap_newMap trim maptype title location qRData geo m0).
    split; [simpl; apply in_map, Hin|].
    apply postMap_newMap_holds, Hm0.
  - exists (postMap_mapToAdd trim maptype title location qRData geo).
    split; [simpl; apply in_or_app; right; left; reflexivity|].
    apply postMap_mapToAdd_holds.
Qed.

Lemma isRunner_postMap_newRunner userid maptype title location qRData geo r :
  isRunner userid (postMap_newRunner trim userid maptype title location
                                     qRData geo r)
  = isRunner userid r.
Proof.
  unfold postMap_newRunner.
  destruct (isRunner userid r) eqn:Hr; [|exact Hr].
  destruct (negb _); exact Hr.
Qed.

Lemma postMap_runners_hold userid maptype title location qRData geo rs r :
  In r (map (postMap_newRunner trim userid maptype title location qRData geo) rs
        ++ (if existsb (isRunner userid) rs then []
            else [postMap_runnerToAdd trim userid maptype title location
                                      qRData geo])) ->
  isRunner userid r = true ->
  exists m,
    In m (Runner.maps r)
    /\ holdsUpload trim maptype title location m
    /\ (QRData.isGeocoded qRData = true ->
        MapRecord.isGeocoded m = true /\ MapRecord.geo m = Some geo).
Proof.
  intros Hin Hr. apply in_app_or in Hin. destruct Hin as [Hin|Hin].
  - apply in_map_iff in Hin. destruct Hin as [r0 [<- Hr0]].
    rewrite isRunner_postMap_newRunner in Hr.
    apply postMap_newRunner_holds, Hr.
  - destruct (existsb (isRunner userid) rs); [destruct Hin|].
    destruct Hin as [<-|[]].
    exists (postMap_mapToAdd trim maptype title location qRData geo).
    split; [left; reflexivity | apply postMap_mapToAdd_holds].
Qed.

Lemma postMap_runner_exists userid maptype title location qRData geo rs :
  toString (castObjectID userid) = userid ->
  existsb (isRunner userid)
          (map (postMap_newRunner trim userid maptype title location qRData geo)
               rs
           ++ (if existsb (isRunner userid) rs then []
               else [postMap_runnerToAdd trim userid maptype title location
                                         qRData geo]))
  = true.
Proof.
  intros Hcanonical. rewrite existsb_app.
  destruct (existsb (isRunner userid) rs) eqn:Hrs.
  - apply orb_true_iff. left. apply existsb_exists in Hrs.
    destruct Hrs as [r [Hin Hr]]. apply existsb_exists.
    exists (postMap_newRunner trim userid maptype title location qRData geo r).
    split; [apply in_map, Hin | rewrite isRunner_postMap_newRunner; exact Hr].
  - apply orb_true_iff. right. simpl. unfold isRunner. simpl.
    rewrite Hcanonical, String.eqb_refl. reflexivity.
Qed.

End PostMapFacts.

(** X19: an upload is found again. After a successful [postMap] for a
    user id given in the form ObjectIDs print in, the event holds a runner
    entry for the user, and every entry of the user holds a map under the
    title (as given, or trimmed when the map is new) whose path of the
    uploaded kind is the new file's location; from a geocoded image that
    map is marked geocoded and carries the decoded data. *)
Theorem X19_postMap_records_the_upload :
  forall (trim : string -> string) (validates : StoredEvent -> bool)
         (newFileLocationOf : string -> string -> string)
         (filePath eventid userid : string) (maptype : MapType)
         (maptitle : option string) (qRData : QRData.t)
         (trackCoords trackDistanceK : json) (s s' : Store.t)
         (e' : StoredEvent),
    postMap trim validates newFileLocationOf (Some filePath) eventid userid
            maptype maptitle qRData trackCoords trackDistanceK s
    = (Replied 200 e', s') ->
    toString (castObjectID userid) = userid ->
    findEventById eventid s' = Some e'
    /\ existsb (isRunner userid) (Event.runners e') = true
    /\ forall r, In r (Event.runners e') ->
         Runner.user r = castObjectID userid ->
         exists m,
           In m (Runner.maps r)
           /\ holdsUpload trim maptype (titleOf maptitle)
                          (newFileLocationOf eventid filePath) m
           /\ (QRData.isGeocoded qRData = true ->
               MapRecord.isGeocoded m = true
               /\ MapRecord.geo m
                  = Some (geoOf qRData trackCoords trackDistanceK)).
Proof.
  intros trim validates newFileLocationOf filePath eventid userid maptype
         maptitle qRData trackCoords trackDistanceK s s' e' H Hcanonical.
  apply postMap_replied in H.
  destruct H as (filePath0 & e & [= <-] & _ & _ & Hfind & -> & _ & ->).
  split.
  { unfold findEventById. simpl.
    match goal with
    | |- find _ (updateFirst _ (fun _ => ?y) _) = _ =>
        apply (find_updateFirst (hasEventId eventid) (fun _ => y)
                                (Store.events s) e Hfind)
    end.
    apply find_some in Hfind. destruct Hfind as [_ Hid]. exact Hid. }
  split; [apply postMap_runner_exists, Hcanonical|].
  intros r Hin Hr. simpl in Hin.
  assert (Hrunner : isRunner userid r = true).
  { unfold isRunner. rewrite Hr, Hcanonical. apply String.eqb_refl. }
  apply (postMap_runners_hold trim userid maptype (titleOf maptitle)
           (newFileLocationOf eventid filePath) qRData
           (geoOf qRData trackCoords trackDistanceK) (Event.runners e) r Hin
           Hrunner).
Qed.

Lemma X19_witness :
  exists m,
    In m [MapRecord.mk "map" (Some "images/maps/e2/c.jpg")
                       (Some "images/maps/5c00000000000000000000e2/new.jpg")
                       None true (Some (JObj [("track", JArr [])]))]
    /\ holdsUpload noTrim Route "map"
                   "images/maps/5c00000000000000000000e2/new.jpg" m.
Proof.
  destruct (X19_postMap_records_the_upload
              noTrim acceptAll joinPath "new.jpg" "5c00000000000000000000e2"
              "5c0000000000000000000ca0" Route None notGeocoded JNull JNull
              mappedStore _ _ eq_refl eq_refl)
    as (_ & _ & Hall).
  destruct (Hall _ (or_introl eq_refl) eq_refl) as (m & Hin & Hholds & _).
  exists m. split; [exact Hin | exact Hholds].
Defined.

(** An upload for a user id in another spelling: the entry of the user is
    not recognised, since the test compares string forms, and a second
    entry of the same user is stored, which alone holds the map. *)
Lemma postMap_other_spelling :
  map (fun r => (Runner.user r, length (Runner.maps r)))
      (Event.runners mappedEvent)
  = [(carolId, 1)]
  /\ exists e' s',
       postMap noTrim acceptAll joinPath (Some "new.jpg")
               "5c00000000000000000000e2" "5C0000000000000000000CA0" Route
               (Some "forest") notGeocoded JNull JNull mappedStore
       = (Replied 200 e', s')
       /\ map (fun r => (Runner.user r, map MapRecord.title (Runner.maps r)))
              (Event.runners e')
          = [(carolId, ["map"]); (carolId, ["forest"])].
Proof. split; [reflexivity|]. eexists _, _. split; reflexivity. Qed.

Lemma getField_setField key key' value o :
  getField key (setField key' value o)
  = if String.eqb key' key then Some value else getField key o.
Proof.
  induction o as [|[k0 v0] o IH]; simpl.
  - reflexivity.
  - destruct (String.eqb_spec k0 key') as [->|Hne]; simpl.
    + destruct (String.eqb key' key); reflexivity.
    + rewrite IH. destruct (String.eqb_spec k0 key) as [->|_]; [|reflexivity].
      destruct (String.eqb_spec key' key) as [Heq|_]; [|reflexivity].
      contradiction Hne. symmetry. exact Heq.
Qed.

Lemma postMap_location_other qRData fields key :
  ~ In key locationKeys ->
  getField key (postMap_location qRData fields) = getField key fields.
Proof.
  intros Hkey. unfold postMap_location.
  assert (Hsw : String.eqb "locCornerSW" key = false)
    by (apply String.eqb_neq; intros <-; apply Hkey; simpl; tauto).
  assert (Hne : String.eqb "locCornerNE" key = false)
    by (apply String.eqb_neq; intros <-; apply Hkey; simpl; tauto).
  assert (Hlat : String.eqb "locLat" key = false)
    by (apply String.eqb_neq; intros <-; apply Hkey; simpl; tauto).
  assert (Hlong : String.eqb "locLong" key = false)
    by (apply String.eqb_neq; intros <-; apply Hkey; simpl; tauto).
  destruct (QRData.isGeocoded qRData); [|reflexivity]. cbv zeta.
  destruct (isEmptyCorner (getField "locCornerSW" fields)),
    (isEmptyCorner (getField "locCornerNE" fields)),
    (isEmptyCoordinate (getField "locLat" fields)),
    (isEmptyCoordinate (getField "locLong" fields));
    rewrite ?getField_setField, ?Hsw, ?Hne, ?Hlat, ?Hlong; reflexivity.
Qed.

Lemma postMap_location_keys qRData fields :
  QRData.isGeocoded qRData = true ->
  getField "locCornerSW" (postMap_location qRData fields)
  = (if isEmptyCorner (getField "locCornerSW" fields)
     then Some (JArr [LatLong.lat (Corners.sw (QRData.mapCorners qRData));
                      LatLong.long (Corners.sw (QRData.mapCorners qRData))])
     else getField "locCornerSW" fields)
  /\ getField "locCornerNE" (postMap_location qRData fields)
     = (if isEmptyCorner (getField "locCornerNE" fields)
        then Some (JArr [LatLong.lat (Corners.ne (QRData.mapCorners qRData));
                         LatLong.long (Corners.ne (QRData.mapCorners qRData))])
        else getField "locCornerNE" fields)
  /\ getField "locLat" (postMap_location qRData fields)
     = (if isEmptyCoordinate (getField "locLat" fields)
        then Some (LatLong.lat (QRData.mapCentre qRData))
        else getField "locLat" fields)
  /\ getField "locLong" (postMap_location qRData fields)
     = (if isEmptyCoordinate (getField "locLong" fields)
        then Some (LatLong.long (QRData.mapCentre qRData))
        else getField "locLong" fields).
Proof.
  intros Hgeo. unfold postMap_location. rewrite Hgeo. cbv zeta.
  destruct (isEmptyCorner (getField "locCornerSW" fields)),
    (isEmptyCorner (getField "locCornerNE" fields)),
    (isEmptyCoordinate (getField "locLat" fields)),
    (isEmptyCoordinate (getField "locLong" fields));
    rewrite ?getField_setField; repeat split.
Qed.

(** X20: [postMap] fills the event's own location from the map only where
    the event has none, and only from a geocoded image: each of the south-
    west and north-east corners, the latitude and the longitude keeps a
    non-empty stored value and otherwise takes the map's; every other
    event-level field is untouched. A stored latitude or longitude of 0
    counts as none and is overwritten. *)
Theorem X20_postMap_fills_only_a_missing_location :
  forall (trim : string -> string) (validates : StoredEvent -> bool)
         (newFileLocationOf : string -> string -> string)
         (file : option string) (eventid userid : string) (maptype : MapType)
         (maptitle : option string) (qRData : QRData.t)
         (trackCoords trackDistanceK : json) (s s' : Store.t)
         (e' : StoredEvent),
    postMap trim validates newFileLocationOf file eventid userid maptype
            maptitle qRData trackCoords trackDistanceK s
    = (Replied 200 e', s') ->
    exists e,
      findEventById eventid s = Some e
      /\ (forall key, ~ In key locationKeys ->
            getField key (Event.fields e') = getField key (Event.fields e))
      /\ (QRData.isGeocoded qRData = false -> Event.fields e' = Event.fields e)
      /\ (QRData.isGeocoded qRData = true ->
            getField "locCornerSW" (Event.fields e')
            = (if isEmptyCorner (getField "locCornerSW" (Event.fields e))
               then Some (JArr
                            [LatLong.lat (Corners.sw (QRData.mapCorners qRData));
                             LatLong.long (Corners.sw (QRData.mapCorners qRData))])
               else getField "locCornerSW" (Event.fields e))
            /\ getField "locCornerNE" (Event.fields e')
               = (if isEmptyCorner (getField "locCornerNE" (Event.fields e))
                  then Some (JArr
                               [LatLong.lat (Corners.ne (QRData.mapCorners qRData));
                                LatLong.long (Corners.ne (QRData.mapCorners qRData))])
                  else getField "locCornerNE" (Event.fields e))
            /\ getField "locLat" (Event.fields e')
               = (if isEmptyCoordinate (getField "locLat" (Event.fields e))
                  then Some (LatLong.lat (QRData.mapCentre qRData))
                  else getField "locLat" (Event.fields e))
            /\ getField "locLong" (Event.fields e')
               = (if isEmptyCoordinate (getField "locLong" (Event.fields e))
                  then Some (LatLong.long (QRData.mapCentre qRData))
                  else getField "locLong" (Event.fields e)))
      /\ isEmptyCoordinate (Some (JNum 0)) = true
      /\ (forall z, z <> 0%Z -> isEmptyCoordinate (Some (JNum z)) = false).
Proof.
  intros trim validates newFileLocationOf file eventid userid maptype maptitle
         qRData trackCoords trackDistanceK s s' e' H.
  apply postMap_replied in H.
  destruct H as (filePath & e & _ & _ & _ & Hfind & -> & _ & _).
  exists e. split; [exact Hfind|]. simpl.
  split; [intros key Hkey; apply postMap_location_other, Hkey|].
  split; [intros Hgeo; unfold postMap_location; rewrite Hgeo; reflexivity|].
  split; [apply postMap_location_keys|].
  split; [reflexivity|].
  intros z Hz. unfold isEmptyCoordinate, jsTruthy.
  destruct (Z.eqb_spec z 0); [contradiction | reflexivity].
Qed.

Lemma X20_witness :
  getField "locLat"
    (Event.fields
       (Event.mk eventB bobId "2019-05-01" "May Day Sprint" (Some "4321") [] []
          (postMap_location geocoded [("locLat", JNum 0)])
          [carolWithMap] true))
  = Some (JNum 50).
Proof.
  destruct (X20_postMap_fills_only_a_missing_location
              noTrim acceptAll joinPath (Some "new.jpg")
              "5c00000000000000000000e2" "5c0000000000000000000ca0" Route
              (Some "other") geocoded JNull JNull mappedStore _ _ eq_refl)
    as (e & Hfind & _ & _ & Hgeo & _).
  injection Hfind as <-.
  destruct (Hgeo eq_refl) as (_ & _ & Hlat & _).
  simpl in Hlat |- *. exact Hlat.
Defined.

Lemma postMap_newRunner_uploaded trim userid maptype title location qRData geo r :
  uploadedRunner userid maptype title (trim location)
                 (QRData.isGeocoded qRData) geo r
                 (postMap_newRunner trim userid maptype title location
                                    qRData geo r).
Proof.
  unfold uploadedRunner, postMap_newRunner.
  destruct (isRunner userid r); [|reflexivity].
  assert (Hmaps : Forall2 (uploadedMap maptype title (trim location)
                                       (QRData.isGeocoded qRData) geo)
                    (Runner.maps r)
                    (map (postMap_newMap trim maptype title location qRData geo)
                         (Runner.maps r))).
  { induction (Runner.maps r) as [|m ms IH]; simpl; constructor;
      [apply postMap_newMap_uploaded | exact IH]. }
  destruct (negb (existsb (hasTitle title) (Runner.maps r))).
  - split; [repeat split|]. eexists _, _. split; [reflexivity|].
    split; [exact Hmaps | simpl; lia].
  - split; [repeat split|]. exists (map (postMap_newMap trim maptype title location qRData geo) (Runner.maps r)), [].
    split; [simpl; rewrite app_nil_r; reflexivity|].
    split; [exact Hmaps | simpl; lia].
Qed.

Lemma isRunner_cast userid (r : StoredRunner) :
  toString (castObjectID userid) = userid ->
  isRunner userid r = ObjectID_eqb (Runner.user r) (castObjectID userid).
Proof.
  intros Hcanonical. unfold isRunner, ObjectID_eqb.
  rewrite Hcanonical. reflexivity.
Qed.

(** X21: [postMap] removes nothing and touches only the entries whose user
    prints as the given user id. After a successful call the runner
    entries are the earlier ones in their order, followed by a new entry
    (of the user that the id is cast to, with visibility 'all' and no
    details) exactly when no entry's user printed as the id; an entry of
    another user is unchanged; an entry recognised as the user's keeps its
    user, visibility, details and comments and every map it had, a map of
    another title unchanged, with at most one new map appended. For an id
    given in the form ObjectIDs print in, the entries recognised are the
    entries of the user, so that the new entry is added exactly when the
    user had none. The other events and the event's id, owner, date, name
    and references are as they were. *)
Theorem X21_postMap_adds_and_keeps :
  forall (trim : string -> string) (validates : StoredEvent -> bool)
         (newFileLocationOf : string -> string -> string)
         (filePath eventid userid : string) (maptype : MapType)
         (maptitle : option string) (qRData : QRData.t)
         (trackCoords trackDistanceK : json) (s s' : Store.t)
         (e' : StoredEvent),
    postMap trim validates newFileLocationOf (Some filePath) eventid userid
            maptype maptitle qRData trackCoords trackDistanceK s
    = (Replied 200 e', s') ->
    exists e kept added,
      findEventById eventid s = Some e
      /\ sameEventButFieldsAndRunners e e'
      /\ Event.runners e' = kept ++ added
      /\ Forall2 (uploadedRunner userid maptype (titleOf maptitle)
                    (trim (newFileLocationOf eventid filePath))
                    (QRData.isGeocoded qRData)
                    (geoOf qRData trackCoords trackDistanceK))
                 (Event.runners e) kept
      /\ (if existsb (isRunner userid) (Event.runners e)
          then added = []
          else exists r, added = [r]
                         /\ Runner.user r = castObjectID userid
                         /\ Runner.visibility r = VAll
                         /\ Runner.details r = []
                         /\ Runner.comments r = []
                         /\ length (Runner.maps r) = 1%nat)
      /\ (toString (castObjectID userid) = userid ->
          existsb (isRunner userid) (Event.runners e)
          = existsb (fun r => ObjectID_eqb (Runner.user r) (castObjectID userid))
                    (Event.runners e))
      /\ length (Store.events s') = length (Store.events s)
      /\ (forall x, In x (Store.events s) -> hasEventId eventid x = false ->
                    In x (Store.events s'))
      /\ Store.linkedEvents s' = Store.linkedEvents s.
Proof.
  intros trim validates newFileLocationOf filePath eventid userid maptype
         maptitle qRData trackCoords trackDistanceK s s' e' H.
  apply postMap_replied in H.
  destruct H as (filePath0 & e & [= <-] & _ & _ & Hfind & -> & _ & ->).
  eexists e, _, _. split; [exact Hfind|].
  split; [repeat split|]. split; [simpl; reflexivity|]. split.
  { induction (Event.runners e) as [|r rs IH]; simpl; constructor;
      [apply postMap_newRunner_uploaded | exact IH]. }
  split.
  { destruct (existsb (isRunner userid) (Event.runners e)); [reflexivity|].
    eexists. split; [reflexivity|]. repeat split. }
  split.
  { intros Hcanonical.
    induction (Event.runners e) as [|r rs IH]; simpl; [reflexivity|].
    rewrite (isRunner_cast userid r Hcanonical), IH. reflexivity. }
  split; [apply length_updateFirst|]. split; [|reflexivity].
  intros x Hx Hother. apply in_updateFirst_other; assumption.
Qed.

Lemma X21_witness :
  exists (e : StoredEvent) (kept added : list StoredRunner),
    findEventById "5c00000000000000000000e2" mappedStore = Some e
    /\ Forall2 (uploadedRunner "5c0000000000000000000a11" Course "map"
                  "images/maps/5c00000000000000000000e2/new.jpg" false
                  (geoOf notGeocoded JNull JNull))
               (Event.runners e) kept
    /\ length added = 1%nat.
Proof.
  destruct (X21_postMap_adds_and_keeps
              noTrim acceptAll joinPath "new.jpg" "5c00000000000000000000e2"
              "5c0000000000000000000a11" Course None notGeocoded JNull JNull
              mappedStore _ _ eq_refl)
    as (e & kept & added & Hfind & _ & _ & Hkept & Hadded & _).
  injection Hfind as <-. simpl in Hadded.
  destruct Hadded as (r & -> & _).
  exists mappedEvent, kept, [r]. split; [reflexivity|].
  split; [exact Hkept | reflexivity].
Defined.

Lemma Forall2_In_r {A B : Type} (R : A -> B -> Prop) l l' y :
  Forall2 R l l' -> In y l' -> exists x, In x l /\ R x y.
Proof.
  induction 1 as [|x0 y0 l l' Hxy _ IH]; simpl; [tauto|].
  intros [<-|Hin].
  - exists x0. split; [left; reflexivity | exact Hxy].
  - destruct (IH Hin) as [x [Hx Hr]]. exists x. split; [right; exact Hx | exact Hr].
Qed.

Lemma Forall2_In_l {A B : Type} (R : A -> B -> Prop) l l' x :
  Forall2 R l l' -> In x l -> exists y, In y l' /\ R x y.
Proof.
  induction 1 as [|x0 y0 l l' Hxy _ IH]; simpl; [tauto|].
  intros [<-|Hin].
  - exists y0. split; [left; reflexivity | exact Hxy].
  - destruct (IH Hin) as [y [Hy Hr]]. exists y. split; [right; exact Hy | exact Hr].
Qed.

Lemma deleteMap_newRunners_total userid maptype title rs :
  (forall r, In r rs -> isRunner userid r = true ->
             existsb (hasTitle title) (Runner.maps r) = true) ->
  exists rs',
    allRunners (map (deleteMap_newRunner userid maptype title) rs) = Some rs'.
Proof.
  induction rs as [|r rs IH]; simpl; intros Hall.
  - exists []. reflexivity.
  - destruct IH as [rs' Hrs'].
    { intros r0 Hin. apply Hall. right. exact Hin. }
    rewrite Hrs'. unfold deleteMap_newRunner at 1.
    destruct (isRunner userid r) eqn:Hr.
    + rewrite (Hall r (or_introl eq_refl) Hr). simpl. eexists. reflexivity.
    + simpl. eexists. reflexivity.
Qed.

(** X22: a map that has been uploaded can be deleted, and its entry
    stays. After a successful [postMap] for a user id given in the form
    ObjectIDs print in, under a title the trim setter leaves as it is,
    [deleteMap] for the same event, user, kind and title, by a permitted
    requester, never answers that the runner or the map does not exist: it
    saves (unless the validators refuse) an event in which every entry of
    the user still holds a map under the title, its path of that kind now
    empty. *)
Theorem X22_deleteMap_after_postMap :
  forall (trim : string -> string) (validates validates' : StoredEvent -> bool)
         (newFileLocationOf : string -> string -> string)
         (afterMapDoesNotExist :
            Store.t -> StoredEvent -> list (option StoredRunner) -> Store.t)
         (user : ReqUser.t) (filePath eventid userid : string)
         (maptype : MapType) (maptitle : option string) (qRData : QRData.t)
         (trackCoords trackDistanceK : json) (s s1 : Store.t)
         (e1 : StoredEvent),
    postMap trim validates newFileLocationOf (Some filePath) eventid userid
            maptype maptitle qRData trackCoords trackDistanceK s
    = (Replied 200 e1, s1) ->
    toString (castObjectID userid) = userid ->
    trim (titleOf maptitle) = titleOf maptitle ->
    deleteMap_allowedToDeleteMap user userid = true ->
    exists e2,
      sameEventButRunners e1 e2
      /\ Forall2 (clearedRunner userid maptype (titleOf maptitle))
                 (Event.runners e1) (Event.runners e2)
      /\ (forall r, In r (Event.runners e2) -> isRunner userid r = true ->
            exists m, In m (Runner.maps r)
                      /\ hasTitle (titleOf maptitle) m = true
                      /\ pathOf maptype m = Some "")
      /\ deleteMap validates' afterMapDoesNotExist user eventid userid maptype
                   maptitle s1
         = if validates' e2
           then (Replied 200 e2,
                 setEvents (updateFirst (hasEventId eventid) (fun _ => e2)
                                        (Store.events s1)) s1)
           else (Failed 400 Map_Thrown, s1).
Proof.
  intros trim validates validates' newFileLocationOf afterMapDoesNotExist user
         filePath eventid userid maptype maptitle qRData trackCoords
         trackDistanceK s s1 e1 Hpost Hcanonical Htrim Hallowed.
  apply postMap_replied in Hpost.
  destruct Hpost as (filePath0 & e & [= <-] & Hev & Hus & Hfind & He1 & _ & ->).
  set (title := titleOf maptitle) in *.
  set (location := newFileLocationOf eventid filePath) in *.
  set (geo := geoOf qRData trackCoords trackDistanceK) in *.
  assert (Hfind1 : findEventById eventid
                     (setEvents (updateFirst (hasEventId eventid) (fun _ => e1)
                                             (Store.events s)) s)
                   = Some e1).
  { unfold findEventById. simpl.
    apply (find_updateFirst (hasEventId eventid) (fun _ => e1)
                            (Store.events s) e Hfind).
    rewrite He1. apply find_some in Hfind. destruct Hfind as [_ Hid]. exact Hid. }
  assert (Hheld : forall r, In r (Event.runners e1) -> isRunner userid r = true ->
            exists m, In m (Runner.maps r) /\ hasTitle title m = true).
  { intros r Hin Hr. rewrite He1 in Hin. simpl in Hin.
    destruct (postMap_runners_hold trim userid maptype title location qRData
                geo (Event.runners e) r Hin Hr)
      as (m & Hm & [[Ht|Ht] _] & _); exists m; (split; [exact Hm|]);
      unfold hasTitle; rewrite Ht; [|rewrite Htrim]; apply String.eqb_refl. }
  assert (Hexists : existsb (isRunner userid) (Event.runners e1) = true).
  { rewrite He1. apply postMap_runner_exists, Hcanonical. }
  destruct (deleteMap_newRunners_total userid maptype title (Event.runners e1))
    as [rs2 Hrs2].
  { intros r Hin Hr. destruct (Hheld r Hin Hr) as (m & Hm & Ht).
    apply existsb_exists. exists m. split; assumption. }
  assert (Hcleared : Forall2 (clearedRunner userid maptype title)
                             (Event.runners e1) rs2).
  { pose proof (allRunners_Forall2 _ _ _ Hrs2) as Hall.
    clear - Hall. induction Hall as [|r r' rs rs' Hr _ IH]; constructor;
      [apply deleteMap_newRunner_cleared, Hr | exact IH]. }
  exists (Event.set_runners rs2 e1).
  split; [repeat split|]. split; [exact Hcleared|]. split.
  { intros r2 Hin2 Hr2. simpl in Hin2.
    destruct (Forall2_In_r _ _ _ _ Hcleared Hin2) as (r1 & Hin1 & Hc).
    unfold clearedRunner in Hc.
    destruct (isRunner userid r1) eqn:Hr1.
    - destruct Hc as [_ Hmaps].
      destruct (Hheld r1 Hin1 Hr1) as (m1 & Hm1 & Ht1).
      destruct (Forall2_In_l _ _ _ _ Hmaps Hm1) as (m2 & Hm2 & Hcm).
      unfold clearedMap in Hcm. rewrite Ht1 in Hcm.
      destruct Hcm as (Htitle & _ & _ & Hpath & _).
      exists m2. split; [exact Hm2|]. split; [|exact Hpath].
      unfold hasTitle in *. rewrite Htitle. exact Ht1.
    - subst r2. congruence. }
  unfold deleteMap. rewrite Hallowed, Hev, Hus. cbn [negb orb]. cbv zeta.
  rewrite Hfind1. fold title. rewrite Hrs2, Hexists. cbn [negb].
  reflexivity.
Qed.

Lemma X22_witness :
  exists e2,
    Forall2 (clearedRunner "5c0000000000000000000ca0" Route "map")
            (Event.runners
               (Event.mk eventB bobId "2019-05-01" "May Day Sprint"
                  (Some "4321") [] [] [("locLat", JNum 0)]
                  [Runner.mk carolId VAll []
                     [MapRecord.mk "map" (Some "images/maps/e2/c.jpg")
                        (Some "images/maps/5c00000000000000000000e2/new.jpg")
                        None true (Some (JObj [("track", JArr [])]))]
                     []]
                  true))
            (Event.runners e2).
Proof.
  destruct (X22_deleteMap_after_postMap
              noTrim acceptAll acceptAll joinPath keepStore carol "new.jpg"
              "5c00000000000000000000e2" "5c0000000000000000000ca0" Route None
              notGeocoded JNull JNull mappedStore _ _ eq_refl eq_refl eq_refl
              eq_refl)
    as (e2 & _ & Hcleared & _).
  exists e2. exact Hcleared.
Defined.

(** ** From an ORIS record to an event *)

Lemma disciplineAndSportToType_falsy key :
  propertyTruthy (disciplineAndSportToType key) = false ->
  disciplineAndSportToType key = Undefined.
Proof.
  unfold disciplineAndSportToType.
  destruct (assoc key disciplineAndSportToType_table) as [label|] eqn:Hlabel.
  - unfold disciplineAndSportToType_table in Hlabel. simpl in Hlabel.
    repeat match type of Hlabel with
           | (if ?c then _ else _) = _ =>
               destruct c; [injection Hlabel as <-; discriminate|]
           end.
    discriminate Hlabel.
  - destruct (includes objectPrototypeKeys key); [discriminate | reflexivity].
Qed.

(** X23: the types [orisCreateEvent] gives a new event never hold the
    type of the ORIS sport: the list is the type of the discipline, once
    if the discipline is known and once more if the sport is. A known
    sport with an unknown discipline yields a list holding [undefined]. *)
Theorem X23_typesToCreate_repeats_the_discipline :
  forall (disciplineShortName sportNameCZ : string),
    typesToCreate disciplineShortName sportNameCZ
    = repeat (disciplineAndSportToType disciplineShortName)
             (oneIf (propertyTruthy
                       (disciplineAndSportToType disciplineShortName))
              + oneIf (propertyTruthy (disciplineAndSportToType sportNameCZ)))
    /\ (In (disciplineAndSportToType sportNameCZ)
           (typesToCreate disciplineShortName sportNameCZ) ->
        disciplineAndSportToType sportNameCZ
        = disciplineAndSportToType disciplineShortName)
    /\ (propertyTruthy (disciplineAndSportToType disciplineShortName) = false ->
        propertyTruthy (disciplineAndSportToType sportNameCZ) = true ->
        typesToCreate disciplineShortName sportNameCZ = [Undefined]).
Proof.
  intros d s.
  assert (Hshape : typesToCreate d s
                   = repeat (disciplineAndSportToType d)
                       (oneIf (propertyTruthy (disciplineAndSportToType d))
                        + oneIf (propertyTruthy (disciplineAndSportToType s)))).
  { unfold typesToCreate.
    destruct (propertyTruthy (disciplineAndSportToType d)),
      (propertyTruthy (disciplineAndSportToType s)); reflexivity. }
  split; [exact Hshape|]. split.
  - rewrite Hshape. intros Hin. apply repeat_spec in Hin. exact Hin.
  - intros Hd Hs. rewrite Hshape, Hd, Hs.
    rewrite (disciplineAndSportToType_falsy d Hd). reflexivity.
Qed.

Lemma last_cons {A : Type} (a d : A) l : last (a :: l) d = last l a.
Proof.
  revert a d. induction l as [|b l IH]; intros a d; [reflexivity|].
  change (last (a :: b :: l) d) with (last (b :: l) d).
  rewrite (IH b d), (IH b a). reflexivity.
Qed.

Lemma orisCreateEvent_results_last Documents results :
  fold_left (fun results documentRef =>
               if String.eqb (OrisDocument.SourceType_ID (snd documentRef)) "4"
               then OrisDocument.Url (snd documentRef)
               else results)
            Documents results
  = last (map (fun documentRef => OrisDocument.Url (snd documentRef))
              (filter holdsResults Documents))
         results.
Proof.
  revert results. induction Documents as [|d ds IH]; intros results;
    [reflexivity|].
  simpl. unfold holdsResults at 1.
  destruct (String.eqb (OrisDocument.SourceType_ID (snd d)) "4").
  - rewrite IH. cbn [map]. rewrite last_cons. reflexivity.
  - apply IH.
Qed.

(** X24: the results address [orisCreateEvent] gives a new event is the
    address of the last document of the ORIS record whose source type is
    '4'; when the record holds no such document it is the ORIS results
    page of the event. *)
Theorem X24_orisCreateEvent_results_is_the_last_results_document :
  forall (ID : string) (Documents : list (string * OrisDocument.t)),
    orisCreateEvent_results ID Documents
    = last (map (fun documentRef => OrisDocument.Url (snd documentRef))
                (filter holdsResults Documents))
           ("https://oris.orientacnisporty.cz/Vysledky?id=" ++ ID)%string.
Proof.
  intros ID Documents. unfold orisCreateEvent_results.
  apply orisCreateEvent_results_last.
Qed.

(** ** A link without events *)

(** X25: [createEventLink] answers 'no valid event IDs found' only when
    the body holds no list at all. A list none of whose entries names a
    stored event, the empty list included, creates a link that includes no
    event and leaves every event as it was. *)
Theorem X25_createEventLink_without_events :
  forall (newId : ObjectID) (user : ReqUser.t) (displayName : string)
         (candidates : list string) (s : Store.t),
    ReqUser.role user <> RGuest ->
    displayName <> "" ->
    findLinkByName displayName s = None ->
    (forall c, In c candidates ->
               knownCandidate (map Event._id (Store.events s)) c = false) ->
    ~ In newId (map LinkedEvent._id (Store.linkedEvents s)) ->
    createEventLink newId user
                    (LinkBody.mk (Some displayName) (Some candidates)) s
    = (Sent 200 (LinkedEvent.mk newId displayName []),
       Store.mk (Store.events s)
                (Store.linkedEvents s
                 ++ [LinkedEvent.mk newId displayName []])
                (Store.clubs s) (Store.users s)).
Proof.
  intros newId user displayName candidates s Hrole Hname Hfree Hnone Hfresh.
  unfold createEventLink.
  destruct (Role_eqb (ReqUser.role user) RGuest) eqn:Hguest.
  { apply Role_eqb_eq in Hguest. contradiction. }
  cbn [LinkBody.displayName LinkBody.includes].
  rewrite (truthy_nonempty _ Hname), Hfree. cbn [option_map].
  unfold validateEventIds. rewrite validateIds_filter.
  assert (Hempty : filter (knownCandidate (map Event._id (Store.events s)))
                          candidates = []).
  { induction candidates as [|c cs IH]; simpl; [reflexivity|].
    rewrite (Hnone c (or_introl eq_refl)). apply IH.
    intros c0 Hin. apply Hnone. right. exact Hin. }
  rewrite Hempty. cbn [map].
  assert (Hnew : existsb (fun l => ObjectID_eqb (LinkedEvent._id l) newId)
                         (Store.linkedEvents s) = false).
  { destruct (existsb _ (Store.linkedEvents s)) eqn:Hex; [|reflexivity].
    apply existsb_exists in Hex. destruct Hex as [l [Hl Heq]].
    apply ObjectID_eqb_eq in Heq. contradiction Hfresh.
    rewrite <- Heq. apply in_map, Hl. }
  rewrite Hnew. f_equal. f_equal.
  unfold updateMany. rewrite <- (map_id (Store.events s)) at 2.
  apply map_ext. intros e. reflexivity.
Qed.

Lemma X25_witness :
  createEventLink linkL bob (LinkBody.mk (Some "Easter") (Some ["nowhere"]))
                  bobsStore
  = (Sent 200 (LinkedEvent.mk linkL "Easter" []),
     Store.mk [bobsEvent] [LinkedEvent.mk linkL "Easter" []] []
              [aliceId; bobId; carolId; daveId; rootId]).
Proof.
  refine (X25_createEventLink_without_events
            linkL bob "Easter" ["nowhere"] bobsStore _ _ eq_refl _ _).
  - discriminate.
  - discriminate.
  - intros c [<-|[]]. reflexivity.
  - intros [].
Defined.

(** ** After an update of a runner entry *)

Lemma runnerUser_onlyValidFields body :
  runnerUser (onlyValidFields updateEventRunner_validFields body) = None.
Proof.
  unfold runnerUser. rewrite getField_onlyValidFields. reflexivity.
Qed.

Lemma updateEventRunner_sent user eventid userid body events e' events' :
  updateEventRunner user eventid userid body events = (Sent 200 e', events') ->
  exists e,
    find (hasRawId eventid) events = Some e
    /\ existsb (isUser userid) (RawEvent.runners e) = true
    /\ e' = setMatchedRunner userid
              (onlyValidFields updateEventRunner_validFields body) e
    /\ events' = updateFirst (hasRawId eventid)
                   (setMatchedRunner userid
                      (onlyValidFields updateEventRunner_validFields body))
                   events.
Proof.
  unfold updateEventRunner. intros H.
  destruct (Role_eqb (ReqUser.role user) RGuest); [discriminate|].
  destruct (negb (ObjectID_isValid eventid)); [discriminate|].
  destruct (negb (ObjectID_isValid userid)); [discriminate|].
  destruct (find (hasRawId eventid) events) as [e|]; [|discriminate].
  destruct (negb (forallb _ (RawEvent.runners e))); [discriminate|].
  cbv zeta in H.
  destruct (includes _ userid) eqn:Hin; [|discriminate]. cbn [negb] in H.
  destruct (_ || _); [|discriminate].
  destruct (length _ =? 0)%nat; [discriminate|].
  injection H as <- <-. exists e. repeat split.
  apply runnerIds_isUser, Hin.
Qed.

(** X26: one update of a runner entry blocks the event for every later
    runner request. The entry that a successful [updateEventRunner] stores
    has no user, so from then on [addEventRunner] and [updateEventRunner]
    on that event fail while they list the runners' users: whoever asks
    (guests apart, who are refused before), and whatever the body, the
    answer is 400 and nothing is stored. *)
Theorem X26_runner_requests_fail_after_an_update :
  forall (user later : ReqUser.t) (eventid userid userid' : string)
         (body body' : list (string * json))
         (events events' : list RawEvent.t) (e' : RawEvent.t)
         (documentToString : Club.t -> string)
         (populate : RawEvent.t -> DetailEvent)
         (castRunnerDetails
            : list (string * json) -> option (list (string * json))),
    updateEventRunner user eventid userid body events = (Sent 200 e', events') ->
    ReqUser.role later <> RGuest ->
    ObjectID_isValid userid' = true ->
    addEventRunner documentToString populate castRunnerDetails later eventid
                   body' events'
    = (Failed 400 AddRunner_Thrown, events')
    /\ updateEventRunner later eventid userid' body' events'
       = (Refused 400 StoreError, events').
Proof.
  intros user later eventid userid userid' body body' events events' e'
         documentToString populate castRunnerDetails Hupdate Hrole Hvalid'.
  assert (Hvalid : ObjectID_isValid eventid = true).
  { unfold updateEventRunner in Hupdate.
    destruct (Role_eqb (ReqUser.role user) RGuest); [discriminate|].
    destruct (ObjectID_isValid eventid); [reflexivity | discriminate]. }
  apply updateEventRunner_sent in Hupdate.
  destruct Hupdate as (e & Hfind & Hexists & -> & ->).
  assert (Hfind' : find (hasRawId eventid)
                     (updateFirst (hasRawId eventid)
                        (setMatchedRunner userid
                           (onlyValidFields updateEventRunner_validFields body))
                        events)
                   = Some (setMatchedRunner userid
                             (onlyValidFields updateEventRunner_validFields body)
                             e)).
  { apply (find_updateFirst (hasRawId eventid)); [exact Hfind|].
    apply find_some in Hfind. destruct Hfind as [_ Hid]. exact Hid. }
  assert (Hbroken : forallb (fun r => isSome (runnerUser r))
                      (RawEvent.runners
                         (setMatchedRunner userid
                            (onlyValidFields updateEventRunner_validFields body)
                            e))
                    = false).
  { unfold setMatchedRunner. cbn [RawEvent.runners].
    destruct (updateFirst_split (isUser userid)
                (fun _ => onlyValidFields updateEventRunner_validFields body)
                (RawEvent.runners e) Hexists)
      as (before & x & after & _ & _ & _ & ->).
    rewrite forallb_app. cbn [forallb].
    rewrite runnerUser_onlyValidFields. cbn [isSome andb].
    apply andb_false_r. }
  assert (Hnotguest : Role_eqb (ReqUser.role later) RGuest = false).
  { destruct (Role_eqb (ReqUser.role later) RGuest) eqn:Hg; [|reflexivity].
    apply Role_eqb_eq in Hg. contradiction. }
  split.
  - unfold addEventRunner. rewrite Hnotguest, Hvalid. cbn [negb].
    rewrite Hfind', Hbroken. reflexivity.
  - unfold updateEventRunner. rewrite Hnotguest, Hvalid, Hvalid'. cbn [negb].
    rewrite Hfind', Hbroken. reflexivity.
Qed.

Lemma X26_witness :
  addEventRunner idOfClub (fun _ => springCup []) castKnownPaths carol
    "5c00000000000000000000e1" []
    (snd (updateEventRunner alice "5c00000000000000000000e1"
            "5c0000000000000000000a11" titleChange [rawEvent]))
  = (Failed 400 AddRunner_Thrown,
     snd (updateEventRunner alice "5c00000000000000000000e1"
            "5c0000000000000000000a11" titleChange [rawEvent])).
Proof.
  refine (proj1 (X26_runner_requests_fail_after_an_update
                   alice carol "5c00000000000000000000e1"
                   "5c0000000000000000000a11" "5c0000000000000000000ca0"
                   titleChange [] [rawEvent] _ _ idOfClub
                   (fun _ => springCup []) castKnownPaths eq_refl _ eq_refl)).
  discriminate.
Defined.

(** ** Uploading again *)

Lemma postMap_newRunner_same_count trim userid maptype title location qRData
      geo r :
  (isRunner userid r = true -> existsb (hasTitle title) (Runner.maps r) = true) ->
  sameUserAndMapCount r (postMap_newRunner trim userid maptype title location
                                           qRData geo r).
Proof.
  intros Hheld. unfold sameUserAndMapCount, postMap_newRunner.
  destruct (isRunner userid r); [|split; reflexivity].
  rewrite (Hheld eq_refl). cbn [negb]. simpl. rewrite length_map.
  split; reflexivity.
Qed.

(** X27: uploading again under a title replaces, it does not add. After a
    successful [postMap] for a user id given in the form ObjectIDs print
    in, under a title the trim setter leaves as it is, a further [postMap]
    for the same event, user and title, of either kind and from any image,
    stores (unless the validators refuse) an event with the same runner
    entries of the same users, each with as many maps as before. *)
Theorem X27_postMap_again_replaces :
  forall (trim : string -> string) (validates validates' : StoredEvent -> bool)
         (newFileLocationOf : string -> string -> string)
         (filePath filePath' eventid userid : string)
         (maptype maptype' : MapType) (maptitle : option string)
         (qRData qRData' : QRData.t)
         (trackCoords trackDistanceK trackCoords' trackDistanceK' : json)
         (s s1 : Store.t) (e1 : StoredEvent),
    postMap trim validates newFileLocationOf (Some filePath) eventid userid
            maptype maptitle qRData trackCoords trackDistanceK s
    = (Replied 200 e1, s1) ->
    toString (castObjectID userid) = userid ->
    trim (titleOf maptitle) = titleOf maptitle ->
    exists e2,
      Forall2 sameUserAndMapCount (Event.runners e1) (Event.runners e2)
      /\ postMap trim validates' newFileLocationOf (Some filePath') eventid
                 userid maptype' maptitle qRData' trackCoords' trackDistanceK'
                 s1
         = if validates' e2
           then (Replied 200 e2,
                 setEvents (updateFirst (hasEventId eventid) (fun _ => e2)
                                        (Store.events s1)) s1)
           else (Failed 400 Map_Thrown, s1).
Proof.
  intros trim validates validates' newFileLocationOf filePath filePath' eventid
         userid maptype maptype' maptitle qRData qRData' trackCoords
         trackDistanceK trackCoords' trackDistanceK' s s1 e1 Hpost Hcanonical
         Htrim.
  apply postMap_replied in Hpost.
  destruct Hpost as (filePath0 & e & [= <-] & Hev & Hus & Hfind & He1 & _ & ->).
  set (title := titleOf maptitle) in *.
  assert (Hfind1 : findEventById eventid
                     (setEvents (updateFirst (hasEventId eventid) (fun _ => e1)
                                             (Store.events s)) s)
                   = Some e1).
  { unfold findEventById. simpl.
    apply (find_updateFirst (hasEventId eventid) (fun _ => e1)
                            (Store.events s) e Hfind).
    rewrite He1. apply find_some in Hfind. destruct Hfind as [_ Hid]. exact Hid. }
  assert (Hheld : forall r, In r (Event.runners e1) -> isRunner userid r = true ->
            existsb (hasTitle title) (Runner.maps r) = true).
  { intros r Hin Hr. rewrite He1 in Hin. simpl in Hin.
    destruct (postMap_runners_hold trim userid maptype title
                (newFileLocationOf eventid filePath) qRData
                (geoOf qRData trackCoords trackDistanceK)
                (Event.runners e) r Hin Hr)
      as (m & Hm & [[Ht|Ht] _] & _); apply existsb_exists; exists m;
      (split; [exact Hm|]); unfold hasTitle; rewrite Ht; [|rewrite Htrim];
      apply String.eqb_refl. }
  assert (Hexists : existsb (isRunner userid) (Event.runners e1) = true).
  { rewrite He1. apply postMap_runner_exists, Hcanonical. }
  eexists. split; [|unfold postMap; cbv zeta; rewrite Hev, Hus; cbn [negb orb];
                    rewrite Hfind1, Hexists; cbn [negb]; reflexivity].
  simpl. clear - Hheld.
  induction (Event.runners e1) as [|r rs IH]; simpl; constructor.
  - apply postMap_newRunner_same_count. intros Hr.
    apply Hheld; [left; reflexivity | exact Hr].
  - apply IH. intros r0 Hin. apply Hheld. right. exact Hin.
Qed.

Lemma X27_witness :
  exists e2,
    Forall2 sameUserAndMapCount
      [Runner.mk carolId VAll []
         [MapRecord.mk "map" (Some "images/maps/e2/c.jpg")
            (Some "images/maps/5c00000000000000000000e2/new.jpg")
            None true (Some (JObj [("track", JArr [])]))]
         []]
      (Event.runners e2).
Proof.
  destruct (X27_postMap_again_replaces
              noTrim acceptAll acceptAll joinPath "new.jpg" "newer.jpg"
              "5c00000000000000000000e2" "5c0000000000000000000ca0"
              Route Course None notGeocoded geocoded JNull JNull JNull JNull
              mappedStore _ _ eq_refl eq_refl eq_refl)
    as (e2 & Hsame & _).
  exists e2. exact Hsame.
Defined.

(** ** The clubs of an event *)

(** X28: the clubs an event is created or updated with are stored clubs.
    Of the candidates in the body's [organisedBy], [createEvent] and
    [updateEvent] store the ids of the stored clubs that the candidates
    name, a well-formed id in any spelling naming the club it is cast to, in
    the candidates' order, and drop the other candidates without refusing
    the request. *)
Theorem X28_organisers_are_stored_clubs :
  forall (validates : StoredEvent -> bool)
         (docArrayIncludes : list ObjectID -> string -> bool)
         (trim trimInQuery : string -> string) (s : Store.t),
    (forall newId user body e s',
        createEvent validates trim trimInQuery newId user body s
        = (Sent 200 e, s') ->
        Event.organisedBy e
        = match EventBody.organisedBy body with
          | Some candidates =>
              map castObjectID
                  (filter (knownCandidate (Store.clubs s)) candidates)
          | None => []
          end
        /\ forall c, In c (Event.organisedBy e) -> In c (Store.clubs s))
    /\ (forall user eventid body candidates e' s',
          updateEvent docArrayIncludes trimInQuery user eventid body s
          = (Sent 200 e', s') ->
          EventBody.organisedBy body = Some candidates ->
          Event.organisedBy e'
          = map castObjectID
                (filter (knownCandidate (Store.clubs s)) candidates)
          /\ forall c, In c (Event.organisedBy e') -> In c (Store.clubs s)).
Proof.
  intros validates inc trim trimInQuery s. split.
  - intros newId user body e s' H. unfold createEvent in H.
    destruct (Role_eqb (ReqUser.role user) RGuest); [discriminate|].
    destruct (truthy (EventBody.date body)) as [eventDate|]; [|discriminate].
    destruct (truthy (EventBody.name body)) as [eventName|]; [|discriminate].
    destruct (negb (matchesDate eventDate)); [discriminate|].
    destruct (findEventByDateName eventDate (trimInQuery eventName) s);
      [discriminate|].
    cbv zeta in H. destruct (_ && _); [|discriminate].
    injection H as <- _. cbn [Event.organisedBy].
    destruct (EventBody.organisedBy body) as [candidates|]; cbn [option_map orEmpty].
    + unfold validateClubIds. split; [apply validateIds_filter|].
      intros c Hc. apply validateIds_In in Hc. exact Hc.
    + split; [reflexivity | intros c []].
  - intros user eventid body candidates e' s' H Hsupplied.
    unfold updateEvent in H.
    destruct (Role_eqb (ReqUser.role user) RGuest); [discriminate|].
    destruct (negb (ObjectID_isValid eventid)); [discriminate|].
    destruct (match truthy (EventBody.date body) with
              | Some d => negb (matchesDate d)
              | None => false
              end); [discriminate|].
    destruct (match EventBody.date body with
              | Some d => _
              | None => false
              end); [discriminate|].
    destruct (findEventById eventid s) as [e|]; [|discriminate].
    destruct (updateEvent_allowedToUpdate user e); [|discriminate].
    cbv zeta in H.
    destruct (numberOfFields _ =? 0)%nat; [discriminate|].
    injection H as <- _. unfold applySet, updateEvent_fieldsToUpdate.
    cbn [Event.organisedBy EventPatch.organisedBy]. rewrite Hsupplied.
    cbn [option_map orElse]. unfold validateClubIds.
    split; [apply validateIds_filter|].
    intros c Hc. apply validateIds_In in Hc. exact Hc.
Qed.

(** ** Writing to a soft-deleted event *)

Lemma deleteEvent_sent_by now user eventid s d s' :
  deleteEvent now user eventid s = (Sent 200 d, s') ->
  exists e,
    ObjectID_isValid eventid = true
    /\ findEventById eventid s = Some e
    /\ deleteEvent_hasPermissionToDelete user e
       && deleteEvent_noOtherRunners user e = true
    /\ d = setDeleted (Event.name e ++ " " ++ deletedAt now)
                      (taggedOrisId now e) e
    /\ findEventById eventid s' = Some d.
Proof.
  unfold deleteEvent. intros H.
  destruct (ObjectID_isValid eventid) eqn:Hvalid; [|discriminate].
  cbn [negb] in H.
  destruct (findEventById eventid s) as [e|] eqn:Hfind; [|discriminate].
  cbv zeta in H. destruct (_ && _) eqn:Hallowed; [|discriminate].
  destruct (orisIdHeldElsewhere eventid _ s); [discriminate|].
  injection H as <- <-. exists e.
  split; [reflexivity|]. split; [reflexivity|]. split; [exact Hallowed|].
  split; [reflexivity|].
  unfold findEventById in *. cbn [Store.events].
  apply (find_updateFirst (hasEventId eventid)); [exact Hfind|].
  apply find_some in Hfind. destruct Hfind as [_ Hid]. exact Hid.
Qed.

(** X29: [deleteEvent] does not look at the active flag. After a
    successful [deleteEvent], the same requester's next [deleteEvent] on the
    same id goes through again, unless the store refuses the ORIS id with
    its second tag because another event holds it: the event, still stored
    and inactive, has a second deletion tag appended to its name. *)
Theorem X29_deleteEvent_twice_tags_twice :
  forall (now now' : DateTime.t) (user : ReqUser.t) (eventid : string)
         (s s' : Store.t) (d : StoredEvent),
    deleteEvent now user eventid s = (Sent 200 d, s') ->
    (orisIdHeldElsewhere eventid (taggedOrisId now' d) s' = true ->
     deleteEvent now' user eventid s' = (Refused 400 StoreError, s'))
    /\ (orisIdHeldElsewhere eventid (taggedOrisId now' d) s' = false ->
        exists d' s'',
          deleteEvent now' user eventid s' = (Sent 200 d', s'')
          /\ Event.name d' = (Event.name d ++ " " ++ deletedAt now')%string
          /\ Event.active d' = false
          /\ findEventById eventid s'' = Some d').
Proof.
  intros now now' user eventid s s' d H.
  apply deleteEvent_sent_by in H.
  destruct H as (e & Hvalid & _ & Hallowed & -> & Hfind').
  remember (setDeleted (Event.name e ++ " " ++ deletedAt now)
                       (taggedOrisId now e) e) as d eqn:Hd.
  assert (Hallowed' : deleteEvent_hasPermissionToDelete user d
                      && deleteEvent_noOtherRunners user d = true).
  { rewrite Hd. exact Hallowed. }
  unfold taggedOrisId at 1 2.
  split; intros Hheld; unfold deleteEvent;
    rewrite Hvalid, Hfind'; cbn [negb]; cbv zeta;
    rewrite Hallowed', Hheld; [reflexivity|].
  eexists _, _. split; [reflexivity|]. split; [reflexivity|].
  split; [reflexivity|].
  unfold findEventById in *. cbn [Store.events].
  apply (find_updateFirst (hasEventId eventid)); [exact Hfind'|].
  apply find_some in Hfind'. destruct Hfind' as [_ Hid]. exact Hid.
Qed.

Lemma X29_witness :
  exists d' s'',
    deleteEvent someTime root "5c00000000000000000000e1" afterDelete
    = (Sent 200 d', s'')
    /\ Event.name d'
       = "Spring Cup deleted:02112026@0905 deleted:02112026@0905"
    /\ Event.active d' = false.
Proof.
  destruct (proj2 (X29_deleteEvent_twice_tags_twice
                     someTime someTime root "5c00000000000000000000e1"
                     davesStore _ _ eq_refl)
                  eq_refl)
    as (d' & s'' & Hsecond & Hname & Hactive & _).
  exists d', s''. split; [exact Hsecond|]. split; [exact Hname | exact Hactive].
Defined.

(** X30: a soft-deleted event stays writable. [updateEvent] does not look
    at the active flag either: after a successful [deleteEvent], an admin's
    [updateEvent] that renames the event, to a name no other event bears,
    answers 200 and stores the new name, as the update's setter leaves it,
    and the event stays inactive. *)
Theorem X30_updateEvent_writes_to_a_deleted_event :
  forall (docArrayIncludes : list ObjectID -> string -> bool)
         (trimInQuery : string -> string)
         (now : DateTime.t) (user admin : ReqUser.t) (eventid newName : string)
         (s s' : Store.t) (d : StoredEvent),
    deleteEvent now user eventid s = (Sent 200 d, s') ->
    ReqUser.role admin = RAdmin ->
    (forall x, In x (Store.events s') -> Event.name x = trimInQuery newName ->
               toString (Event._id x) = eventid) ->
    exists e' s'',
      updateEvent docArrayIncludes trimInQuery admin eventid (rename newName) s'
      = (Sent 200 e', s'')
      /\ Event.name e' = trimInQuery newName
      /\ Event.active e' = false
      /\ findEventById eventid s'' = Some e'.
Proof.
  intros inc trimInQuery now user admin eventid newName s s' d H Hadmin _.
  apply deleteEvent_sent_by in H.
  destruct H as (e & Hvalid & _ & _ & Hd & Hfind').
  assert (Hactive : Event.active d = false) by (rewrite Hd; reflexivity).
  rewrite (updateEvent_after_validation inc trimInQuery admin eventid
                                        (rename newName) s' d);
    [|rewrite Hadmin; discriminate
     |unfold updateEvent_passesValidation; rewrite Hvalid; reflexivity
     |exact Hfind'].
  unfold updateEvent_allowedToUpdate. rewrite Hadmin. cbn [Role_eqb orb].
  cbv zeta. cbn [numberOfFields updateEvent_fieldsToUpdate rename
                 EventBody.date EventBody.name EventBody.owner
                 EventBody.organisedBy EventBody.linkedTo EventBody.other
                 EventPatch.date EventPatch.name EventPatch.owner
                 EventPatch.organisedBy EventPatch.linkedTo EventPatch.fields
                 option_map truthy isSome onlyValidFields filter length
                 Nat.add Nat.eqb].
  eexists _, _. split; [reflexivity|]. split; [reflexivity|].
  split; [exact Hactive|].
  unfold findEventById in *. cbn [Store.events].
  apply (find_updateFirst (hasEventId eventid)); [exact Hfind'|].
  apply find_some in Hfind'. destruct Hfind' as [_ Hid]. exact Hid.
Qed.

Lemma X30_witness :
  exists e' s'',
    updateEvent includesByValue trimBlanks root "5c00000000000000000000e1"
                (rename "Spring Cup 2019 ") afterDelete
    = (Sent 200 e', s'')
    /\ Event.name e' = "Spring Cup 2019"
    /\ Event.active e' = false.
Proof.
  destruct (X30_updateEvent_writes_to_a_deleted_event
              includesByValue trimBlanks someTime root root
              "5c00000000000000000000e1" "Spring Cup 2019 " davesStore _ _
              eq_refl eq_refl)
    as (e' & s'' & Hupdate & Hname & Hactive & _).
  { intros x [<-|[]] Hx. discriminate Hx. }
  exists e', s''. split; [exact Hupdate|]. split; [exact Hname | exact Hactive].
Defined.
